(** * Rope-and-pulley simulator: the physics stepping core

    A shallow embedding of [src/services/physicsEngine.ts]
    ([updateAtwoodPhysics], [updateSandboxPhysics]) together with the
    records of [src/types.ts] and the constants of the constants module.

    Numbers.  A TypeScript [number] is modelled as an exact rational [Q]:
    every formula of the engine is read as the arithmetic it denotes, without
    rounding.  Comparisons of numbers are the decidable comparisons of [Q]
    and equalities between computed numbers are stated with [==] ([Qeq]).
    Non-finite values (NaN, Infinity) are outside this model; a quotient
    whose divisor is zero is [0] here, as [Qdiv] has it, so the properties
    of [updateAtwoodPhysics] that go through a quotient assume that its
    divisor is not zero.  Module [Js] gives the numbers with NaN, the
    infinities and the negative zero, [AtwoodJs] is [updateAtwoodPhysics]
    on them, and [Refinement] shows that the two models agree on finite
    numbers when no divisor is zero.

    Arrays are lists, [Set<string>] is [gset string], optional fields are
    [option]. *)

From Stdlib Require Import QArith Qabs Lqa ZArith Lia List Bool.
From stdpp Require Import gmap strings.
Import ListNotations.

Local Open Scope Q_scope.

(** ** Number primitives *)

Module Num.

(** [a > b] *)
Definition gtb (a b : Q) : bool := negb (Qle_bool a b).
(** [a < b] *)
Definition ltb (a b : Q) : bool := negb (Qle_bool b a).
(** [a <= b] *)
Definition leb (a b : Q) : bool := Qle_bool a b.
(** [a >= b] *)
Definition geb (a b : Q) : bool := Qle_bool b a.
(** [a === b] on numbers *)
Definition eqb (a b : Q) : bool := Qeq_bool a b.

(** [Math.sign] *)
Definition sign (x : Q) : Q :=
  if gtb x 0 then 1 else if ltb x 0 then -1 else 0.

(** [Math.abs] *)
Definition abs (x : Q) : Q := Qabs x.

(** [x || d] on numbers: [d] when [x] is falsy, that is zero *)
Definition or_default (x d : Q) : Q := if eqb x 0 then d else x.

(** [Math.max(a, b)] and [Math.min(a, b)] *)
Definition max (a b : Q) : Q := if ltb a b then b else a.
Definition min (a b : Q) : Q := if ltb b a then b else a.

End Num.

(** ** Constants (the constants module) *)

Definition GRAVITY : Q := 981 # 100.
Definition FRICTION_SCALE : Q := 4 # 10.
Definition AIR_RESISTANCE_SCALE : Q := 3.
Definition METERS_TO_PIXELS : Q := 100.

(** ** [types.ts] *)

Inductive RealityMode := IDEAL | REAL.

Definition is_real (m : RealityMode) : bool :=
  match m with REAL => true | IDEAL => false end.

Record AtwoodState := mkAtwood {
  mass1 : Q;
  mass2 : Q;
  pulleyMass : Q;
  pulleyRadius : Q;
  frictionCoeff : Q;
  totalRopeLength : Q;
  initialY1 : Q;
  initialY2 : Q;
  ropeMaxTension : Q;
  airResistance : Q;
  isBroken : bool;
  y1 : Q;
  y2 : Q;
  velocity : Q;
  angularVelocity : Q;
  acceleration : Q;
  tension1 : Q;
  tension2 : Q;
  time : Q
}.

(** [isBroken] of an [AtwoodState], for use where the sandbox field of
    the same name is in scope *)
Definition atwoodBroken (s : AtwoodState) : bool := isBroken s.

(** ** [updateAtwoodPhysics] *)

Module Atwood.

(** *** The broken branch: free fall of both masses *)

(** [v1] and [v2] after the optional drag of REAL mode *)
Definition brokenV0 (s : AtwoodState) (dt : Q) : Q :=
  velocity s + GRAVITY * dt.

Definition brokenDrag (s : AtwoodState) (dt : Q) : Q :=
  (5 # 10) * airResistance s * (brokenV0 s dt * brokenV0 s dt)
  * AIR_RESISTANCE_SCALE.

(** the drag is divided by the mass [m]; on rationals the quotient by a
    zero mass is [0], where the engine has NaN or an infinity
    ([AtwoodJs.brokenV]) *)
Definition brokenV (s : AtwoodState) (dt : Q) (mode : RealityMode)
           (m : Q) : Q :=
  if is_real mode
  then brokenV0 s dt - (brokenDrag s dt / m) * dt
  else brokenV0 s dt.

(** [if (newY > 4.5) newY = 4.5] *)
Definition capFloor (y : Q) : Q :=
  if Num.gtb y (45 # 10) then 45 # 10 else y.

Definition stepBroken (s : AtwoodState) (dt : Q) (mode : RealityMode)
  : AtwoodState :=
  let v1 := brokenV s dt mode (mass1 s) in
  let v2 := brokenV s dt mode (mass2 s) in
  let newY1 := capFloor (y1 s + v1 * dt * (5 # 10)) in
  let newY2 := capFloor (y2 s + v2 * dt * (5 # 10)) in
  {| mass1 := mass1 s; mass2 := mass2 s; pulleyMass := pulleyMass s;
     pulleyRadius := pulleyRadius s; frictionCoeff := frictionCoeff s;
     totalRopeLength := totalRopeLength s;
     initialY1 := initialY1 s; initialY2 := initialY2 s;
     ropeMaxTension := ropeMaxTension s; airResistance := airResistance s;
     isBroken := isBroken s;
     y1 := newY1; y2 := newY2;
     velocity := 0;
     angularVelocity := angularVelocity s;
     acceleration := 0;
     tension1 := 0; tension2 := 0;
     time := time s |}.

(** *** The intact branch *)

(** [state.totalRopeLength || 5.0] *)
Definition ropeLen (s : AtwoodState) : Q :=
  Num.or_default (totalRopeLength s) 5.

Definition effectivePulleyInertiaMass (s : AtwoodState) : Q :=
  (5 # 10) * pulleyMass s.

Definition drivingForce (s : AtwoodState) : Q :=
  (mass2 s - mass1 s) * GRAVITY.

Definition isBalanced (s : AtwoodState) : bool :=
  Num.ltb (Num.abs (mass2 s - mass1 s)) (1 # 1000).

Definition centeringForce (s : AtwoodState) : Q :=
  if isBalanced s
  then
    let targetY := ropeLen s / 2 in
    let dist := targetY - y1 s in
    - dist * (mass1 s + mass2 s) * 5
  else 0.

Definition frictionForce (s : AtwoodState) : Q :=
  if Num.gtb (frictionCoeff s) 0
  then frictionCoeff s * (mass1 s + mass2 s) * GRAVITY * FRICTION_SCALE
  else 0.

(** [netForce] after the friction block *)
Definition netForceFriction (s : AtwoodState) : Q :=
  let netForce := drivingForce s + centeringForce s in
  if Num.gtb (Num.abs (velocity s)) (1 # 1000)
  then netForce - Num.sign (velocity s) * frictionForce s
  else
    if Num.leb (Num.abs netForce) (frictionForce s)
    then 0
    else netForce - Num.sign netForce * frictionForce s.

(** [netForce] after the air-resistance block *)
Definition netForce (s : AtwoodState) (mode : RealityMode) : Q :=
  let netForce := netForceFriction s in
  if is_real mode && Num.gtb (Num.abs (velocity s)) (1 # 1000)
  then
    let dragMagnitude :=
      (airResistance s * AIR_RESISTANCE_SCALE)
      * (velocity s * velocity s) in
    let dragForce := Num.sign (velocity s) * dragMagnitude in
    netForce - dragForce
  else netForce.

Definition totalInertialMass (s : AtwoodState) : Q :=
  mass1 s + mass2 s + effectivePulleyInertiaMass s.

(** the zero-crossing test that resets both [newVelocity] and
    [acceleration] *)
Definition stiction (s : AtwoodState) (dt : Q) (mode : RealityMode)
  : bool :=
  let acc := netForce s mode / totalInertialMass s in
  let newVelocity := velocity s + acc * dt in
  Num.gtb (Num.abs (velocity s)) (1 # 1000)
  && negb (Num.eqb (Num.sign newVelocity) (Num.sign (velocity s)))
  && Num.leb (Num.abs (netForce s mode)) (frictionForce s).

(** [acceleration] as it stands after the stiction check; on rationals
    the quotient by a zero [totalInertialMass] is [0], where the engine
    has NaN or an infinity ([AtwoodJs.accel]) *)
Definition accel (s : AtwoodState) (dt : Q) (mode : RealityMode) : Q :=
  if stiction s dt mode then 0
  else netForce s mode / totalInertialMass s.

(** [newVelocity] as it stands after the centering damping; the same
    quotient ([AtwoodJs.newVelocity] for the numbers of the engine) *)
Definition newVelocity (s : AtwoodState) (dt : Q) (mode : RealityMode)
  : Q :=
  let acc := netForce s mode / totalInertialMass s in
  let v := if stiction s dt mode then 0 else velocity s + acc * dt in
  if isBalanced s then v * (90 # 100) else v.

Definition newY1 (s : AtwoodState) (dt : Q) (mode : RealityMode) : Q :=
  y1 s - newVelocity s dt mode * dt.

(** which of the two early returns of the boundary checks is taken *)
Definition hitsTop (s : AtwoodState) (dt : Q) (mode : RealityMode)
  : bool :=
  Num.ltb (newY1 s dt mode) (2 # 10).

Definition hitsBottom (s : AtwoodState) (dt : Q) (mode : RealityMode)
  : bool :=
  Num.gtb (newY1 s dt mode) (ropeLen s - (2 # 10)).

Definition clamped (s : AtwoodState) (dt : Q) (mode : RealityMode)
  : bool :=
  hitsTop s dt mode || hitsBottom s dt mode.

(** [{ ...state, velocity: 0, acceleration: 0, y1: a, y2: b }] *)
Definition stopAt (s : AtwoodState) (a b : Q) : AtwoodState :=
  {| mass1 := mass1 s; mass2 := mass2 s; pulleyMass := pulleyMass s;
     pulleyRadius := pulleyRadius s; frictionCoeff := frictionCoeff s;
     totalRopeLength := totalRopeLength s;
     initialY1 := initialY1 s; initialY2 := initialY2 s;
     ropeMaxTension := ropeMaxTension s; airResistance := airResistance s;
     isBroken := isBroken s;
     y1 := a; y2 := b;
     velocity := 0;
     angularVelocity := angularVelocity s;
     acceleration := 0;
     tension1 := tension1 s; tension2 := tension2 s;
     time := time s |}.

Definition stepIntact (s : AtwoodState) (dt : Q) (mode : RealityMode)
  : AtwoodState :=
  if hitsTop s dt mode
  then stopAt s (2 # 10) (ropeLen s - (2 # 10))
  else if hitsBottom s dt mode
  then stopAt s (ropeLen s - (2 # 10)) (2 # 10)
  else
    let a := accel s dt mode in
    let t1 := mass1 s * (GRAVITY + a) in
    let t2 := mass2 s * (GRAVITY - a) in
    let broken :=
      is_real mode
      && (Num.gtb t1 (ropeMaxTension s) || Num.gtb t2 (ropeMaxTension s))
    in
    {| mass1 := mass1 s; mass2 := mass2 s; pulleyMass := pulleyMass s;
       pulleyRadius := pulleyRadius s; frictionCoeff := frictionCoeff s;
       totalRopeLength := totalRopeLength s;
       initialY1 := initialY1 s; initialY2 := initialY2 s;
       ropeMaxTension := ropeMaxTension s;
       airResistance := airResistance s;
       isBroken := broken;
       y1 := newY1 s dt mode;
       y2 := ropeLen s - newY1 s dt mode;
       velocity := newVelocity s dt mode;
       angularVelocity := newVelocity s dt mode / pulleyRadius s;
       acceleration := a;
       tension1 := t1; tension2 := t2;
       time := time s + dt |}.

Definition updateAtwoodPhysics (s : AtwoodState) (dt : Q)
           (mode : RealityMode) : AtwoodState :=
  if isBroken s then stepBroken s dt mode else stepIntact s dt mode.

End Atwood.

(** ** Sandbox records of [types.ts] *)

Module Load.
Record LoadObject := mk {
  id : string;
  mass : Q;
  color : string;
  x : Q;
  y : Q;
  vx : Q;
  vy : Q
}.
End Load.

Module Pul.
Record Pulley := mk {
  id : string;
  x : Q;
  y : Q;
  radius : Q;
  vx : option Q
}.
End Pul.

Module Anc.
Record Anchor := mk {
  id : string;
  x : Q;
  y : Q
}.
End Anc.

Module Rope.
Inductive RopeType := direct | pulley.

Record RopeSegment := mk {
  id : string;
  fromId : string;
  toId : string;
  type : RopeType;
  fromSide : option Q;
  toSide : option Q
}.
End Rope.

Inductive InteractionMode := select | rope_direct | rope_pulley.

Inductive BuilderStep := idle | select_first | select_second | select_pulley.

Record RopeBuilderState := mkBuilder {
  step : BuilderStep;
  firstId : option string;
  secondId : option string
}.

Module Sandbox.

Record SandboxState := mk {
  fixedPulleys : list Pul.Pulley;
  movablePulleys : list Pul.Pulley;
  loads : list Load.LoadObject;
  anchors : list Anc.Anchor;
  effortForce : Q;
  friction : Q;
  ropeMaxTension : Q;
  airResistance : Q;
  isBroken : bool;
  interactionMode : InteractionMode;
  ropeSegments : list Rope.RopeSegment;
  ropeBuilderState : RopeBuilderState;
  ropeConnectionStartId : option string;
  loadPosition : Q;
  loadVelocity : Q;
  isDragging : bool;
  selectedId : option string
}.

(** [ids.includes(id)] *)
Definition includes (ids : list string) (i : string) : bool :=
  existsb (String.eqb i) ids.

(** [arr.length] as a number *)
Definition len {A} (l : list A) : Q := inject_Z (Z.of_nat (length l)).

(** [arr.reduce((sum, e) => sum + f(e), 0)] *)
Definition sumOf {A} (f : A -> Q) (l : list A) : Q :=
  fold_left (fun sum e => sum + f e) l 0.

(** *** 1. System topology analysis *)

Section Topology.

Variable state : SandboxState.

Definition movableIds : list string := map Pul.id (movablePulleys state).
Definition fixedIds : list string := map Pul.id (fixedPulleys state).
Definition anchorIds : list string := map Anc.id (anchors state).

Definition isFixedOrAnchor (i : string) : bool :=
  includes fixedIds i || includes anchorIds i.
Definition isMovable (i : string) : bool := includes movableIds i.

(** [state.loads.find(l => l.id === currId)] *)
Definition findLoad (currId : string) : option Load.LoadObject :=
  find (fun l => String.eqb (Load.id l) currId) (loads state).

(** [result.includes(load)] for a [load] returned by [findLoad]:
    the array holds object references, and [find] returns the first
    load of [state.loads] with the wanted id, so two loads it returned
    are the same object exactly when their ids are equal. *)
Definition holds (result : list Load.LoadObject) (load : Load.LoadObject)
  : bool :=
  existsb (fun r => String.eqb (Load.id r) (Load.id load)) result.

Section FindConnectedLoads.

Variable boundaryCheck : string -> bool.

(** the body shared by the two [if] blocks of the [forEach]
    callback: enqueue an unvisited neighbour that is not on the
    boundary *)
Definition reach (neighbor : string)
           (st : gset string * list string)
  : gset string * list string :=
  if decide (neighbor ∈ st.1) then st
  else if boundaryCheck neighbor then st
  else ({[neighbor]} ∪ st.1, st.2 ++ [neighbor]).

(** one call of the [forEach] callback *)
Definition scanRope (currId : string)
           (st : gset string * list string) (r : Rope.RopeSegment)
  : gset string * list string :=
  let st1 :=
    if String.eqb (Rope.fromId r) currId
    then reach (Rope.toId r) st else st in
  if String.eqb (Rope.toId r) currId
  then reach (Rope.fromId r) st1 else st1.

(** [if (load && !result.includes(load)) result.push(load)] *)
Definition collect (result : list Load.LoadObject) (currId : string)
  : list Load.LoadObject :=
  match findLoad currId with
  | Some load => if holds result load then result else result ++ [load]
  | None => result
  end.

(** the [while (queue.length > 0)] loop; [None] when the iteration
    budget is used up before the queue is empty *)
Fixpoint bfsLoop (fuel : nat) (result : list Load.LoadObject)
         (visited : gset string) (queue : list string)
  : option (list Load.LoadObject) :=
  match queue with
  | [] => Some result
  | currId :: rest =>
    match fuel with
    | O => None
    | S fuel' =>
      let st :=
        fold_left (scanRope currId) (ropeSegments state)
                  (visited, rest) in
      bfsLoop fuel' (collect result currId) st.1 st.2
    end
  end.

(** an iteration budget that the loop never uses up: every id is
    enqueued at most once after the start ids, and every enqueued id
    is an endpoint of a rope segment *)
Definition bfsFuel (startIds : list string) : nat :=
  (length startIds + 2 * length (ropeSegments state))%nat.

Definition findConnectedLoads (startIds : list string)
  : list Load.LoadObject :=
  match bfsLoop (bfsFuel startIds) [] (list_to_set startIds) startIds
  with
  | Some result => result
  | None => []
  end.

End FindConnectedLoads.

(** [getSide]: the [for (const r of ropes)] loop; [inl side] is a
    [return side], [inr q] the queue after the loop *)
Fixpoint sideScan (curr : string) (ropes : list Rope.RopeSegment)
         (q : list string) : Q + list string :=
  match ropes with
  | [] => inr q
  | r :: ropes' =>
    let other :=
      if String.eqb (Rope.fromId r) curr
      then Rope.toId r else Rope.fromId r in
    if includes fixedIds other
    then
      let isTo := String.eqb (Rope.toId r) other in
      let side := if isTo then Rope.toSide r else Rope.fromSide r in
      match side with
      | Some sd => inl sd
      | None => inl (-1)
      end
    else
      if existsb (fun l => String.eqb (Load.id l) other) (loads state)
      then sideScan curr ropes' (q ++ [other])
      else sideScan curr ropes' q
  end.

(** [state.ropeSegments.filter(r => r.fromId === curr || r.toId === curr)] *)
Definition ropesAt (curr : string) : list Rope.RopeSegment :=
  List.filter
    (fun r => String.eqb (Rope.fromId r) curr
              || String.eqb (Rope.toId r) curr)
    (ropeSegments state).

(** [getSide]: the [while (q.length > 0)] loop *)
Fixpoint sideLoop (fuel : nat) (visited : gset string) (q : list string)
  : option Q :=
  match q with
  | [] => Some 0
  | curr :: rest =>
    match fuel with
    | O => None
    | S fuel' =>
      if decide (curr ∈ visited) then sideLoop fuel' visited rest
      else
        match sideScan curr (ropesAt curr) rest with
        | inl side => Some side
        | inr q' => sideLoop fuel' ({[curr]} ∪ visited) q'
        end
    end
  end.

(** only the start id and ids of loads enter the queue, each is
    expanded once, and an expansion enqueues at most one id per rope *)
Definition sideFuel : nat :=
  (1 + length (ropeSegments state) * (1 + length (loads state)))%nat.

Definition getSide (startLoadId : string) : Q :=
  match sideLoop sideFuel ∅ [startLoadId] with
  | Some side => side
  | None => 0
  end.

Definition connectedLoads : list Load.LoadObject :=
  List.filter
    (fun l =>
       existsb (fun r => String.eqb (Rope.fromId r) (Load.id l)
                         || String.eqb (Rope.toId r) (Load.id l))
               (ropeSegments state))
    (loads state).

Definition loadGroupA : list Load.LoadObject :=
  if Nat.ltb 0 (length movableIds)
  then findConnectedLoads isFixedOrAnchor movableIds
  else
    List.filter
      (fun l => let side := getSide (Load.id l) in
                Num.eqb side (-1) || Num.eqb side 0)
      connectedLoads.

Definition loadGroupB : list Load.LoadObject :=
  if Nat.ltb 0 (length movableIds)
  then
    let groupAIds := map Load.id loadGroupA in
    let allFixedPointIds := fixedIds ++ anchorIds in
    let loadsConnectedToFixed :=
      findConnectedLoads isMovable allFixedPointIds in
    List.filter (fun l => negb (includes groupAIds (Load.id l)))
                loadsConnectedToFixed
  else
    List.filter
      (fun l => let side := getSide (Load.id l) in
                negb (Num.eqb side (-1) || Num.eqb side 0)
                && Num.eqb side 1)
      connectedLoads.

End Topology.

(** *** 2. System forces and acceleration *)

Section Forces.

Variable state : SandboxState.
Variable mode : RealityMode.

Definition floorY : Q := 550.

Definition pulleyWeight : Q :=
  match mode with IDEAL => 0 | REAL => 1 # 10 end.

Definition MassLoad : Q :=
  sumOf Load.mass (loadGroupA state)
  + len (movablePulleys state) * pulleyWeight.

Definition MassCounter : Q := sumOf Load.mass (loadGroupB state).

Definition estimatedMA : Q :=
  if Nat.ltb 0 (length (movablePulleys state))
  then 2 * len (movablePulleys state) else 1.

Definition ForcePull : Q :=
  if Num.gtb MassCounter 0 then MassCounter * GRAVITY
  else
    if Nat.eqb (length (loadGroupB state)) 0
    then effortForce state else 0.

Definition MassPullInertia : Q :=
  if Num.gtb MassCounter 0 then MassCounter else 0.

Definition ForceLoad : Q := MassLoad * GRAVITY.
Definition totalWeight : Q := ForceLoad + ForcePull.
Definition numPulleys : Q :=
  len (fixedPulleys state) + len (movablePulleys state).

Definition frictionForce : Q :=
  if Num.gtb (friction state) 0
  then friction state * totalWeight * FRICTION_SCALE
       * Num.or_default numPulleys 1
  else 0.

(** [ForcePull - (ForceLoad / estimatedMA)], the initial [NetForce]
    and the later [staticDriveForce] *)
Definition staticDriveForce : Q := ForcePull - ForceLoad / estimatedMA.

(** the flag [isBalanced] of the centering block *)
Definition isBalanced : bool :=
  Num.gtb MassCounter 0
  && (Nat.ltb 0 (length (loadGroupA state))
      || Nat.ltb 0 (length (movablePulleys state)))
  && Num.ltb (Num.abs staticDriveForce) (1 # 10).

Definition avgY_A : Q :=
  if Nat.ltb 0 (length (loadGroupA state))
  then sumOf Load.y (loadGroupA state) / len (loadGroupA state)
  else
    if Nat.ltb 0 (length (movablePulleys state))
    then sumOf Pul.y (movablePulleys state) / len (movablePulleys state)
    else 0.

Definition avgY_B : Q :=
  if Nat.ltb 0 (length (loadGroupB state))
  then sumOf Load.y (loadGroupB state) / len (loadGroupB state)
  else 0.

(** [NetForce] after the centering block *)
Definition NetForceCentered : Q :=
  if isBalanced && Num.gtb avgY_A 0 && Num.gtb avgY_B 0
  then staticDriveForce + (avgY_A - avgY_B) * (1 # 10)
  else staticDriveForce.

(** [NetForce] after the friction block *)
Definition NetForceFriction : Q :=
  if Num.gtb (Num.abs (loadVelocity state)) (1 # 100)
  then NetForceCentered - Num.sign (loadVelocity state) * frictionForce
  else
    if Num.ltb (Num.abs NetForceCentered) frictionForce
    then 0
    else NetForceCentered - Num.sign NetForceCentered * frictionForce.

(** [NetForce] after the air-resistance block *)
Definition NetForce : Q :=
  if is_real mode && Num.gtb (Num.abs (loadVelocity state)) (1 # 100)
  then
    let dragMagnitude :=
      (airResistance state * AIR_RESISTANCE_SCALE * 2)
      * (loadVelocity state * loadVelocity state) in
    let dragForce := Num.sign (loadVelocity state) * dragMagnitude in
    NetForceFriction - dragForce
  else NetForceFriction.

Definition EffectiveMass : Q :=
  MassPullInertia + MassLoad / (estimatedMA * estimatedMA) + 1.

(** [acceleration] as it stands before the velocity block *)
Definition acceleration0 : Q :=
  if isBroken state then 0 else NetForce / EffectiveMass.

(** *** 3. System velocity *)

Variable dt : Q.

(** [newRopeVelocity] after the balanced-state damping *)
Definition velocityDamped : Q :=
  let v := (loadVelocity state + acceleration0 * dt) * 1 in
  if isBalanced then v * (95 # 100) else v.

Definition stiction : bool :=
  Num.gtb (Num.abs (loadVelocity state)) (1 # 100)
  && negb (Num.eqb (Num.sign velocityDamped)
                   (Num.sign (loadVelocity state)))
  && Num.leb (Num.abs staticDriveForce) frictionForce.

(** [newRopeVelocity] after the two [if]s that cap it at 50 *)
Definition velocityCapped : Q :=
  let v := if stiction then 0 else velocityDamped in
  let v := if Num.gtb v 50 then 50 else v in
  if Num.ltb v (-50) then -50 else v.

(** [acceleration] after the stiction check *)
Definition acceleration1 : Q := if stiction then 0 else acceleration0.

(** [deltaRope] before the boundary checks *)
Definition deltaRope0 : Q := velocityCapped * dt * METERS_TO_PIXELS.

(** *** 4. Boundary checks *)

(** [Math.max(...arr)] of a non-empty array *)
Definition maxOf (l : list Q) : Q :=
  match l with
  | [] => 0
  | a :: l' => fold_left Num.max l' a
  end.

Definition ceilingY : Q :=
  if Nat.ltb 0 (length (fixedPulleys state))
  then
    maxOf (map (fun p => Pul.y p + Pul.radius p) (fixedPulleys state)) + 5
  else 50.

Definition dispA : Q := - (deltaRope0 / estimatedMA).
Definition dispB : Q := deltaRope0.

(** the two tests of a loop body on the next position of one item *)
Definition crosses (disp itemY : Q) : bool :=
  let nextY := itemY + disp in
  (Num.ltb disp 0 && Num.ltb nextY ceilingY)
  || (Num.gtb disp 0 && Num.gtb nextY floorY).

(** [itemsA = [...loadGroupA, ...state.movablePulleys]], by its [y]s *)
Definition itemsA : list Q :=
  map Load.y (loadGroupA state) ++ map Pul.y (movablePulleys state).

Definition boundaryHit : bool :=
  negb (isBroken state)
  && (existsb (crosses dispA) itemsA
      || existsb (crosses dispB) (map Load.y (loadGroupB state))).

Definition newRopeVelocity : Q :=
  if boundaryHit then 0 else velocityCapped.
Definition deltaRope : Q := if boundaryHit then 0 else deltaRope0.
Definition acceleration2 : Q := if boundaryHit then 0 else acceleration1.

(** *** 5. Breakage check *)

Definition totalEstimatedTension : Q :=
  let staticTension := ForceLoad / estimatedMA in
  let dynamicTension := MassLoad * Num.abs acceleration2 in
  let frictionPenalty := frictionForce in
  staticTension + dynamicTension + frictionPenalty * (5 # 10).

Definition isBroken' : bool :=
  if is_real mode && negb (isBroken state)
  then
    if Num.gtb totalEstimatedTension (ropeMaxTension state)
       || Num.gtb ForcePull (ropeMaxTension state)
    then true else isBroken state
  else isBroken state.

Definition finalDispA : Q :=
  if boundaryHit || isBroken' then 0 else - (deltaRope / estimatedMA).
Definition finalDispB : Q :=
  if boundaryHit || isBroken' then 0 else deltaRope.

Definition clamp (val : Q) : Q := Num.max ceilingY (Num.min floorY val).

End Forces.

(** *** 6. and 7. Per-object resolution, and the step *)

Section Objects.

(** [Math.sqrt], which has no counterpart on [Q]: the step is
    parametric in it *)
Variable sqrt : Q -> Q.

Variable state : SandboxState.
Variable dt : Q.
Variable mode : RealityMode.

(** [side || 0] on an optional number *)
Definition sideOr0 (side : option Q) : Q :=
  match side with
  | Some sd => Num.or_default sd 0
  | None => 0
  end.

(** [p.vx || 0] *)
Definition vxOr0 (p : Pul.Pulley) : Q := sideOr0 (Pul.vx p).

Definition findPulley (ps : list Pul.Pulley) (i : string)
  : option Pul.Pulley :=
  find (fun p => String.eqb (Pul.id p) i) ps.

Definition findAnchor (i : string) : option Anc.Anchor :=
  find (fun a => String.eqb (Anc.id a) i) (anchors state).

(** the three assignments of one rope at a movable pulley:
    [(otherId, mySide, otherSide)] *)
Definition ropeEnd (p : Pul.Pulley) (r : Rope.RopeSegment)
  : option string * Q * Q :=
  if String.eqb (Rope.fromId r) (Pul.id p)
  then (Some (Rope.toId r),
        sideOr0 (Rope.fromSide r), sideOr0 (Rope.toSide r))
  else
    if String.eqb (Rope.toId r) (Pul.id p)
    then (Some (Rope.fromId r),
          sideOr0 (Rope.toSide r), sideOr0 (Rope.fromSide r))
    else (None, 0, 0).

(** [if (otherId)]: a string is truthy when it is not empty *)
Definition truthyId (o : option string) : option string :=
  match o with
  | Some i => if String.eqb i EmptyString then None else Some i
  | None => None
  end.

(** one call of the [forEach] callback that accumulates
    [(sumTargetX, count)] *)
Definition support (p : Pul.Pulley) (acc : Q * nat)
           (r : Rope.RopeSegment) : Q * nat :=
  let '(otherId, mySide, otherSide) := ropeEnd p r in
  match truthyId otherId with
  | None => acc
  | Some oid =>
    let otherFixed := findPulley (fixedPulleys state) oid in
    let otherAnchor := findAnchor oid in
    let otherMovable := findPulley (movablePulleys state) oid in
    let otherY :=
      match otherFixed, otherAnchor, otherMovable with
      | Some f, _, _ => Pul.y f
      | None, Some a, _ => Anc.y a
      | None, None, Some m => Pul.y m
      | None, None, None => 9999
      end in
    if Num.ltb otherY (Pul.y p)
    then
      let anchorX :=
        match otherFixed, otherAnchor, otherMovable with
        | Some f, _, _ =>
          Pul.x f + otherSide * Num.or_default (Pul.radius f) 25
        | None, Some a, _ => Anc.x a
        | None, None, Some m =>
          Pul.x m + otherSide * Num.or_default (Pul.radius m) 25
        | None, None, None => 0
        end in
      let targetCenter :=
        anchorX - mySide * Num.or_default (Pul.radius p) 25 in
      (acc.1 + targetCenter, S acc.2)
    else acc
  end.

Definition updatePulley (p : Pul.Pulley) : Pul.Pulley :=
  let broken := isBroken' state mode dt in
  let nextY :=
    if broken then Num.min floorY (Pul.y p + 100 * dt)
    else clamp state (Pul.y p + finalDispA state mode dt) in
  let '(sumTargetX, count) :=
    fold_left (support p) (ropeSegments state) (0, O) in
  if Nat.ltb 0 count && negb broken
  then
    let targetX := sumTargetX / inject_Z (Z.of_nat count) in
    let dx := targetX - Pul.x p in
    let k := 12 # 10 in
    let forceX := k * dx in
    let nextVx := (vxOr0 p + forceX * dt) * (95 # 100) in
    let nextX := Pul.x p + nextVx * dt * 5 in
    Pul.mk (Pul.id p) nextX nextY (Pul.radius p) (Some nextVx)
  else
    let nextVx := vxOr0 p * (98 # 100) in
    let nextX := Pul.x p + nextVx * dt in
    Pul.mk (Pul.id p) nextX nextY (Pul.radius p) (Some nextVx).

Definition updatedMovablePulleys : list Pul.Pulley :=
  map updatePulley (movablePulleys state).

(** [state.ropeSegments.find(r => r.fromId === load.id || r.toId === load.id)] *)
Definition connectedRope (load : Load.LoadObject)
  : option Rope.RopeSegment :=
  find (fun r => String.eqb (Rope.fromId r) (Load.id load)
                 || String.eqb (Rope.toId r) (Load.id load))
       (ropeSegments state).

(** the free-fall branch of the loads update *)
Definition freeFall (load : Load.LoadObject) : Load.LoadObject :=
  let vy := Num.or_default (Load.vy load) 0 + GRAVITY * dt * 5 in
  let vy := if is_real mode then vy * (99 # 100) else vy in
  let newY := Load.y load + vy * dt * METERS_TO_PIXELS in
  if Num.geb newY floorY
  then
    let vy := - vy * (3 # 10) in
    let vy := if Num.ltb (Num.abs vy) (5 # 10) then 0 else vy in
    let newVx := Load.vx load * (9 # 10) in
    let newVx := if Num.ltb (Num.abs newVx) (1 # 10) then 0 else newVx in
    Load.mk (Load.id load) (Load.mass load) (Load.color load)
            (Load.x load + newVx * dt) floorY newVx vy
  else
    Load.mk (Load.id load) (Load.mass load) (Load.color load)
            (Load.x load + Load.vx load * dt) newY (Load.vx load) vy.

(** the pivot of the pendulum: the tangent departure point at the
    other end of the load's rope *)
Definition pivotPoint (load : Load.LoadObject) (r : Rope.RopeSegment)
  : option (Q * Q) :=
  let otherId :=
    if String.eqb (Rope.fromId r) (Load.id load)
    then Rope.toId r else Rope.fromId r in
  let otherFixed := findPulley (fixedPulleys state) otherId in
  let otherMovable := findPulley updatedMovablePulleys otherId in
  let otherAnchor := findAnchor otherId in
  let ropeSideAtPulley :=
    if String.eqb (Rope.fromId r) otherId
    then sideOr0 (Rope.fromSide r) else sideOr0 (Rope.toSide r) in
  match otherFixed, otherMovable, otherAnchor with
  | Some f, _, _ =>
    Some (Pul.x f + ropeSideAtPulley * Pul.radius f, Pul.y f)
  | None, Some m, _ =>
    Some (Pul.x m + ropeSideAtPulley * Pul.radius m, Pul.y m)
  | None, None, Some a => Some (Anc.x a, Anc.y a)
  | None, None, None => None
  end.

(** the rope-driven branch of the loads update *)
Definition swing (load : Load.LoadObject) (r : Rope.RopeSegment)
  : Load.LoadObject :=
  let systemDispY :=
    if existsb (fun l => String.eqb (Load.id l) (Load.id load))
               (loadGroupA state)
    then finalDispA state mode dt
    else
      if existsb (fun l => String.eqb (Load.id l) (Load.id load))
                 (loadGroupB state)
      then finalDispB state mode dt
      else 0 in
  let newY := clamp state (Load.y load + systemDispY) in
  let newVx :=
    match pivotPoint load r with
    | Some (px, py) =>
      if Num.gtb newY py
      then
        let dx := Load.x load - px in
        let dy := Load.y load - py in
        let length := sqrt (dx * dx + dy * dy) in
        if Num.gtb length 0
        then
          let restoringAccelX := - (GRAVITY * (25 # 10)) * (dx / length) in
          (Load.vx load + restoringAccelX * dt) * (98 # 100)
        else Load.vx load
      else Load.vx load * (90 # 100)
    | None => Load.vx load * (90 # 100)
    end in
  let newX := Load.x load + newVx * dt * METERS_TO_PIXELS in
  Load.mk (Load.id load) (Load.mass load) (Load.color load)
          newX newY newVx 0.

Definition updateLoad (load : Load.LoadObject) : Load.LoadObject :=
  match connectedRope load with
  | Some r =>
    if negb (isBroken' state mode dt) then swing load r
    else freeFall load
  | None => freeFall load
  end.

Definition updatedLoads : list Load.LoadObject :=
  map updateLoad (loads state).

Definition updateSandboxPhysics : SandboxState :=
  if isDragging state then state
  else
    let broken := isBroken' state mode dt in
    {| fixedPulleys := fixedPulleys state;
       movablePulleys := updatedMovablePulleys;
       loads := updatedLoads;
       anchors := anchors state;
       effortForce := effortForce state;
       friction := friction state;
       ropeMaxTension := ropeMaxTension state;
       airResistance := airResistance state;
       isBroken := broken;
       interactionMode := interactionMode state;
       ropeSegments := ropeSegments state;
       ropeBuilderState := ropeBuilderState state;
       ropeConnectionStartId := ropeConnectionStartId state;
       loadPosition :=
         loadPosition state
         + (if broken then 0 else newRopeVelocity state mode dt * dt);
       loadVelocity :=
         if broken then 0 else newRopeVelocity state mode dt;
       isDragging := isDragging state;
       selectedId := selectedId state |}.

End Objects.

End Sandbox.

(** ** Sequences of ticks *)


(** the state after a sequence of ticks *)
Definition runAtwood (s : AtwoodState) (ticks : list (Q * RealityMode))
  : AtwoodState :=
  fold_left (fun st t => Atwood.updateAtwoodPhysics st t.1 t.2) ticks s.

Definition runSandbox (sqrt : Q -> Q) (s : Sandbox.SandboxState)
           (ticks : list (Q * RealityMode)) : Sandbox.SandboxState :=
  fold_left (fun st t => Sandbox.updateSandboxPhysics sqrt st t.1 t.2)
            ticks s.

(** [y1] within the two position limits of the rope of [s] *)
Definition withinLimits (s : AtwoodState) : Prop :=
  2 # 10 <= y1 s <= totalRopeLength s - (2 # 10).

(** the relation between the tensions and the acceleration of a state *)
Definition tensionIdentity (s : AtwoodState) : Prop :=
  tension1 s - tension2 s
  == (mass1 s - mass2 s) * GRAVITY + (mass1 s + mass2 s) * acceleration s.

(** ** The rope graph *)

Module Graph.

Section Graph.

Variable state : Sandbox.SandboxState.

(** every id that is an end of a rope segment *)
Definition endpoints : gset string :=
  list_to_set
    (flat_map (fun r => [Rope.fromId r; Rope.toId r])
              (Sandbox.ropeSegments state)).

(** the ids that the walk of [getSide] from [start] can expand *)
Definition candidates (start : string) : gset string :=
  {[start]} ∪ list_to_set (map Load.id (Sandbox.loads state)).

(** [r] joins [a] and [b], in either direction *)
Definition joins (r : Rope.RopeSegment) (a b : string) : Prop :=
  (Rope.fromId r = a /\ Rope.toId r = b)
  \/ (Rope.toId r = a /\ Rope.fromId r = b).

(** [b] can be reached from [a] along rope segments *)
Inductive linked (a : string) : string -> Prop :=
| linked_here : linked a a
| linked_next b c r :
    linked a b -> In r (Sandbox.ropeSegments state) -> joins r b c ->
    linked a c.

(** some rope segment has [i] as one of its ends *)
Definition roped (i : string) : Prop :=
  exists r, In r (Sandbox.ropeSegments state)
            /\ (Rope.fromId r = i \/ Rope.toId r = i).

(** the end of [r] that is not [curr], as [getSide] picks it *)
Definition otherEnd (curr : string) (r : Rope.RopeSegment) : string :=
  if String.eqb (Rope.fromId r) curr
  then Rope.toId r else Rope.fromId r.

(** [i] is the id of a load *)
Definition isLoadId (i : string) : bool :=
  existsb (fun l => String.eqb (Load.id l) i) (Sandbox.loads state).

(** the tangent side recorded on [r] at its end [other], [-1] when
    none is recorded *)
Definition sideAt (r : Rope.RopeSegment) (other : string) : Q :=
  match (if String.eqb (Rope.toId r) other
         then Rope.toSide r else Rope.fromSide r) with
  | Some sd => sd
  | None => -1
  end.

(** the first rope at [c], in the order of [ropeSegments], whose other
    end is a fixed pulley: the rope on which the walk of [getSide]
    returns when it expands [c] *)
Definition fixedRope (c : string) : option Rope.RopeSegment :=
  find (fun r => Sandbox.includes (Sandbox.fixedIds state) (otherEnd c r))
       (Sandbox.ropesAt state c).

(** the ids that a scan of [ropes] from [c] pushes when it runs to its
    end: the other ends that are ids of loads, in rope order *)
Definition loadNeighbours (c : string) (ropes : list Rope.RopeSegment)
  : list string :=
  map (otherEnd c)
      (List.filter (fun r => isLoadId (otherEnd c r)) ropes).

(** [c] is at most [n] hops away from [start], every hop going along a
    rope segment to the id of a load *)
Inductive within (start : string) : nat -> string -> Prop :=
| within_start n : within start n start
| within_hop n b r :
    within start n b -> In r (Sandbox.ropesAt state b) ->
    isLoadId (otherEnd b r) = true ->
    within start (S n) (otherEnd b r).

(** the state of the walk of [getSide] from [start], its queue read as
    the rest [qa] of the ids at most [k] hops away followed by ids [qb]
    at most [k + 1] hops away *)
Record walkInvariant (start : string) (k : nat) (visited : gset string)
       (qa qb : list string) : Prop := {
  wi_visited :
    forall v, v ∈ visited -> within start k v /\ fixedRope v = None;
  wi_now : forall i, In i qa -> within start k i;
  wi_next : forall i, In i qb -> within start (S k) i;
  wi_level : forall c, within start k c -> c ∈ visited \/ In c qa;
  wi_closed :
    forall v r, v ∈ visited -> In r (Sandbox.ropesAt state v) ->
                isLoadId (otherEnd v r) = true ->
                otherEnd v r ∈ visited \/ In (otherEnd v r) (qa ++ qb);
  wi_below : forall m c, (m < k)%nat -> within start m c -> c ∈ visited
}.

(** what is left to do in [findConnectedLoads]: the queue, and the
    rope ends not yet visited *)
Definition bfsMeasure (st : gset string * list string) : nat :=
  (length st.2 + size (endpoints ∖ st.1))%nat.

(** what is left to do in [getSide]: the queue, and one expansion,
    of at most one push per rope, for every unvisited candidate *)
Definition sideMeasure (start : string) (visited : gset string)
           (q : list string) : nat :=
  (length q
   + length (Sandbox.ropeSegments state)
     * size (candidates start ∖ visited))%nat.

End Graph.

End Graph.

(** ** The steps with their outcomes

    The definitions above are total functions.  What the engine can do
    besides returning is made explicit here.  A [while] loop may go on:
    each loop is given a budget of iterations, and [OutOfFuel] is the
    outcome of a step one of whose loops uses its budget up.  A call with
    spread arguments, [Math.max(...array)], passes one argument per
    element: an engine refuses the call with a [RangeError] when the array
    is longer than the number of arguments it accepts in one call.
    Nothing else in the two steps can fail: every property is read on a
    value that was tested first ([if (otherFixed)], [?.]) or that a
    non-empty queue or the state provides. *)

Module Run.

Inductive Outcome (A : Type) : Type :=
| Returned (a : A)
| RangeError
| OutOfFuel.

Arguments Returned {A} a.
Arguments RangeError {A}.
Arguments OutOfFuel {A}.

(** [updateAtwoodPhysics] has no loop and no call with spread arguments:
    every path through it ends in a [return] *)
Definition updateAtwoodPhysics (s : AtwoodState) (dt : Q)
           (mode : RealityMode) : Outcome AtwoodState :=
  Returned (Atwood.updateAtwoodPhysics s dt mode).

Section Run.

(** the most arguments the engine accepts in one call *)
Variable argLimit : nat.

(** the iterations allowed to each [while] loop *)
Variable fuel : nat.

(** [Math.max(...xs)] *)
Definition spreadMax (xs : list Q) : Outcome Q :=
  if Nat.ltb argLimit (length xs) then RangeError
  else Returned (Sandbox.maxOf xs).

Variable state : Sandbox.SandboxState.

(** [findConnectedLoads(startIds, boundaryCheck)] *)
Definition findConnectedLoads (boundaryCheck : string -> bool)
           (startIds : list string) : option (list Load.LoadObject) :=
  Sandbox.bfsLoop state boundaryCheck fuel [] (list_to_set startIds)
                  startIds.

(** [getSide(startLoadId)] *)
Definition getSide (startLoadId : string) : option Q :=
  Sandbox.sideLoop state fuel ∅ [startLoadId].

(** one call of the callback of [connectedLoads.forEach] *)
Definition place
           (groups : option (list Load.LoadObject * list Load.LoadObject))
           (l : Load.LoadObject)
  : option (list Load.LoadObject * list Load.LoadObject) :=
  match groups with
  | None => None
  | Some (loadGroupA, loadGroupB) =>
    match getSide (Load.id l) with
    | None => None
    | Some side =>
      if Num.eqb side (-1) || Num.eqb side 0
      then Some (loadGroupA ++ [l], loadGroupB)
      else if Num.eqb side 1
           then Some (loadGroupA, loadGroupB ++ [l])
           else Some (loadGroupA, loadGroupB)
    end
  end.

(** the topology analysis: [loadGroupA] and [loadGroupB] *)
Definition groups
  : option (list Load.LoadObject * list Load.LoadObject) :=
  if Nat.ltb 0 (length (Sandbox.movableIds state))
  then
    match findConnectedLoads (Sandbox.isFixedOrAnchor state)
                             (Sandbox.movableIds state) with
    | None => None
    | Some loadGroupA =>
      let groupAIds := map Load.id loadGroupA in
      let allFixedPointIds :=
        Sandbox.fixedIds state ++ Sandbox.anchorIds state in
      match findConnectedLoads (Sandbox.isMovable state) allFixedPointIds
      with
      | None => None
      | Some loadsConnectedToFixed =>
        Some (loadGroupA,
              List.filter
                (fun l => negb (Sandbox.includes groupAIds (Load.id l)))
                loadsConnectedToFixed)
      end
    end
  else fold_left place (Sandbox.connectedLoads state) (Some ([], [])).

(** [dynamicCeilingY] *)
Definition ceilingY : Outcome Q :=
  if Nat.ltb 0 (length (Sandbox.fixedPulleys state))
  then
    match spreadMax (map (fun p => Pul.y p + Pul.radius p)
                         (Sandbox.fixedPulleys state)) with
    | Returned lowestPulleyEdge => Returned (lowestPulleyEdge + 5)
    | RangeError => RangeError
    | OutOfFuel => OutOfFuel
    end
  else Returned 50.

(** [updateSandboxPhysics]: the guard, then the topology analysis with
    its loops, then the ceiling with its spread call; the rest of the
    step is arithmetic and array methods that return *)
Definition updateSandboxPhysics (sqrt : Q -> Q) (dt : Q)
           (mode : RealityMode) : Outcome Sandbox.SandboxState :=
  if Sandbox.isDragging state then Returned state
  else
    match groups with
    | None => OutOfFuel
    | Some _ =>
      match ceilingY with
      | Returned _ =>
        Returned (Sandbox.updateSandboxPhysics sqrt state dt mode)
      | RangeError => RangeError
      | OutOfFuel => OutOfFuel
      end
    end.

End Run.

(** a budget that no loop of the step on [state] uses up *)
Definition stepFuel (state : Sandbox.SandboxState) : nat :=
  Nat.max (Sandbox.bfsFuel state (Sandbox.movableIds state))
          (Nat.max (Sandbox.bfsFuel
                      state
                      (Sandbox.fixedIds state ++ Sandbox.anchorIds state))
                   (Sandbox.sideFuel state)).

End Run.

(** ** Concrete states *)

Module Examples.

(** [INITIAL_ATWOOD] of [App.tsx] *)
Definition INITIAL_ATWOOD : AtwoodState :=
  {| mass1 := 2; mass2 := 3; pulleyMass := 1; pulleyRadius := 2 # 10;
     frictionCoeff := 0; totalRopeLength := 5;
     initialY1 := 2; initialY2 := 3;
     ropeMaxTension := 50; airResistance := 1 # 10; isBroken := false;
     y1 := 2; y2 := 3; velocity := 0; angularVelocity := 0;
     acceleration := 0; tension1 := 0; tension2 := 0; time := 0 |}.

(** the initial machine with mass 1 close to the pulley and rising *)
Definition nearTop : AtwoodState :=
  {| mass1 := 2; mass2 := 3; pulleyMass := 1; pulleyRadius := 2 # 10;
     frictionCoeff := 0; totalRopeLength := 5;
     initialY1 := 2; initialY2 := 3;
     ropeMaxTension := 50; airResistance := 1 # 10; isBroken := false;
     y1 := 21 # 100; y2 := 479 # 100; velocity := 1;
     angularVelocity := 5; acceleration := 0;
     tension1 := 0; tension2 := 0; time := 0 |}.

(** two ticks from [nearTop]; the second one reaches the upper limit *)
Definition risingTicks : list (Q * RealityMode) :=
  [(5 # 1000, IDEAL); (16 # 1000, IDEAL)].

Definition someTicks : list (Q * RealityMode) :=
  [(16 # 1000, REAL); (0, IDEAL); (33 # 1000, REAL)].

(** a machine whose rope has snapped *)
Definition snapped : AtwoodState :=
  {| mass1 := 2; mass2 := 3; pulleyMass := 1; pulleyRadius := 2 # 10;
     frictionCoeff := 0; totalRopeLength := 5;
     initialY1 := 2; initialY2 := 3;
     ropeMaxTension := 20; airResistance := 1 # 10; isBroken := true;
     y1 := 2; y2 := 3; velocity := 1; angularVelocity := 5;
     acceleration := 2; tension1 := 23; tension2 := 24; time := 1 |}.

(** the preset [movable] of the controls: a load of 10 on a movable
    pulley, a counterweight of 6 over a fixed pulley (centre x = 400) *)
Definition loadLift : Load.LoadObject :=
  Load.mk "load-lift" 10 "#ef4444" 400 400 0 0.
Definition loadPull : Load.LoadObject :=
  Load.mk "load-pull" 6 "#3b82f6" (47875 # 100) 300 0 0.

Definition presetRopes : list Rope.RopeSegment :=
  [ Rope.mk "r1" "anchor-1" "movable-1" Rope.pulley (Some 0) (Some (-1));
    Rope.mk "r2" "movable-1" "fixed-1" Rope.pulley (Some 1) (Some (-1));
    Rope.mk "r3" "fixed-1" "load-pull" Rope.pulley (Some 1) (Some 0);
    Rope.mk "r4" "movable-1" "load-lift" Rope.direct (Some 0) (Some 0) ].

Definition presetMovable : Sandbox.SandboxState :=
  {| Sandbox.fixedPulleys := [Pul.mk "fixed-1" (4525 # 10) 50 25 None];
     Sandbox.movablePulleys := [Pul.mk "movable-1" 400 300 25 None];
     Sandbox.loads := [loadLift; loadPull];
     Sandbox.anchors := [Anc.mk "anchor-1" (3475 # 10) 50];
     Sandbox.effortForce := 0;
     Sandbox.friction := 0;
     Sandbox.ropeMaxTension := 120;
     Sandbox.airResistance := 1 # 10;
     Sandbox.isBroken := false;
     Sandbox.interactionMode := select;
     Sandbox.ropeSegments := presetRopes;
     Sandbox.ropeBuilderState := mkBuilder idle None None;
     Sandbox.ropeConnectionStartId := None;
     Sandbox.loadPosition := 80;
     Sandbox.loadVelocity := 0;
     Sandbox.isDragging := false;
     Sandbox.selectedId := None |}.

(** the same rig pulled by hand: the counterweight and its rope are
    removed and an effort of 50 is applied *)
Definition handPulled : Sandbox.SandboxState :=
  {| Sandbox.fixedPulleys := [Pul.mk "fixed-1" (4525 # 10) 50 25 None];
     Sandbox.movablePulleys := [Pul.mk "movable-1" 400 300 25 None];
     Sandbox.loads := [loadLift];
     Sandbox.anchors := [Anc.mk "anchor-1" (3475 # 10) 50];
     Sandbox.effortForce := 50;
     Sandbox.friction := 0;
     Sandbox.ropeMaxTension := 120;
     Sandbox.airResistance := 1 # 10;
     Sandbox.isBroken := false;
     Sandbox.interactionMode := select;
     Sandbox.ropeSegments :=
       [ Rope.mk "r1" "anchor-1" "movable-1" Rope.pulley
                 (Some 0) (Some (-1));
         Rope.mk "r2" "movable-1" "fixed-1" Rope.pulley
                 (Some 1) (Some (-1));
         Rope.mk "r4" "movable-1" "load-lift" Rope.direct
                 (Some 0) (Some 0) ];
     Sandbox.ropeBuilderState := mkBuilder idle None None;
     Sandbox.ropeConnectionStartId := None;
     Sandbox.loadPosition := 80;
     Sandbox.loadVelocity := 0;
     Sandbox.isDragging := false;
     Sandbox.selectedId := None |}.

(** a sandbox of [fixed], [loads] and [ropes] alone, at rest *)
Definition rig (fixed : list Pul.Pulley) (loads : list Load.LoadObject)
           (ropes : list Rope.RopeSegment) : Sandbox.SandboxState :=
  {| Sandbox.fixedPulleys := fixed;
     Sandbox.movablePulleys := [];
     Sandbox.loads := loads;
     Sandbox.anchors := [];
     Sandbox.effortForce := 50;
     Sandbox.friction := 0;
     Sandbox.ropeMaxTension := 120;
     Sandbox.airResistance := 1 # 10;
     Sandbox.isBroken := false;
     Sandbox.interactionMode := select;
     Sandbox.ropeSegments := ropes;
     Sandbox.ropeBuilderState := mkBuilder idle None None;
     Sandbox.ropeConnectionStartId := None;
     Sandbox.loadPosition := 80;
     Sandbox.loadVelocity := 0;
     Sandbox.isDragging := false;
     Sandbox.selectedId := None |}.

(** [s] while the user drags: [{ ...s, isDragging: true }] *)
Definition grabbed (s : Sandbox.SandboxState) : Sandbox.SandboxState :=
  {| Sandbox.fixedPulleys := Sandbox.fixedPulleys s;
     Sandbox.movablePulleys := Sandbox.movablePulleys s;
     Sandbox.loads := Sandbox.loads s;
     Sandbox.anchors := Sandbox.anchors s;
     Sandbox.effortForce := Sandbox.effortForce s;
     Sandbox.friction := Sandbox.friction s;
     Sandbox.ropeMaxTension := Sandbox.ropeMaxTension s;
     Sandbox.airResistance := Sandbox.airResistance s;
     Sandbox.isBroken := Sandbox.isBroken s;
     Sandbox.interactionMode := Sandbox.interactionMode s;
     Sandbox.ropeSegments := Sandbox.ropeSegments s;
     Sandbox.ropeBuilderState := Sandbox.ropeBuilderState s;
     Sandbox.ropeConnectionStartId := Sandbox.ropeConnectionStartId s;
     Sandbox.loadPosition := Sandbox.loadPosition s;
     Sandbox.loadVelocity := Sandbox.loadVelocity s;
     Sandbox.isDragging := true;
     Sandbox.selectedId := Sandbox.selectedId s |}.

(** [s] once its rope has snapped *)
Definition torn (s : Sandbox.SandboxState) : Sandbox.SandboxState :=
  {| Sandbox.fixedPulleys := Sandbox.fixedPulleys s;
     Sandbox.movablePulleys := Sandbox.movablePulleys s;
     Sandbox.loads := Sandbox.loads s;
     Sandbox.anchors := Sandbox.anchors s;
     Sandbox.effortForce := Sandbox.effortForce s;
     Sandbox.friction := Sandbox.friction s;
     Sandbox.ropeMaxTension := Sandbox.ropeMaxTension s;
     Sandbox.airResistance := Sandbox.airResistance s;
     Sandbox.isBroken := true;
     Sandbox.interactionMode := Sandbox.interactionMode s;
     Sandbox.ropeSegments := Sandbox.ropeSegments s;
     Sandbox.ropeBuilderState := Sandbox.ropeBuilderState s;
     Sandbox.ropeConnectionStartId := Sandbox.ropeConnectionStartId s;
     Sandbox.loadPosition := Sandbox.loadPosition s;
     Sandbox.loadVelocity := 0;
     Sandbox.isDragging := Sandbox.isDragging s;
     Sandbox.selectedId := Sandbox.selectedId s |}.

Definition crate1 : Load.LoadObject :=
  Load.mk "load-1" 5 "#ef4444" 300 300 0 0.
Definition crate2 : Load.LoadObject :=
  Load.mk "load-2" 5 "#3b82f6" 500 300 0 0.
Definition crate3 : Load.LoadObject :=
  Load.mk "load-3" 5 "#22c55e" 600 500 0 0.

(** two loads tied to each other, and nothing else *)
Definition tiedPair : Sandbox.SandboxState :=
  rig [] [crate1; crate2]
      [Rope.mk "r1" "load-1" "load-2" Rope.direct None None].

(** two loads over one fixed pulley, and a third load left alone *)
Definition overPulley : Sandbox.SandboxState :=
  rig [Pul.mk "fixed-1" 400 100 25 None] [crate1; crate2; crate3]
      [ Rope.mk "r1" "load-1" "fixed-1" Rope.pulley (Some 0) (Some (-1));
        Rope.mk "r2" "fixed-1" "load-2" Rope.pulley (Some 1) (Some 0) ].

End Examples.

(** ** [App.tsx]: reset and sandbox authoring *)

Module App.

(** the updater of [handleReset] on the Atwood machine *)
Definition handleReset (prev : AtwoodState) : AtwoodState :=
  {| mass1 := mass1 prev; mass2 := mass2 prev;
     pulleyMass := pulleyMass prev; pulleyRadius := pulleyRadius prev;
     frictionCoeff := frictionCoeff prev;
     totalRopeLength := totalRopeLength prev;
     initialY1 := initialY1 prev; initialY2 := initialY2 prev;
     ropeMaxTension := ropeMaxTension prev;
     airResistance := airResistance prev;
     isBroken := false;
     y1 := initialY1 prev; y2 := initialY2 prev;
     velocity := 0; angularVelocity := 0; acceleration := 0;
     tension1 := 0; tension2 := 0; time := 0 |}.

Import Sandbox.

(** [{ ...prev, ropeSegments, ropeBuilderState, ropeConnectionStartId }] *)
Definition authoring (prev : SandboxState)
           (ropes : list Rope.RopeSegment) (builder : RopeBuilderState)
           (startId : option string) : SandboxState :=
  {| fixedPulleys := fixedPulleys prev;
     movablePulleys := movablePulleys prev;
     loads := loads prev;
     anchors := anchors prev;
     effortForce := effortForce prev;
     friction := friction prev;
     ropeMaxTension := ropeMaxTension prev;
     airResistance := airResistance prev;
     isBroken := isBroken prev;
     interactionMode := interactionMode prev;
     ropeSegments := ropes;
     ropeBuilderState := builder;
     ropeConnectionStartId := startId;
     loadPosition := loadPosition prev;
     loadVelocity := loadVelocity prev;
     isDragging := isDragging prev;
     selectedId := selectedId prev |}.

(** [{ ...prev, fixedPulleys, movablePulleys, loads, anchors }] *)
Definition placing (prev : SandboxState)
           (fixed movable : list Pul.Pulley) (ls : list Load.LoadObject)
           (ans : list Anc.Anchor) : SandboxState :=
  {| fixedPulleys := fixed;
     movablePulleys := movable;
     loads := ls;
     anchors := ans;
     effortForce := effortForce prev;
     friction := friction prev;
     ropeMaxTension := ropeMaxTension prev;
     airResistance := airResistance prev;
     isBroken := isBroken prev;
     interactionMode := interactionMode prev;
     ropeSegments := ropeSegments prev;
     ropeBuilderState := ropeBuilderState prev;
     ropeConnectionStartId := ropeConnectionStartId prev;
     loadPosition := loadPosition prev;
     loadVelocity := loadVelocity prev;
     isDragging := isDragging prev;
     selectedId := selectedId prev |}.

(** [id.startsWith(prefix)] *)
Definition startsWith (i prefix : string) : bool := String.prefix prefix i.

(** a string or [null] used as a condition: [null] and the empty string
    are falsy *)
Definition truthy (o : option string) : option string :=
  match o with
  | Some i => if String.eqb i EmptyString then None else Some i
  | None => None
  end.

(** [getObjCoords] *)
Definition getObjCoords (state : SandboxState) (i : string) : Q * Q :=
  let bottomBaseY := 400 - loadPosition state * 3 in
  match find (fun a => String.eqb (Anc.id a) i) (anchors state) with
  | Some anchor => (Anc.x anchor, Anc.y anchor)
  | None =>
    match find (fun p => String.eqb (Pul.id p) i) (fixedPulleys state) with
    | Some fixed => (Pul.x fixed, Pul.y fixed)
    | None =>
      match find (fun p => String.eqb (Pul.id p) i) (movablePulleys state)
      with
      | Some movable => (Pul.x movable, bottomBaseY)
      | None =>
        match find (fun l => String.eqb (Load.id l) i) (loads state) with
        | Some load => (Load.x load, Load.y load)
        | None => (0, 0)
        end
      end
    end
  end.

(** [a.x < b.x ? -1 : 1] *)
Definition sideOf (a b : Q * Q) : Q := if Num.ltb a.1 b.1 then -1 else 1.

(** [id === prev.ropeBuilderState.firstId] *)
Definition isId (o : option string) (i : string) : bool :=
  match o with
  | Some j => String.eqb i j
  | None => false
  end.

(** the two segments that the pulley tool adds; [now1] and [now2] are
    the renderings of the two readings of [Date.now()] *)
Definition routeOver (prev : SandboxState) (now1 now2 : string)
           (firstId secondId pulleyId : string) : list Rope.RopeSegment :=
  let firstPos := getObjCoords prev firstId in
  let pulleyPos := getObjCoords prev pulleyId in
  let firstSide := sideOf firstPos pulleyPos in
  let secondSide := sideOf (getObjCoords prev secondId) pulleyPos in
  let segment1 :=
    Rope.mk ("rope-" ++ now1 ++ "-1") firstId pulleyId Rope.pulley
            (Some 0) (Some firstSide) in
  let segment2 :=
    Rope.mk ("rope-" ++ now2 ++ "-2") pulleyId secondId Rope.pulley
            (Some secondSide) (Some 0) in
  [segment1; segment2].

(** the updater of [handleSandboxObjectClick] in mode [rope_pulley];
    [None] stands for a violated non-null assertion ([firstId!],
    [secondId!]), where the source would store [null] as the end of a
    rope *)
Definition clickPulleyTool (now1 now2 : string) (prev : SandboxState)
           (i : string) : option SandboxState :=
  let b := ropeBuilderState prev in
  match step b with
  | select_first =>
    Some (authoring prev (ropeSegments prev)
                    (mkBuilder select_second (Some i) (secondId b))
                    (ropeConnectionStartId prev))
  | select_second =>
    if isId (firstId b) i then Some prev
    else
      Some (authoring prev (ropeSegments prev)
                      (mkBuilder select_pulley (firstId b) (Some i))
                      (ropeConnectionStartId prev))
  | select_pulley =>
    if negb (startsWith i "fixed") && negb (startsWith i "movable")
    then Some prev
    else
      match firstId b, secondId b with
      | Some f, Some sd =>
        Some (authoring prev
                        (ropeSegments prev ++ routeOver prev now1 now2 f sd i)
                        (mkBuilder select_first None None)
                        (ropeConnectionStartId prev))
      | _, _ => None
      end
  | idle => Some prev
  end.

(** the state that [clickPulleyTool] returns when the click on the
    pulley [p] completes the route from [a] to [b] *)
Definition routed (prev : SandboxState) (now1 now2 : string)
           (a b p : string) : SandboxState :=
  authoring prev (ropeSegments prev ++ routeOver prev now1 now2 a b p)
            (mkBuilder select_first None None)
            (ropeConnectionStartId prev).

(** [prev.ropeSegments.some(...)]: a segment joins [a] and [b] already *)
Definition connected (prev : SandboxState) (a b : string) : bool :=
  existsb (fun sg => (String.eqb (Rope.fromId sg) a
                      && String.eqb (Rope.toId sg) b)
                     || (String.eqb (Rope.fromId sg) b
                         && String.eqb (Rope.toId sg) a))
          (ropeSegments prev).

(** the updater of [handleSandboxObjectClick] in mode [rope_direct] *)
Definition clickDirectTool (now : string) (prev : SandboxState)
           (i : string) : SandboxState :=
  match truthy (ropeConnectionStartId prev) with
  | None =>
    authoring prev (ropeSegments prev) (ropeBuilderState prev) (Some i)
  | Some start =>
    if String.eqb start i
    then authoring prev (ropeSegments prev) (ropeBuilderState prev) None
    else
      if connected prev start i
      then authoring prev (ropeSegments prev) (ropeBuilderState prev) None
      else
        authoring prev
                  (ropeSegments prev
                   ++ [Rope.mk ("rope-" ++ now) start i Rope.direct
                               (Some 0) (Some 0)])
                  (ropeBuilderState prev) None
  end.

(** [handleSandboxObjectClick]; the state of the closure and the state
    given to the updater are the same state *)
Definition handleSandboxObjectClick (now1 now2 : string)
           (prev : SandboxState) (i : string) : option SandboxState :=
  match interactionMode prev with
  | rope_pulley => clickPulleyTool now1 now2 prev i
  | rope_direct => Some (clickDirectTool now1 prev i)
  | select => Some prev
  end.

(** the updater of [handleSandboxMove] *)
Definition handleSandboxMove (prev : SandboxState) (i : string) (x y : Q)
  : SandboxState :=
  if startsWith i "fixed"
  then
    placing prev
            (map (fun p => if String.eqb (Pul.id p) i
                           then Pul.mk (Pul.id p) x y (Pul.radius p)
                                       (Pul.vx p)
                           else p) (fixedPulleys prev))
            (movablePulleys prev) (loads prev) (anchors prev)
  else if startsWith i "movable"
  then
    placing prev (fixedPulleys prev)
            (map (fun p => if String.eqb (Pul.id p) i
                           then Pul.mk (Pul.id p) x (Pul.y p) (Pul.radius p)
                                       (Pul.vx p)
                           else p) (movablePulleys prev))
            (loads prev) (anchors prev)
  else if startsWith i "load"
  then
    placing prev (fixedPulleys prev) (movablePulleys prev)
            (map (fun l => if String.eqb (Load.id l) i
                           then Load.mk (Load.id l) (Load.mass l)
                                        (Load.color l) x y (Load.vx l)
                                        (Load.vy l)
                           else l) (loads prev))
            (anchors prev)
  else if startsWith i "anchor"
  then
    placing prev (fixedPulleys prev) (movablePulleys prev) (loads prev)
            (map (fun a => if String.eqb (Anc.id a) i
                           then Anc.mk (Anc.id a) x y else a)
                 (anchors prev))
  else prev.

End App.

(** ** The controls: deletion and rope geometry *)

Module Controls.

Import Sandbox.

(** [deleteSelected] *)
Definition deleteSelected (s : SandboxState) : SandboxState :=
  match App.truthy (selectedId s) with
  | None => s
  | Some sel =>
    {| fixedPulleys :=
         List.filter (fun p => negb (String.eqb (Pul.id p) sel))
                     (fixedPulleys s);
       movablePulleys :=
         List.filter (fun p => negb (String.eqb (Pul.id p) sel))
                     (movablePulleys s);
       loads :=
         List.filter (fun l => negb (String.eqb (Load.id l) sel)) (loads s);
       anchors :=
         List.filter (fun a => negb (String.eqb (Anc.id a) sel)) (anchors s);
       effortForce := effortForce s;
       friction := friction s;
       ropeMaxTension := ropeMaxTension s;
       airResistance := airResistance s;
       isBroken := isBroken s;
       interactionMode := interactionMode s;
       ropeSegments :=
         List.filter (fun seg => negb (String.eqb (Rope.fromId seg) sel)
                                 && negb (String.eqb (Rope.toId seg) sel))
                     (ropeSegments s);
       ropeBuilderState := ropeBuilderState s;
       ropeConnectionStartId := ropeConnectionStartId s;
       loadPosition := loadPosition s;
       loadVelocity := loadVelocity s;
       isDragging := isDragging s;
       selectedId := None |}
  end.

(** [setRopeMode]; [mode] is [rope_direct] or [rope_pulley] *)
Definition setRopeMode (mode : InteractionMode) (prev : SandboxState)
  : SandboxState :=
  {| fixedPulleys := fixedPulleys prev;
     movablePulleys := movablePulleys prev;
     loads := loads prev;
     anchors := anchors prev;
     effortForce := effortForce prev;
     friction := friction prev;
     ropeMaxTension := ropeMaxTension prev;
     airResistance := airResistance prev;
     isBroken := isBroken prev;
     interactionMode :=
       match interactionMode prev, mode with
       | rope_direct, rope_direct => select
       | rope_pulley, rope_pulley => select
       | select, select => select
       | _, _ => mode
       end;
     ropeSegments := ropeSegments prev;
     ropeBuilderState :=
       mkBuilder (match mode with
                  | rope_pulley => select_first
                  | _ => idle
                  end) None None;
     ropeConnectionStartId := None;
     loadPosition := loadPosition prev;
     loadVelocity := loadVelocity prev;
     isDragging := isDragging prev;
     selectedId := None |}.

(** what the user can do with the rope tools *)
Inductive Edit :=
| Click (now1 now2 : string) (i : string)
| SetRopeMode (mode : InteractionMode).

(** one edit; [None] as in [App.clickPulleyTool] *)
Definition edit (s : SandboxState) (e : Edit) : option SandboxState :=
  match e with
  | Click now1 now2 i => App.handleSandboxObjectClick now1 now2 s i
  | SetRopeMode mode => Some (setRopeMode mode s)
  end.

(** a sequence of edits, stopping at the first [None] *)
Fixpoint edits (s : SandboxState) (es : list Edit) : option SandboxState :=
  match es with
  | [] => Some s
  | e :: es' =>
    match edit s e with
    | Some s' => edits s' es'
    | None => None
    end
  end.

(** the ids that the pulley tool is about to dereference are set *)
Definition builderReady (b : RopeBuilderState) : Prop :=
  match step b with
  | select_second => firstId b <> None
  | select_pulley => firstId b <> None /\ secondId b <> None
  | _ => True
  end.

(** [r] and [r'] join the same two ids *)
Definition samePair (r r' : Rope.RopeSegment) : Prop :=
  (Rope.fromId r = Rope.fromId r' /\ Rope.toId r = Rope.toId r')
  \/ (Rope.fromId r = Rope.toId r' /\ Rope.toId r = Rope.fromId r').

(** no segment joins an id with itself, and no two segments join the
    same two ids *)
Fixpoint simpleRopes (ropes : list Rope.RopeSegment) : Prop :=
  match ropes with
  | [] => True
  | r :: ropes' =>
    Rope.fromId r <> Rope.toId r
    /\ (forall r', In r' ropes' -> ~ samePair r r')
    /\ simpleRopes ropes'
  end.

(** [i] is the id of a pulley, a load or an anchor of [s] *)
Definition isNode (s : SandboxState) (i : string) : Prop :=
  In i (fixedIds s) \/ In i (movableIds s)
  \/ In i (map Load.id (loads s)) \/ In i (anchorIds s).

(** both ends of every rope segment are nodes of [s] *)
Definition wellReferenced (s : SandboxState) : Prop :=
  forall r, In r (ropeSegments s) ->
            isNode s (Rope.fromId r) /\ isNode s (Rope.toId r).

End Controls.

Module Geometry.

(** the slider [Initial Left Height]:
    [{ ...s, initialY1: v, y1: v, totalRopeLength: v + s.initialY2 }] *)
Definition setInitialY1 (v : Q) (s : AtwoodState) : AtwoodState :=
  {| mass1 := mass1 s; mass2 := mass2 s; pulleyMass := pulleyMass s;
     pulleyRadius := pulleyRadius s; frictionCoeff := frictionCoeff s;
     totalRopeLength := v + initialY2 s;
     initialY1 := v; initialY2 := initialY2 s;
     ropeMaxTension := ropeMaxTension s; airResistance := airResistance s;
     isBroken := isBroken s;
     y1 := v; y2 := y2 s;
     velocity := velocity s; angularVelocity := angularVelocity s;
     acceleration := acceleration s;
     tension1 := tension1 s; tension2 := tension2 s; time := time s |}.

(** the slider [Initial Right Height]:
    [{ ...s, initialY2: v, y2: v, totalRopeLength: s.initialY1 + v }] *)
Definition setInitialY2 (v : Q) (s : AtwoodState) : AtwoodState :=
  {| mass1 := mass1 s; mass2 := mass2 s; pulleyMass := pulleyMass s;
     pulleyRadius := pulleyRadius s; frictionCoeff := frictionCoeff s;
     totalRopeLength := initialY1 s + v;
     initialY1 := initialY1 s; initialY2 := v;
     ropeMaxTension := ropeMaxTension s; airResistance := airResistance s;
     isBroken := isBroken s;
     y1 := y1 s; y2 := v;
     velocity := velocity s; angularVelocity := angularVelocity s;
     acceleration := acceleration s;
     tension1 := tension1 s; tension2 := tension2 s; time := time s |}.

(** what the user can do to the Atwood machine between two resets *)
Inductive Action :=
| Tick (dt : Q) (mode : RealityMode)
| SetInitialY1 (v : Q)
| SetInitialY2 (v : Q)
| Reset.

Definition act (s : AtwoodState) (a : Action) : AtwoodState :=
  match a with
  | Tick dt mode => Atwood.updateAtwoodPhysics s dt mode
  | SetInitialY1 v => setInitialY1 v s
  | SetInitialY2 v => setInitialY2 v s
  | Reset => App.handleReset s
  end.

(** the rope is as long as the two initial heights together *)
Definition consistent (s : AtwoodState) : Prop :=
  totalRopeLength s == initialY1 s + initialY2 s.

End Geometry.

(** ** [NewtonsAnalysis.tsx]: the force summary of the Atwood machine *)

Module NewtonsAnalysis.

Section Atwood.

Variable atwoodState : AtwoodState.

Definition f1 : Q := mass1 atwoodState * GRAVITY.
Definition f2 : Q := mass2 atwoodState * GRAVITY.

Definition drivingForce : Q := f2 - f1.

Definition totalWeight : Q := f1 + f2.

Definition frictionForce : Q :=
  if Num.gtb (frictionCoeff atwoodState) 0
  then frictionCoeff atwoodState * totalWeight * FRICTION_SCALE
  else 0.

Definition direction : Q :=
  if Num.gtb (Num.abs (velocity atwoodState)) (1 # 1000)
  then Num.sign (velocity atwoodState)
  else Num.sign drivingForce.

Definition netForce : Q :=
  if Num.gtb (Num.abs (velocity atwoodState)) (1 # 1000)
  then drivingForce - direction * frictionForce
  else
    if Num.leb (Num.abs drivingForce) frictionForce
    then 0
    else drivingForce - direction * frictionForce.

Definition pulleyEffectiveMass : Q := (5 # 10) * pulleyMass atwoodState.

Definition totalInertia : Q :=
  mass1 atwoodState + mass2 atwoodState + pulleyEffectiveMass.

Definition acceleration : Q := netForce / totalInertia.

End Atwood.

End NewtonsAnalysis.

(** ** [DataPanel.tsx]: the energy bars *)

Module DataPanel.

Record Energy := mkEnergy { pe : Q; ke : Q; total : Q }.

(** [calculateEnergy] for the Atwood machine *)
Definition atwoodEnergy (atwoodState : AtwoodState) : Energy :=
  let FLOOR_H := 5 in
  let h1 := Num.max 0 (FLOOR_H - y1 atwoodState) in
  let h2 := Num.max 0 (FLOOR_H - y2 atwoodState) in
  let pe := mass1 atwoodState * GRAVITY * h1
            + mass2 atwoodState * GRAVITY * h2 in
  let v := velocity atwoodState in
  let ke := (5 # 10) * (mass1 atwoodState + mass2 atwoodState) * (v * v) in
  let rotKe := (25 # 100) * pulleyMass atwoodState * (v * v) in
  let totalKe := ke + rotKe in
  mkEnergy pe totalKe (pe + totalKe).

(** [Math.max(1, energy.total)] *)
Definition maxEnergyBar (e : Energy) : Q := Num.max 1 (total e).

(** the width of a bar, in percent:
    [Math.min(100, (part / maxEnergyBar) * 100)] *)
Definition barWidth (e : Energy) (part : Q) : Q :=
  Num.min 100 (part / maxEnergyBar e * 100).

End DataPanel.

(** ** Rope routes that avoid a boundary *)

Module Routes.

Section Routes.

Variable state : Sandbox.SandboxState.
Variable boundaryCheck : string -> bool.
Variable startIds : list string.

(** [i] is a start id, or can be reached from one along rope segments
    without entering an id on the boundary *)
Inductive reachable : string -> Prop :=
| reachable_start i : In i startIds -> reachable i
| reachable_next a b r :
    reachable a -> In r (Sandbox.ropeSegments state) ->
    Graph.joins r a b -> boundaryCheck b = false -> reachable b.

(** what holds of [(result, visited, queue)] at the head of the loop of
    [findConnectedLoads] *)
Record bfsInvariant (result : list Load.LoadObject) (visited : gset string)
       (queue : list string) : Prop := {
  inv_starts : forall i, In i startIds -> i ∈ visited;
  inv_reach : forall v, v ∈ visited -> reachable v;
  inv_queue : forall i, In i queue -> i ∈ visited;
  inv_closed :
    forall v, v ∈ visited -> ~ In v queue ->
    forall r b, In r (Sandbox.ropeSegments state) -> Graph.joins r v b ->
                boundaryCheck b = false -> b ∈ visited;
  inv_collected :
    forall v, v ∈ visited -> ~ In v queue ->
    forall l, Sandbox.findLoad state v = Some l -> In l result;
  inv_found :
    forall l, In l result ->
              exists v, v ∈ visited /\ Sandbox.findLoad state v = Some l;
  inv_nodup : NoDup (map Load.id result)
}.

End Routes.

End Routes.

(** ** Numbers with their non-finite values

    The rational model above reads a quotient with a zero divisor as [0].
    The engine's numbers do not: [0/0] is NaN, [x/0] an infinity, and
    every comparison with NaN is false.  This module gives the numbers of
    the language exactly but for rounding and overflow: rationals, the
    negative zero, the two infinities and NaN, with the arithmetic of
    IEEE 754 on them. *)

Module Js.

Inductive num := Fin (q : Q) | NegZero | PosInf | NegInf | NaN.

(** the rational value of a finite number *)
Definition qval (x : num) : Q :=
  match x with
  | Fin q => q
  | _ => 0
  end.

Definition isFinite (x : num) : bool :=
  match x with
  | Fin _ | NegZero => true
  | _ => false
  end.

Definition isZero (x : num) : bool :=
  match x with
  | Fin q => Num.eqb q 0
  | NegZero => true
  | _ => false
  end.

Definition isNaN (x : num) : bool :=
  match x with
  | NaN => true
  | _ => false
  end.

(** the sign bit *)
Definition negative (x : num) : bool :=
  match x with
  | Fin q => Num.ltb q 0
  | NegZero | NegInf => true
  | _ => false
  end.

Definition zero (neg : bool) : num := if neg then NegZero else Fin 0.
Definition inf (neg : bool) : num := if neg then NegInf else PosInf.

(** unary [-] *)
Definition opp (x : num) : num :=
  match x with
  | Fin q => if Num.eqb q 0 then NegZero else Fin (- q)
  | NegZero => Fin 0
  | PosInf => NegInf
  | NegInf => PosInf
  | NaN => NaN
  end.

(** [+]: opposite infinities give NaN, and a sum that vanishes is the
    positive zero unless both terms are the negative zero *)
Definition add (x y : num) : num :=
  match x, y with
  | NaN, _ | _, NaN => NaN
  | PosInf, NegInf | NegInf, PosInf => NaN
  | PosInf, _ | _, PosInf => PosInf
  | NegInf, _ | _, NegInf => NegInf
  | NegZero, NegZero => NegZero
  | NegZero, Fin b => Fin b
  | Fin a, NegZero => Fin a
  | Fin a, Fin b => Fin (a + b)
  end.

(** binary [-] *)
Definition sub (x y : num) : num := add x (opp y).

(** [*]: an infinity times a zero is NaN; the sign of a zero or infinite
    product is the exclusive or of the signs *)
Definition mul (x y : num) : num :=
  if isNaN x || isNaN y then NaN
  else
    let neg := xorb (negative x) (negative y) in
    if isFinite x && isFinite y
    then
      if isZero x || isZero y then zero neg
      else Fin (qval x * qval y)
    else
      if isZero x || isZero y then NaN else inf neg.

(** [/]: [0/0] and a quotient of infinities are NaN, a non-zero number
    over a zero is an infinity *)
Definition div (x y : num) : num :=
  if isNaN x || isNaN y then NaN
  else
    let neg := xorb (negative x) (negative y) in
    if isFinite x
    then
      if isFinite y
      then
        if isZero y then (if isZero x then NaN else inf neg)
        else if isZero x then zero neg
        else Fin (qval x / qval y)
      else zero neg
    else
      if isFinite y then inf neg else NaN.

(** [Math.abs] *)
Definition abs (x : num) : num :=
  match x with
  | Fin q => Fin (Qabs q)
  | NegZero => Fin 0
  | PosInf | NegInf => PosInf
  | NaN => NaN
  end.

(** [Math.sign] *)
Definition sign (x : num) : num :=
  match x with
  | Fin q => Fin (Num.sign q)
  | NegZero => NegZero
  | PosInf => Fin 1
  | NegInf => Fin (-1)
  | NaN => NaN
  end.

(** [x < y]; false when either is NaN *)
Definition lt (x y : num) : bool :=
  match x, y with
  | NaN, _ | _, NaN => false
  | PosInf, _ | _, NegInf => false
  | NegInf, _ | _, PosInf => true
  | _, _ => Num.ltb (qval x) (qval y)
  end.

(** [x === y] on numbers; false when either is NaN, true of the two
    zeros *)
Definition eq (x y : num) : bool :=
  match x, y with
  | NaN, _ | _, NaN => false
  | PosInf, PosInf | NegInf, NegInf => true
  | PosInf, _ | _, PosInf | NegInf, _ | _, NegInf => false
  | _, _ => Num.eqb (qval x) (qval y)
  end.

(** [x > y], [x <= y], [x !== y] *)
Definition gt (x y : num) : bool := lt y x.
Definition le (x y : num) : bool := lt x y || eq x y.
Definition ne (x y : num) : bool := negb (eq x y).

(** [x || d]: zero and NaN are falsy *)
Definition or_default (x d : num) : num :=
  if isZero x || isNaN x then d else x.

(** the constants of the constants module *)
Definition gravity : num := Fin GRAVITY.
Definition frictionScale : num := Fin FRICTION_SCALE.
Definition airScale : num := Fin AIR_RESISTANCE_SCALE.

(** [x] is the finite number [q] *)
Definition rep (x : num) (q : Q) : Prop :=
  match x with
  | Fin a => a == q
  | NegZero => q == 0
  | _ => False
  end.

End Js.

(** ** [updateAtwoodPhysics] on the numbers of the language *)

Module AtwoodJs.

Import Js.

Record State := mk {
  mass1 : num;
  mass2 : num;
  pulleyMass : num;
  pulleyRadius : num;
  frictionCoeff : num;
  totalRopeLength : num;
  initialY1 : num;
  initialY2 : num;
  ropeMaxTension : num;
  airResistance : num;
  isBroken : bool;
  y1 : num;
  y2 : num;
  velocity : num;
  angularVelocity : num;
  acceleration : num;
  tension1 : num;
  tension2 : num;
  time : num
}.

(** *** The broken branch *)

Definition brokenV0 (s : State) (dt : num) : num :=
  add (velocity s) (mul gravity dt).

Definition brokenDrag (s : State) (dt : num) : num :=
  mul (mul (mul (Fin (5 # 10)) (airResistance s))
           (mul (brokenV0 s dt) (brokenV0 s dt)))
      airScale.

Definition brokenV (s : State) (dt : num) (mode : RealityMode) (m : num)
  : num :=
  if is_real mode
  then sub (brokenV0 s dt) (mul (div (brokenDrag s dt) m) dt)
  else brokenV0 s dt.

Definition capFloor (y : num) : num :=
  if gt y (Fin (45 # 10)) then Fin (45 # 10) else y.

Definition stepBroken (s : State) (dt : num) (mode : RealityMode) : State :=
  let v1 := brokenV s dt mode (mass1 s) in
  let v2 := brokenV s dt mode (mass2 s) in
  let newY1 := capFloor (add (y1 s) (mul (mul v1 dt) (Fin (5 # 10)))) in
  let newY2 := capFloor (add (y2 s) (mul (mul v2 dt) (Fin (5 # 10)))) in
  {| mass1 := mass1 s; mass2 := mass2 s; pulleyMass := pulleyMass s;
     pulleyRadius := pulleyRadius s; frictionCoeff := frictionCoeff s;
     totalRopeLength := totalRopeLength s;
     initialY1 := initialY1 s; initialY2 := initialY2 s;
     ropeMaxTension := ropeMaxTension s; airResistance := airResistance s;
     isBroken := isBroken s;
     y1 := newY1; y2 := newY2;
     velocity := Fin 0;
     angularVelocity := angularVelocity s;
     acceleration := Fin 0;
     tension1 := Fin 0; tension2 := Fin 0;
     time := time s |}.

(** *** The intact branch *)

Definition ropeLen (s : State) : num :=
  or_default (totalRopeLength s) (Fin 5).

Definition effectivePulleyInertiaMass (s : State) : num :=
  mul (Fin (5 # 10)) (pulleyMass s).

Definition drivingForce (s : State) : num :=
  mul (sub (mass2 s) (mass1 s)) gravity.

Definition isBalanced (s : State) : bool :=
  lt (abs (sub (mass2 s) (mass1 s))) (Fin (1 # 1000)).

Definition centeringForce (s : State) : num :=
  if isBalanced s
  then
    let targetY := div (ropeLen s) (Fin 2) in
    let dist := sub targetY (y1 s) in
    mul (mul (opp dist) (add (mass1 s) (mass2 s))) (Fin 5)
  else Fin 0.

Definition frictionForce (s : State) : num :=
  if gt (frictionCoeff s) (Fin 0)
  then mul (mul (mul (frictionCoeff s) (add (mass1 s) (mass2 s))) gravity)
           frictionScale
  else Fin 0.

Definition netForceFriction (s : State) : num :=
  let netForce := add (drivingForce s) (centeringForce s) in
  if gt (abs (velocity s)) (Fin (1 # 1000))
  then sub netForce (mul (sign (velocity s)) (frictionForce s))
  else
    if le (abs netForce) (frictionForce s)
    then Fin 0
    else sub netForce (mul (sign netForce) (frictionForce s)).

Definition netForce (s : State) (mode : RealityMode) : num :=
  let netForce := netForceFriction s in
  if is_real mode && gt (abs (velocity s)) (Fin (1 # 1000))
  then
    let dragMagnitude :=
      mul (mul (airResistance s) airScale)
          (mul (velocity s) (velocity s)) in
    let dragForce := mul (sign (velocity s)) dragMagnitude in
    sub netForce dragForce
  else netForce.

Definition totalInertialMass (s : State) : num :=
  add (add (mass1 s) (mass2 s)) (effectivePulleyInertiaMass s).

Definition stiction (s : State) (dt : num) (mode : RealityMode) : bool :=
  let acc := div (netForce s mode) (totalInertialMass s) in
  let newVelocity := add (velocity s) (mul acc dt) in
  gt (abs (velocity s)) (Fin (1 # 1000))
  && ne (sign newVelocity) (sign (velocity s))
  && le (abs (netForce s mode)) (frictionForce s).

Definition accel (s : State) (dt : num) (mode : RealityMode) : num :=
  if stiction s dt mode then Fin 0
  else div (netForce s mode) (totalInertialMass s).

Definition newVelocity (s : State) (dt : num) (mode : RealityMode) : num :=
  let acc := div (netForce s mode) (totalInertialMass s) in
  let v := if stiction s dt mode then Fin 0
           else add (velocity s) (mul acc dt) in
  if isBalanced s then mul v (Fin (90 # 100)) else v.

Definition newY1 (s : State) (dt : num) (mode : RealityMode) : num :=
  sub (y1 s) (mul (newVelocity s dt mode) dt).

Definition hitsTop (s : State) (dt : num) (mode : RealityMode) : bool :=
  lt (newY1 s dt mode) (Fin (2 # 10)).

Definition hitsBottom (s : State) (dt : num) (mode : RealityMode) : bool :=
  gt (newY1 s dt mode) (sub (ropeLen s) (Fin (2 # 10))).

Definition stopAt (s : State) (a b : num) : State :=
  {| mass1 := mass1 s; mass2 := mass2 s; pulleyMass := pulleyMass s;
     pulleyRadius := pulleyRadius s; frictionCoeff := frictionCoeff s;
     totalRopeLength := totalRopeLength s;
     initialY1 := initialY1 s; initialY2 := initialY2 s;
     ropeMaxTension := ropeMaxTension s; airResistance := airResistance s;
     isBroken := isBroken s;
     y1 := a; y2 := b;
     velocity := Fin 0;
     angularVelocity := angularVelocity s;
     acceleration := Fin 0;
     tension1 := tension1 s; tension2 := tension2 s;
     time := time s |}.

Definition stepIntact (s : State) (dt : num) (mode : RealityMode) : State :=
  if hitsTop s dt mode
  then stopAt s (Fin (2 # 10)) (sub (ropeLen s) (Fin (2 # 10)))
  else if hitsBottom s dt mode
  then stopAt s (sub (ropeLen s) (Fin (2 # 10))) (Fin (2 # 10))
  else
    let a := accel s dt mode in
    let t1 := mul (mass1 s) (add gravity a) in
    let t2 := mul (mass2 s) (sub gravity a) in
    let broken :=
      is_real mode
      && (gt t1 (ropeMaxTension s) || gt t2 (ropeMaxTension s)) in
    {| mass1 := mass1 s; mass2 := mass2 s; pulleyMass := pulleyMass s;
       pulleyRadius := pulleyRadius s; frictionCoeff := frictionCoeff s;
       totalRopeLength := totalRopeLength s;
       initialY1 := initialY1 s; initialY2 := initialY2 s;
       ropeMaxTension := ropeMaxTension s;
       airResistance := airResistance s;
       isBroken := broken;
       y1 := newY1 s dt mode;
       y2 := sub (ropeLen s) (newY1 s dt mode);
       velocity := newVelocity s dt mode;
       angularVelocity := div (newVelocity s dt mode) (pulleyRadius s);
       acceleration := a;
       tension1 := t1; tension2 := t2;
       time := add (time s) dt |}.

Definition updateAtwoodPhysics (s : State) (dt : num) (mode : RealityMode)
  : State :=
  if isBroken s then stepBroken s dt mode else stepIntact s dt mode.

(** [y1] within the two position limits, as the comparisons of the
    language decide it *)
Definition withinLimits (s : State) : bool :=
  le (Fin (2 # 10)) (y1 s)
  && le (y1 s) (sub (totalRopeLength s) (Fin (2 # 10))).

(** the tension identity, as [===] decides it *)
Definition tensionIdentity (s : State) : bool :=
  eq (sub (tension1 s) (tension2 s))
     (add (mul (sub (mass1 s) (mass2 s)) gravity)
          (mul (add (mass1 s) (mass2 s)) (acceleration s))).

End AtwoodJs.

(** ** From the rational model to the numbers of the language *)

Module Embed.

(** a state of rational fields, read as a state of the language *)
Definition inject (s : AtwoodState) : AtwoodJs.State :=
  {| AtwoodJs.mass1 := Js.Fin (mass1 s);
     AtwoodJs.mass2 := Js.Fin (mass2 s);
     AtwoodJs.pulleyMass := Js.Fin (pulleyMass s);
     AtwoodJs.pulleyRadius := Js.Fin (pulleyRadius s);
     AtwoodJs.frictionCoeff := Js.Fin (frictionCoeff s);
     AtwoodJs.totalRopeLength := Js.Fin (totalRopeLength s);
     AtwoodJs.initialY1 := Js.Fin (initialY1 s);
     AtwoodJs.initialY2 := Js.Fin (initialY2 s);
     AtwoodJs.ropeMaxTension := Js.Fin (ropeMaxTension s);
     AtwoodJs.airResistance := Js.Fin (airResistance s);
     AtwoodJs.isBroken := isBroken s;
     AtwoodJs.y1 := Js.Fin (y1 s);
     AtwoodJs.y2 := Js.Fin (y2 s);
     AtwoodJs.velocity := Js.Fin (velocity s);
     AtwoodJs.angularVelocity := Js.Fin (angularVelocity s);
     AtwoodJs.acceleration := Js.Fin (acceleration s);
     AtwoodJs.tension1 := Js.Fin (tension1 s);
     AtwoodJs.tension2 := Js.Fin (tension2 s);
     AtwoodJs.time := Js.Fin (time s) |}.

(** every field of [j] is the finite number in the same field of [s] *)
Record agrees (j : AtwoodJs.State) (s : AtwoodState) : Prop := {
  ag_mass1 : Js.rep (AtwoodJs.mass1 j) (mass1 s);
  ag_mass2 : Js.rep (AtwoodJs.mass2 j) (mass2 s);
  ag_pulleyMass : Js.rep (AtwoodJs.pulleyMass j) (pulleyMass s);
  ag_frictionCoeff : Js.rep (AtwoodJs.frictionCoeff j) (frictionCoeff s);
  ag_totalRopeLength :
    Js.rep (AtwoodJs.totalRopeLength j) (totalRopeLength s);
  ag_initialY1 : Js.rep (AtwoodJs.initialY1 j) (initialY1 s);
  ag_initialY2 : Js.rep (AtwoodJs.initialY2 j) (initialY2 s);
  ag_ropeMaxTension : Js.rep (AtwoodJs.ropeMaxTension j) (ropeMaxTension s);
  ag_airResistance : Js.rep (AtwoodJs.airResistance j) (airResistance s);
  ag_isBroken : AtwoodJs.isBroken j = isBroken s;
  ag_y1 : Js.rep (AtwoodJs.y1 j) (y1 s);
  ag_y2 : Js.rep (AtwoodJs.y2 j) (y2 s);
  ag_velocity : Js.rep (AtwoodJs.velocity j) (velocity s);
  ag_acceleration : Js.rep (AtwoodJs.acceleration j) (acceleration s);
  ag_tension1 : Js.rep (AtwoodJs.tension1 j) (tension1 s);
  ag_tension2 : Js.rep (AtwoodJs.tension2 j) (tension2 s);
  ag_time : Js.rep (AtwoodJs.time j) (time s)
}.

(** the states produced by a sequence of ticks of finite time slices,
    oldest first *)
Fixpoint jsStates (j : AtwoodJs.State) (ticks : list (Q * RealityMode))
  : list AtwoodJs.State :=
  match ticks with
  | [] => []
  | (dt, mode) :: ticks' =>
    let j' := AtwoodJs.updateAtwoodPhysics j (Js.Fin dt) mode in
    j' :: jsStates j' ticks'
  end.

(** a machine without any mass, at rest in the middle of its rope *)
Definition weightless : AtwoodState :=
  {| mass1 := 0; mass2 := 0; pulleyMass := 0; pulleyRadius := 2 # 10;
     frictionCoeff := 0; totalRopeLength := 5;
     initialY1 := 25 # 10; initialY2 := 25 # 10;
     ropeMaxTension := 50; airResistance := 1 # 10; isBroken := false;
     y1 := 25 # 10; y2 := 25 # 10; velocity := 0; angularVelocity := 0;
     acceleration := 0; tension1 := 0; tension2 := 0; time := 0 |}.

(** a broken machine whose first mass is zero, without air resistance *)
Definition masslessFall : AtwoodState :=
  {| mass1 := 0; mass2 := 3; pulleyMass := 1; pulleyRadius := 2 # 10;
     frictionCoeff := 0; totalRopeLength := 5;
     initialY1 := 2; initialY2 := 3;
     ropeMaxTension := 20; airResistance := 0; isBroken := true;
     y1 := 2; y2 := 3; velocity := 0; angularVelocity := 0;
     acceleration := 0; tension1 := 0; tension2 := 0; time := 1 |}.

End Embed.

(** ** Further concrete states *)

Module Cases.

Import Examples.

(** masses 2 and 2.1 held by friction, at rest in the middle *)
Definition restingMachine : AtwoodState :=
  {| mass1 := 2; mass2 := 21 # 10; pulleyMass := 1; pulleyRadius := 2 # 10;
     frictionCoeff := 5 # 10; totalRopeLength := 5;
     initialY1 := 25 # 10; initialY2 := 25 # 10;
     ropeMaxTension := 50; airResistance := 1 # 10; isBroken := false;
     y1 := 25 # 10; y2 := 25 # 10; velocity := 0; angularVelocity := 0;
     acceleration := 0; tension1 := 0; tension2 := 0; time := 0 |}.

(** equal masses at rest in the middle of the rope *)
Definition balancedMachine : AtwoodState :=
  {| mass1 := 2; mass2 := 2; pulleyMass := 1; pulleyRadius := 2 # 10;
     frictionCoeff := 0; totalRopeLength := 5;
     initialY1 := 25 # 10; initialY2 := 25 # 10;
     ropeMaxTension := 50; airResistance := 1 # 10; isBroken := false;
     y1 := 25 # 10; y2 := 25 # 10; velocity := 0; angularVelocity := 0;
     acceleration := 0; tension1 := 0; tension2 := 0; time := 0 |}.

(** the initial machine of the application on a rope that holds 20 N *)
Definition thinRope : AtwoodState :=
  {| mass1 := 2; mass2 := 3; pulleyMass := 1; pulleyRadius := 2 # 10;
     frictionCoeff := 0; totalRopeLength := 5;
     initialY1 := 2; initialY2 := 3;
     ropeMaxTension := 20; airResistance := 1 # 10; isBroken := false;
     y1 := 2; y2 := 3; velocity := 0; angularVelocity := 0;
     acceleration := 0; tension1 := 0; tension2 := 0; time := 0 |}.

(** a sandbox of [n + 1] fixed pulleys and nothing else *)
Definition crowded (n : nat) : Sandbox.SandboxState :=
  rig (repeat (Pul.mk "fixed-1" 400 100 25 None) (S n)) [] [].

(** a load roped to a fixed pulley with a tangent side of 2, and a load
    that reaches the fixed pulley through an anchor only *)
Definition oddSides : Sandbox.SandboxState :=
  {| Sandbox.fixedPulleys := [Pul.mk "fixed-1" 400 100 25 None];
     Sandbox.movablePulleys := [];
     Sandbox.loads := [crate1; crate2];
     Sandbox.anchors := [Anc.mk "anchor-1" 500 50];
     Sandbox.effortForce := 50;
     Sandbox.friction := 0;
     Sandbox.ropeMaxTension := 120;
     Sandbox.airResistance := 1 # 10;
     Sandbox.isBroken := false;
     Sandbox.interactionMode := select;
     Sandbox.ropeSegments :=
       [ Rope.mk "r1" "load-1" "fixed-1" Rope.pulley (Some 0) (Some 2);
         Rope.mk "r2" "load-2" "anchor-1" Rope.direct (Some 0) (Some 0);
         Rope.mk "r3" "anchor-1" "fixed-1" Rope.pulley (Some 0) (Some 1) ];
     Sandbox.ropeBuilderState := mkBuilder idle None None;
     Sandbox.ropeConnectionStartId := None;
     Sandbox.loadPosition := 80;
     Sandbox.loadVelocity := 0;
     Sandbox.isDragging := false;
     Sandbox.selectedId := None |}.

(** a chain: [load-3] hangs from [load-2], which hangs from [load-1],
    which is on the left of the fixed pulley; [load-3] is also tied to a
    second fixed pulley by a rope listed after the one to [load-2] *)
Definition chain : Sandbox.SandboxState :=
  rig [Pul.mk "fixed-1" 400 100 25 None; Pul.mk "fixed-2" 600 100 25 None]
      [crate1; crate2; crate3]
      [ Rope.mk "r1" "load-1" "fixed-1" Rope.pulley (Some 0) (Some (-1));
        Rope.mk "r2" "load-2" "load-1" Rope.direct None None;
        Rope.mk "r3" "load-3" "load-2" Rope.direct None None;
        Rope.mk "r4" "fixed-2" "load-3" Rope.pulley (Some 1) (Some 0) ].

(** a session on the Atwood machine: sliders, ticks and a reset *)
Definition session : list Geometry.Action :=
  [ Geometry.SetInitialY1 (15 # 10); Geometry.Tick (16 # 1000) REAL;
    Geometry.SetInitialY2 3; Geometry.Tick (16 # 1000) IDEAL;
    Geometry.Reset; Geometry.Tick (5 # 100) REAL ].

(** a sandbox in the middle of authoring *)
Definition bench (mode : InteractionMode) (builder : RopeBuilderState)
           (startId selected : option string)
           (ropes : list Rope.RopeSegment) : Sandbox.SandboxState :=
  {| Sandbox.fixedPulleys := [Pul.mk "fixed-1" 400 100 25 None];
     Sandbox.movablePulleys := [];
     Sandbox.loads := [crate1; crate2; crate3];
     Sandbox.anchors := [];
     Sandbox.effortForce := 50;
     Sandbox.friction := 0;
     Sandbox.ropeMaxTension := 120;
     Sandbox.airResistance := 1 # 10;
     Sandbox.isBroken := false;
     Sandbox.interactionMode := mode;
     Sandbox.ropeSegments := ropes;
     Sandbox.ropeBuilderState := builder;
     Sandbox.ropeConnectionStartId := startId;
     Sandbox.loadPosition := 80;
     Sandbox.loadVelocity := 0;
     Sandbox.isDragging := false;
     Sandbox.selectedId := selected |}.

(** the pulley tool after its first two clicks, on two loads *)
Definition benchRouting : Sandbox.SandboxState :=
  bench rope_pulley (mkBuilder select_pulley (Some "load-1") (Some "load-2"))
        None None [].

(** the direct tool after its first click *)
Definition benchDirect : Sandbox.SandboxState :=
  bench rope_direct (mkBuilder idle None None) (Some "load-1") None
        [Rope.mk "r1" "load-2" "fixed-1" Rope.direct (Some 0) (Some 0)].

(** a roped load is selected *)
Definition benchSelected : Sandbox.SandboxState :=
  bench select (mkBuilder idle None None) None (Some "load-1")
        [ Rope.mk "r1" "load-1" "fixed-1" Rope.pulley (Some 0) (Some (-1));
          Rope.mk "r2" "fixed-1" "load-2" Rope.pulley (Some 1) (Some 0) ].

(** switching to the pulley tool and routing a rope, with stray clicks *)
Definition routingEdits : list Controls.Edit :=
  [ Controls.Click "1" "1" "load-3";
    Controls.SetRopeMode rope_pulley;
    Controls.Click "2" "2" "load-1";
    Controls.Click "3" "3" "load-1";
    Controls.Click "4" "4" "load-2";
    Controls.Click "5" "5" "load-3";
    Controls.Click "6" "7" "fixed-1";
    Controls.SetRopeMode rope_direct;
    Controls.Click "8" "8" "load-3";
    Controls.Click "9" "9" "load-2" ].

End Cases.

(** * Properties *)

(** ** Facts about the number primitives *)

Module NumFacts.

Lemma gtb_true a b : Num.gtb a b = true <-> b < a.
Proof.
unfold Num.gtb. rewrite negb_true_iff, <- not_true_iff_false, Qle_bool_iff.
split; [apply Qnot_le_lt | apply Qlt_not_le].
Qed.

Lemma gtb_false a b : Num.gtb a b = false <-> a <= b.
Proof. unfold Num.gtb. rewrite negb_false_iff. apply Qle_bool_iff. Qed.

Lemma ltb_true a b : Num.ltb a b = true <-> a < b.
Proof. apply (gtb_true b a). Qed.

Lemma ltb_false a b : Num.ltb a b = false <-> b <= a.
Proof. apply (gtb_false b a). Qed.

Lemma leb_true a b : Num.leb a b = true <-> a <= b.
Proof. apply Qle_bool_iff. Qed.

Lemma eqb_true a b : Num.eqb a b = true <-> a == b.
Proof. apply Qeq_bool_iff. Qed.

Lemma eqb_false a b : Num.eqb a b = false <-> ~ a == b.
Proof.
unfold Num.eqb. rewrite <- not_true_iff_false, Qeq_bool_iff. tauto.
Qed.

Lemma leb_false a b : Num.leb a b = false <-> b < a.
Proof.
  unfold Num.leb. rewrite <- not_true_iff_false, Qle_bool_iff.
  split; [apply Qnot_le_lt | apply Qlt_not_le].
Qed.

Lemma geb_true a b : Num.geb a b = true <-> b <= a.
Proof. apply Qle_bool_iff. Qed.

Lemma geb_false a b : Num.geb a b = false <-> a < b.
Proof. apply (leb_false b a). Qed.

Lemma abs_spec x : (0 <= x /\ Num.abs x == x) \/ (x < 0 /\ Num.abs x == - x).
Proof.
  unfold Num.abs. destruct (Qlt_le_dec x 0) as [H | H].
  - right. split; [assumption |]. apply Qabs_neg. lra.
  - left. split; [assumption |]. apply Qabs_pos. assumption.
Qed.

Lemma sign_spec x :
  (0 < x /\ Num.sign x = 1) \/ (x < 0 /\ Num.sign x = -1)
  \/ (x == 0 /\ Num.sign x = 0).
Proof.
  unfold Num.sign.
  destruct (Num.gtb x 0) eqn:Hg.
  - apply gtb_true in Hg. left. split; [assumption | reflexivity].
  - apply gtb_false in Hg. destruct (Num.ltb x 0) eqn:Hl.
    + apply ltb_true in Hl. right; left. split; [assumption | reflexivity].
    + apply ltb_false in Hl. right; right. split; [lra | reflexivity].
Qed.

Lemma or_default_ne x d : ~ x == 0 -> Num.or_default x d = x.
Proof.
  intros H. unfold Num.or_default.
  destruct (Num.eqb x 0) eqn:E; [| reflexivity].
  apply eqb_true in E. contradiction.
Qed.

End NumFacts.

(** turn the boolean tests on numbers found in the context into
    propositions of [Q] *)
Ltac num_hyps :=
  repeat match goal with
  | H : Num.gtb _ _ = true |- _ => apply NumFacts.gtb_true in H
  | H : Num.gtb _ _ = false |- _ => apply NumFacts.gtb_false in H
  | H : Num.ltb _ _ = true |- _ => apply NumFacts.ltb_true in H
  | H : Num.ltb _ _ = false |- _ => apply NumFacts.ltb_false in H
  | H : Num.leb _ _ = true |- _ => apply NumFacts.leb_true in H
  | H : Num.leb _ _ = false |- _ => apply NumFacts.leb_false in H
  | H : Num.geb _ _ = true |- _ => apply NumFacts.geb_true in H
  | H : Num.geb _ _ = false |- _ => apply NumFacts.geb_false in H
  | H : Num.eqb _ _ = true |- _ => apply NumFacts.eqb_true in H
  | H : Num.eqb _ _ = false |- _ => apply NumFacts.eqb_false in H
  end.

(** case analysis on the number test that guards the goal *)
Ltac num_case :=
  match goal with
  | |- context [if Num.gtb ?a ?b then _ else _] =>
    let E := fresh "E" in destruct (Num.gtb a b) eqn:E
  | |- context [if Num.ltb ?a ?b then _ else _] =>
    let E := fresh "E" in destruct (Num.ltb a b) eqn:E
  | |- context [if Num.leb ?a ?b then _ else _] =>
    let E := fresh "E" in destruct (Num.leb a b) eqn:E
  | |- context [if Num.eqb ?a ?b then _ else _] =>
    let E := fresh "E" in destruct (Num.eqb a b) eqn:E
  end; num_hyps.

(** ** The Atwood integrator *)

Module AtwoodFacts.

Import Atwood.

Lemma frictionless (s : AtwoodState) :
  frictionCoeff s == 0 -> frictionForce s = 0.
Proof.
  intros H. unfold frictionForce. num_case; [lra | reflexivity].
Qed.

Lemma unbalanced_centering (s : AtwoodState) :
  isBalanced s = false -> centeringForce s = 0.
Proof. intros H. unfold centeringForce. now rewrite H. Qed.

(** without friction, in IDEAL mode, the net force is the drive plus
    the centering force *)
Lemma netForce_ideal_frictionless (s : AtwoodState) :
  frictionCoeff s == 0 ->
  netForce s IDEAL == drivingForce s + centeringForce s.
Proof.
  intros H. unfold netForce, netForceFriction. cbn [is_real andb].
  rewrite (frictionless s H).
  num_case; [lra |].
  num_case; [| lra].
  destruct (NumFacts.abs_spec (drivingForce s + centeringForce s))
    as [[? ?] | [? ?]]; lra.
Qed.

Lemma intact_unclamped (s : AtwoodState) (dt : Q) (mode : RealityMode) :
  isBroken s = false -> clamped s dt mode = false ->
  updateAtwoodPhysics s dt mode
  = let a := accel s dt mode in
    let t1 := mass1 s * (GRAVITY + a) in
    let t2 := mass2 s * (GRAVITY - a) in
    {| mass1 := mass1 s; mass2 := mass2 s; pulleyMass := pulleyMass s;
       pulleyRadius := pulleyRadius s; frictionCoeff := frictionCoeff s;
       totalRopeLength := totalRopeLength s;
       initialY1 := initialY1 s; initialY2 := initialY2 s;
       ropeMaxTension := ropeMaxTension s;
       airResistance := airResistance s;
       isBroken :=
         is_real mode
         && (Num.gtb t1 (ropeMaxTension s)
             || Num.gtb t2 (ropeMaxTension s));
       y1 := newY1 s dt mode;
       y2 := ropeLen s - newY1 s dt mode;
       velocity := newVelocity s dt mode;
       angularVelocity := newVelocity s dt mode / pulleyRadius s;
       acceleration := a;
       tension1 := t1; tension2 := t2;
       time := time s + dt |}.
Proof.
  intros Hb Hc. unfold clamped in Hc. apply orb_false_iff in Hc.
  destruct Hc as [Ht Hbot].
  unfold updateAtwoodPhysics, stepIntact. now rewrite Hb, Ht, Hbot.
Qed.

(** C1. Scenario A: an intact machine with masses 2 and 3, a pulley of
    mass 1 and no friction, stepped by 0.016 in IDEAL mode without
    reaching the position clamp, has driving force 9.81, total inertial
    mass 5.5 and returns the acceleration 9.81/5.5, which is 1.7836 to
    four decimals. *)
Theorem scenario_A (s : AtwoodState) (dt : Q) :
  isBroken s = false ->
  mass1 s == 2 -> mass2 s == 3 -> pulleyMass s == 1 ->
  frictionCoeff s == 0 -> dt == 16 # 1000 ->
  clamped s dt IDEAL = false ->
  drivingForce s == 981 # 100
  /\ totalInertialMass s == 55 # 10
  /\ acceleration (updateAtwoodPhysics s dt IDEAL)
     == (981 # 100) / (55 # 10)
  /\ 17836 # 10000 <= acceleration (updateAtwoodPhysics s dt IDEAL)
     < 17837 # 10000.
Proof.
  intros Hb H1 H2 Hp Hf Hdt Hc.
  assert (Hd : drivingForce s == 981 # 100).
  { unfold drivingForce, GRAVITY. rewrite H1, H2. lra. }
  assert (Hm : totalInertialMass s == 55 # 10).
  { unfold totalInertialMass, effectivePulleyInertiaMass.
    rewrite H1, H2, Hp. lra. }
  assert (Hbal : isBalanced s = false).
  { unfold isBalanced. apply NumFacts.ltb_false.
    destruct (NumFacts.abs_spec (mass2 s - mass1 s)) as [[? ?] | [? ?]];
      lra. }
  assert (Hn : netForce s IDEAL == 981 # 100).
  { rewrite (netForce_ideal_frictionless s Hf),
      (unbalanced_centering s Hbal), Hd. lra. }
  assert (Hs : stiction s dt IDEAL = false).
  { unfold stiction. rewrite (frictionless s Hf).
    replace (Num.leb (Num.abs (netForce s IDEAL)) 0) with false.
    - apply andb_false_r.
    - symmetry. apply NumFacts.leb_false.
      destruct (NumFacts.abs_spec (netForce s IDEAL)) as [[? ?] | [? ?]];
        lra. }
  assert (Ha : acceleration (updateAtwoodPhysics s dt IDEAL)
               == (981 # 100) / (55 # 10)).
  { rewrite (intact_unclamped s dt IDEAL Hb Hc). cbn [acceleration].
    unfold accel. rewrite Hs, Hn, Hm. reflexivity. }
  repeat split; try assumption; rewrite Ha.
  - vm_compute. discriminate.
  - reflexivity.
Qed.

End AtwoodFacts.

Module AtwoodProps.

Import Atwood AtwoodFacts.

Lemma broken_step (s : AtwoodState) (dt : Q) (mode : RealityMode) :
  isBroken s = true ->
  updateAtwoodPhysics s dt mode = stepBroken s dt mode.
Proof. intros H. unfold updateAtwoodPhysics. now rewrite H. Qed.

Lemma atwood_stays_broken (s : AtwoodState) (dt : Q) (mode : RealityMode) :
  isBroken s = true -> isBroken (updateAtwoodPhysics s dt mode) = true.
Proof. intros H. rewrite (broken_step s dt mode H). exact H. Qed.

Lemma runAtwood_stays_broken (ticks : list (Q * RealityMode)) :
  forall s, isBroken s = true -> isBroken (runAtwood s ticks) = true.
Proof.
  induction ticks as [| [dt mode] ticks IH]; intros s H; [exact H |].
  apply IH, atwood_stays_broken, H.
Qed.

Lemma step_keeps_rope (s : AtwoodState) (dt : Q) (mode : RealityMode) :
  totalRopeLength (updateAtwoodPhysics s dt mode) = totalRopeLength s.
Proof.
  unfold updateAtwoodPhysics, stepIntact, stepBroken, stopAt.
  destruct (isBroken s); [reflexivity |].
  destruct (hitsTop s dt mode); [reflexivity |].
  destruct (hitsBottom s dt mode); reflexivity.
Qed.

(** no tick changes the divisor of the acceleration *)
Lemma step_keeps_inertia (s : AtwoodState) (dt : Q) (mode : RealityMode) :
  totalInertialMass (updateAtwoodPhysics s dt mode) = totalInertialMass s.
Proof.
  unfold updateAtwoodPhysics, stepIntact, stepBroken, stopAt.
  destruct (isBroken s); [reflexivity |].
  destruct (hitsTop s dt mode); [reflexivity |].
  destruct (hitsBottom s dt mode); reflexivity.
Qed.

(** one intact tick lands within the limits, wherever it started *)
Lemma intact_tick_within (s : AtwoodState) (dt : Q) (mode : RealityMode) :
  isBroken s = false -> 4 # 10 <= totalRopeLength s ->
  withinLimits (updateAtwoodPhysics s dt mode).
Proof.
  intros Hb HL. unfold withinLimits.
  rewrite step_keeps_rope.
  assert (Hr : ropeLen s = totalRopeLength s).
  { apply NumFacts.or_default_ne. lra. }
  unfold updateAtwoodPhysics, stepIntact. rewrite Hb.
  destruct (hitsTop s dt mode) eqn:Ht.
  - cbn [y1 stopAt]. lra.
  - destruct (hitsBottom s dt mode) eqn:Hbt.
    + cbn [y1 stopAt]. rewrite Hr. lra.
    + cbn [y1]. unfold hitsTop in Ht. unfold hitsBottom in Hbt.
      rewrite Hr in Hbt. num_hyps. lra.
Qed.


(** C5, as amended.  Tension identity: on every tick from an intact
    state of finite numbers whose total inertial mass is not zero, on
    which neither position limit is reached, the returned tensions and
    acceleration satisfy
    [tension1 - tension2 = (mass1 - mass2) g + (mass1 + mass2) a]. *)
Theorem tension_identity_unclamped
        (s : AtwoodState) (dt : Q) (mode : RealityMode) :
  isBroken s = false -> ~ totalInertialMass s == 0 ->
  clamped s dt mode = false ->
  tensionIdentity (updateAtwoodPhysics s dt mode).
Proof.
  intros Hb _ Hc. rewrite (intact_unclamped s dt mode Hb Hc).
  unfold tensionIdentity. cbn. ring.
Qed.

(** a tick that reaches a position limit returns the tensions of its
    input state and a zero acceleration *)
Lemma clamped_keeps_tensions (s : AtwoodState) (dt : Q) (mode : RealityMode) :
  isBroken s = false -> clamped s dt mode = true ->
  let o := updateAtwoodPhysics s dt mode in
  tension1 o = tension1 s /\ tension2 o = tension2 s
  /\ acceleration o = 0 /\ velocity o = 0 /\ time o = time s.
Proof.
  intros Hb Hc. unfold updateAtwoodPhysics, stepIntact. rewrite Hb.
  unfold clamped in Hc.
  destruct (hitsTop s dt mode); [cbn; tauto |].
  cbn [orb] in Hc. rewrite Hc. cbn. tauto.
Qed.

(** C10, as amended.  A tick on a broken machine returns zero velocity,
    acceleration and tensions and a machine that is still broken.  The
    free-fall drift of the tick starts from the velocity stored in its
    input state: both masses move by [(velocity + g dt) dt / 2], less the
    drag in REAL mode, down to 4.5 at most.  That stored velocity is the
    one the input state happens to hold on the first broken tick, and
    zero on every broken tick after it: there the drift is
    [(0 + g dt') dt' / 2], the gravity gained within that tick alone, so
    no speed is carried from one broken tick to the next. *)
Theorem broken_tick_zeroes (s : AtwoodState) (dt : Q) (mode : RealityMode) :
  isBroken s = true ->
  let o := updateAtwoodPhysics s dt mode in
  let v0 := velocity s + GRAVITY * dt in
  let drag := (5 # 10) * airResistance s * (v0 * v0) * AIR_RESISTANCE_SCALE in
  velocity o = 0 /\ acceleration o = 0
  /\ tension1 o = 0 /\ tension2 o = 0
  /\ isBroken o = true
  /\ (mode = IDEAL ->
      y1 o = capFloor (y1 s + v0 * dt * (5 # 10))
      /\ y2 o = capFloor (y2 s + v0 * dt * (5 # 10)))
  /\ (mode = REAL -> ~ mass1 s == 0 -> ~ mass2 s == 0 ->
      y1 o = capFloor (y1 s + (v0 - drag / mass1 s * dt) * dt * (5 # 10))
      /\ y2 o = capFloor (y2 s + (v0 - drag / mass2 s * dt) * dt * (5 # 10)))
  /\ forall dt' : Q,
      let v0' := 0 + GRAVITY * dt' in
      let drag' :=
        (5 # 10) * airResistance s * (v0' * v0') * AIR_RESISTANCE_SCALE in
      (let o' := updateAtwoodPhysics o dt' IDEAL in
       velocity o' = 0
       /\ y1 o' = capFloor (y1 o + v0' * dt' * (5 # 10))
       /\ y2 o' = capFloor (y2 o + v0' * dt' * (5 # 10)))
      /\ (~ mass1 s == 0 -> ~ mass2 s == 0 ->
          let o' := updateAtwoodPhysics o dt' REAL in
          velocity o' = 0
          /\ y1 o'
             = capFloor (y1 o
                         + (v0' - drag' / mass1 s * dt') * dt' * (5 # 10))
          /\ y2 o'
             = capFloor (y2 o
                         + (v0' - drag' / mass2 s * dt') * dt' * (5 # 10))).
Proof.
  intros H o v0 drag.
  assert (Ho : isBroken o = true) by apply (atwood_stays_broken s dt mode H).
  subst o v0 drag. rewrite (broken_step s dt mode H) in *.
  split; [reflexivity |]. split; [reflexivity |].
  split; [reflexivity |]. split; [reflexivity |].
  split; [exact H |].
  split; [intros ->; split; reflexivity |].
  split; [intros -> _ _; split; reflexivity |].
  intros dt'. cbv zeta. split.
  - rewrite (broken_step _ dt' IDEAL Ho). repeat split; reflexivity.
  - intros _ _. rewrite (broken_step _ dt' REAL Ho).
    repeat split; reflexivity.
Qed.

Lemma sign_wd (a b : Q) : a == b -> Num.sign a = Num.sign b.
Proof.
  intros H.
  destruct (NumFacts.sign_spec a) as [[? ->] | [[? ->] | [? ->]]];
    destruct (NumFacts.sign_spec b) as [[? ->] | [[? ->] | [? ->]]];
    try reflexivity; lra.
Qed.

(** a tick of zero length never triggers the zero-crossing reset *)
Lemma stiction_zero_dt (s : AtwoodState) (mode : RealityMode) :
  stiction s 0 mode = false.
Proof.
  unfold stiction. cbn zeta.
  rewrite (sign_wd (velocity s + netForce s mode / totalInertialMass s * 0)
                   (velocity s)) by ring.
  replace (Num.eqb (Num.sign (velocity s)) (Num.sign (velocity s)))
    with true.
  - cbn [negb]. now rewrite andb_false_r.
  - symmetry. apply NumFacts.eqb_true. reflexivity.
Qed.

(** C6, as amended.  A tick of zero length on an intact machine of
    finite numbers whose total inertial mass is not zero, whose [y1] lies
    within the position limits and whose [y2] is the rest of the rope
    leaves [y1], [y2] and [time] as they are; [velocity] is left
    as it is unless the masses are balanced, in which case it is
    multiplied by 0.9; [tension1] and [tension2] are not kept but computed
    anew as [mass1 (g + a)] and [mass2 (g - a)] from the returned
    acceleration [a]. *)
Theorem zero_dt_tick (s : AtwoodState) (mode : RealityMode) :
  isBroken s = false -> ~ totalInertialMass s == 0 ->
  2 # 10 <= y1 s <= ropeLen s - (2 # 10) ->
  y2 s == ropeLen s - y1 s ->
  let o := updateAtwoodPhysics s 0 mode in
  y1 o == y1 s /\ y2 o == y2 s /\ time o == time s
  /\ velocity o
     == (if isBalanced s then velocity s * (90 # 100) else velocity s)
  /\ tension1 o == mass1 s * (GRAVITY + acceleration o)
  /\ tension2 o == mass2 s * (GRAVITY - acceleration o).
Proof.
  intros Hb _ Hy Hy2 o.
  assert (Hv : newVelocity s 0 mode
               == (if isBalanced s then velocity s * (90 # 100)
                   else velocity s)).
  { unfold newVelocity. cbn zeta. rewrite stiction_zero_dt.
    destruct (isBalanced s); ring. }
  assert (Hn : newY1 s 0 mode == y1 s) by (unfold newY1; ring).
  assert (Hc : clamped s 0 mode = false).
  { unfold clamped, hitsTop, hitsBottom. apply orb_false_iff. split.
    - apply NumFacts.ltb_false. lra.
    - apply NumFacts.gtb_false. lra. }
  subst o. rewrite (intact_unclamped s 0 mode Hb Hc). cbn.
  repeat split; try reflexivity; try assumption; try lra.
Qed.

End AtwoodProps.

(** ** The Atwood integrator on concrete machines *)

Module AtwoodExamples.

Import Atwood Examples AtwoodProps.

Lemma scenario_A_witness :
  acceleration (updateAtwoodPhysics INITIAL_ATWOOD (16 # 1000) IDEAL)
  == (981 # 100) / (55 # 10).
Proof.
  apply (AtwoodFacts.scenario_A INITIAL_ATWOOD (16 # 1000));
    reflexivity.
Defined.



(** on the same machine the tensions are NaN as well, so that the
    tension identity read with [===] is false and the two positions do
    not add up to the rope; a tick of zero length has [(0/0) * 0], which
    is NaN again, for its change of velocity *)
Example weightless_tick_is_nan :
  let j := Embed.inject Embed.weightless in
  let o := AtwoodJs.updateAtwoodPhysics j (Js.Fin (16 # 1000)) IDEAL in
  let z := AtwoodJs.updateAtwoodPhysics j (Js.Fin 0) REAL in
  AtwoodJs.tension1 o = Js.NaN
  /\ AtwoodJs.tensionIdentity o = false
  /\ Js.eq (Js.add (AtwoodJs.y1 o) (AtwoodJs.y2 o)) (AtwoodJs.ropeLen o)
     = false
  /\ AtwoodJs.y1 z = Js.NaN /\ AtwoodJs.y2 z = Js.NaN
  /\ AtwoodJs.velocity z = Js.NaN.
Proof. vm_compute. repeat split; reflexivity. Qed.

(** on a broken machine the drag of REAL mode is divided by each mass:
    without air resistance a zero mass gives 0/0, and the position of
    that mass is NaN, of which [y1 <= 4.5] is false *)
Example massless_fall_is_nan :
  let j := Embed.inject Embed.masslessFall in
  let o := AtwoodJs.updateAtwoodPhysics j (Js.Fin (16 # 1000)) REAL in
  AtwoodJs.y1 o = Js.NaN
  /\ Js.le (AtwoodJs.y1 o) (Js.Fin (45 # 10)) = false
  /\ Js.le (AtwoodJs.y2 o) (Js.Fin (45 # 10)) = true.
Proof. vm_compute. repeat split; reflexivity. Qed.

Lemma tension_identity_unclamped_witness :
  tensionIdentity (updateAtwoodPhysics INITIAL_ATWOOD (16 # 1000) REAL).
Proof.
  apply (tension_identity_unclamped INITIAL_ATWOOD (16 # 1000) REAL);
    [reflexivity | | reflexivity].
  intros H. vm_compute in H. discriminate H.
Defined.

(** C5 fails on a tick that reaches a position limit: after a regular
    tick from [nearTop], a second tick stops at the upper limit, keeps
    the tensions of the first tick and reports a zero acceleration. *)
Lemma tension_identity_fails_on_clamp :
  isBroken nearTop = false
  /\ isBroken (runAtwood nearTop [(5 # 1000, IDEAL)]) = false
  /\ isBroken (runAtwood nearTop risingTicks) = false
  /\ ~ tensionIdentity (runAtwood nearTop risingTicks).
Proof.
  repeat split; try reflexivity.
  intros H. vm_compute in H. discriminate H.
Qed.

Lemma zero_dt_tick_witness :
  y1 (updateAtwoodPhysics INITIAL_ATWOOD 0 REAL) == y1 INITIAL_ATWOOD.
Proof.
  refine (proj1 (zero_dt_tick INITIAL_ATWOOD REAL _ _ _ _)).
  - reflexivity.
  - intros H. vm_compute in H. discriminate H.
  - split; vm_compute; discriminate.
  - vm_compute. reflexivity.
Defined.

(** C6 fails on the initial machine of the application: a tick of zero
    length replaces its zero tensions by the computed ones. *)
Lemma zero_dt_changes_tensions :
  ~ (let s := INITIAL_ATWOOD in
     let o := updateAtwoodPhysics s 0 IDEAL in
     y1 o == y1 s /\ y2 o == y2 s /\ velocity o == velocity s
     /\ tension1 o == tension1 s /\ tension2 o == tension2 s
     /\ time o == time s).
Proof.
  cbv zeta. intros (_ & _ & _ & H & _). vm_compute in H. discriminate H.
Qed.

(** a tick of zero length also resets the velocity of a broken machine *)
Example zero_dt_broken :
  ~ velocity (updateAtwoodPhysics snapped 0 IDEAL) == velocity snapped.
Proof. intros H. vm_compute in H. discriminate H. Qed.

(** C10 fails on the first tick after the break.  On the rope of 20 N
    the first tick in REAL mode breaks the rope and stores the velocity it
    computed, 981/34375; the next tick, the first on the broken machine,
    starts its free fall from that velocity and not from zero. *)
Lemma first_broken_tick_keeps_speed :
  let b := updateAtwoodPhysics Cases.thinRope (16 # 1000) REAL in
  let dt := 16 # 1000 in
  isBroken Cases.thinRope = false /\ isBroken b = true
  /\ velocity b == 981 # 34375
  /\ ~ brokenV0 b dt == 0 + GRAVITY * dt
  /\ ~ y1 (updateAtwoodPhysics b dt IDEAL)
       == capFloor (y1 b + (0 + GRAVITY * dt) * dt * (5 # 10)).
Proof.
  cbv zeta. split; [reflexivity |]. split; [reflexivity |].
  split; [vm_compute; reflexivity |].
  split; intros H; vm_compute in H; discriminate H.
Qed.

Lemma broken_tick_zeroes_witness :
  velocity (updateAtwoodPhysics snapped (16 # 1000) REAL) = 0.
Proof.
  refine (proj1 (broken_tick_zeroes snapped (16 # 1000) REAL _)).
  reflexivity.
Defined.

End AtwoodExamples.

(** ** Termination of the traversals *)

Module Traversal.

Import Sandbox Graph.

Lemma size_list_to_set_le (l : list string) :
  (size (list_to_set l : gset string) <= length l)%nat.
Proof.
  induction l as [| a l IH]; [cbn; rewrite size_empty; lia |].
  cbn [list_to_set foldr length]. rewrite size_union_alt, size_singleton.
  assert (H : (list_to_set l : gset string) ∖ {[a]} ⊆ list_to_set l)
    by set_solver.
  apply subseteq_size in H. lia.
Qed.

(** marking an unvisited member of [X] leaves one member less *)
Lemma size_unvisited (X visited : gset string) (i : string) :
  i ∈ X -> i ∉ visited ->
  (S (size (X ∖ ({[i]} ∪ visited))) = size (X ∖ visited))%nat.
Proof.
  intros Hi Hv.
  replace (X ∖ visited) with ({[i]} ∪ (X ∖ ({[i]} ∪ visited))).
  - rewrite (size_union (C:=gset string) {[i]}) by set_solver.
    now rewrite size_singleton.
  - apply set_eq. intros j. destruct (decide (j = i)); set_solver.
Qed.

Lemma ends_length (ropes : list Rope.RopeSegment) :
  length (flat_map (fun r => [Rope.fromId r; Rope.toId r]) ropes)
  = (2 * length ropes)%nat.
Proof. induction ropes as [| r l IH]; cbn in *; lia. Qed.

Section Bfs.

Variable state : SandboxState.
Variable boundaryCheck : string -> bool.

Lemma endpoint_from (r : Rope.RopeSegment) :
  In r (ropeSegments state) -> Rope.fromId r ∈ endpoints state.
Proof.
  intros H. unfold endpoints. apply elem_of_list_to_set, list_elem_of_In.
  apply in_flat_map. exists r. cbn. tauto.
Qed.

Lemma endpoint_to (r : Rope.RopeSegment) :
  In r (ropeSegments state) -> Rope.toId r ∈ endpoints state.
Proof.
  intros H. unfold endpoints. apply elem_of_list_to_set, list_elem_of_In.
  apply in_flat_map. exists r. cbn. tauto.
Qed.

Lemma reach_measure (i : string) (st : gset string * list string) :
  i ∈ endpoints state ->
  bfsMeasure state (reach boundaryCheck i st) = bfsMeasure state st.
Proof.
  intros Hi. unfold reach, bfsMeasure.
  destruct (decide (i ∈ st.1)) as [Hv | Hv]; [reflexivity |].
  destruct (boundaryCheck i); [reflexivity |].
  cbn [fst snd]. rewrite length_app. cbn [length].
  pose proof (size_unvisited (endpoints state) st.1 i Hi Hv). lia.
Qed.

Lemma scanRope_measure (c : string) (r : Rope.RopeSegment)
      (st : gset string * list string) :
  In r (ropeSegments state) ->
  bfsMeasure state (scanRope boundaryCheck c st r) = bfsMeasure state st.
Proof.
  intros Hr. unfold scanRope.
  destruct (String.eqb (Rope.fromId r) c);
    destruct (String.eqb (Rope.toId r) c);
    rewrite ?reach_measure by auto using endpoint_from, endpoint_to;
    reflexivity.
Qed.

Lemma scan_measure (c : string) (ropes : list Rope.RopeSegment) :
  (forall r, In r ropes -> In r (ropeSegments state)) ->
  forall st,
    bfsMeasure state (fold_left (scanRope boundaryCheck c) ropes st)
    = bfsMeasure state st.
Proof.
  induction ropes as [| r ropes IH]; intros Hsub st; [reflexivity |].
  cbn [fold_left]. rewrite IH by (intros; apply Hsub; now right).
  apply scanRope_measure, Hsub. now left.
Qed.

(** the loop ends within any budget that covers the measure *)
Lemma bfsLoop_ends (fuel : nat) :
  forall result visited queue,
    (bfsMeasure state (visited, queue) <= fuel)%nat ->
    exists out, bfsLoop state boundaryCheck fuel result visited queue
                = Some out.
Proof.
  induction fuel as [| fuel IH]; intros result visited queue Hm.
  - destruct queue as [| c rest]; [now exists result |].
    unfold bfsMeasure in Hm. cbn in Hm. lia.
  - destruct queue as [| c rest]; [now exists result |].
    cbn [bfsLoop]. apply IH.
    rewrite <- surjective_pairing.
    rewrite scan_measure by auto.
    unfold bfsMeasure in *. cbn [fst snd length] in *. lia.
Qed.

(** a larger budget does not change the outcome of the loop *)
Lemma bfsLoop_more (fuel : nat) :
  forall result visited queue out,
    bfsLoop state boundaryCheck fuel result visited queue = Some out ->
    forall fuel', (fuel <= fuel')%nat ->
      bfsLoop state boundaryCheck fuel' result visited queue = Some out.
Proof.
  induction fuel as [| fuel IH]; intros result visited queue out H fuel' Hle.
  - destruct queue; [| discriminate H].
    destruct fuel'; exact H.
  - destruct queue as [| c rest]; [destruct fuel'; exact H |].
    destruct fuel' as [| fuel']; [lia |].
    cbn [bfsLoop] in *. apply (IH _ _ _ _ H). lia.
Qed.

Lemma bfsFuel_covers (startIds : list string) :
  (bfsMeasure state (list_to_set startIds, startIds)
   <= bfsFuel state startIds)%nat.
Proof.
  unfold bfsMeasure, bfsFuel. cbn [fst snd].
  assert (H1 : endpoints state ∖ list_to_set startIds ⊆ endpoints state)
    by set_solver.
  apply subseteq_size in H1.
  pose proof (size_list_to_set_le
                (flat_map (fun r => [Rope.fromId r; Rope.toId r])
                          (ropeSegments state))) as H2.
  fold (endpoints state) in H2.
  rewrite ends_length in H2. lia.
Qed.

Lemma findConnectedLoads_total (startIds : list string) :
  exists out,
    findConnectedLoads state boundaryCheck startIds = out
    /\ forall fuel, (bfsFuel state startIds <= fuel)%nat ->
         bfsLoop state boundaryCheck fuel [] (list_to_set startIds)
                 startIds = Some out.
Proof.
  destruct (bfsLoop_ends (bfsFuel state startIds) []
                         (list_to_set startIds) startIds
                         (bfsFuel_covers startIds)) as [out Hout].
  exists out. split.
  - unfold findConnectedLoads. now rewrite Hout.
  - intros fuel Hle. apply (bfsLoop_more _ _ _ _ _ Hout _ Hle).
Qed.

End Bfs.

Section Side.

Variable state : SandboxState.

Lemma ropesAt_length (c : string) :
  (length (ropesAt state c) <= length (ropeSegments state))%nat.
Proof. apply filter_length_le. Qed.

Lemma ropesAt_joins (c : string) (r : Rope.RopeSegment) :
  In r (ropesAt state c) ->
  In r (ropeSegments state) /\ joins r c (otherEnd c r).
Proof.
  unfold ropesAt. rewrite filter_In. intros [Hin Hc].
  split; [exact Hin |]. unfold joins, otherEnd.
  destruct (String.eqb (Rope.fromId r) c) eqn:E.
  - apply String.eqb_eq in E. now left.
  - cbn [orb] in Hc. apply String.eqb_eq in Hc. now right.
Qed.

(** a scan that runs to its end adds at most one id per rope, and
    every id it adds is the id of a load at the other end of one of
    the ropes *)
Lemma sideScan_queue (P : string -> Prop) (c : string)
      (ropes : list Rope.RopeSegment) :
  (forall r, In r ropes -> isLoadId state (otherEnd c r) = true ->
             P (otherEnd c r)) ->
  forall q q',
    (forall i, In i q -> P i) ->
    sideScan state c ropes q = inr q' ->
    (forall i, In i q' -> P i)
    /\ (length q' <= length q + length ropes)%nat.
Proof.
  induction ropes as [| r ropes IH]; intros HP q q' Hq Hs.
  - cbn in Hs. injection Hs as <-. split; [exact Hq | cbn; lia].
  - cbn [sideScan] in Hs. fold (otherEnd c r) in Hs.
    destruct (includes (fixedIds state) (otherEnd c r)).
    { destruct (if String.eqb (Rope.toId r) (otherEnd c r)
                then Rope.toSide r else Rope.fromSide r);
        discriminate Hs. }
    fold (isLoadId state (otherEnd c r)) in Hs.
    destruct (isLoadId state (otherEnd c r)) eqn:El.
    + destruct (IH (fun r' H' => HP r' (or_intror H'))
                   (q ++ [otherEnd c r]) q') as [H1 H2].
      * intros i Hi. apply in_app_or in Hi.
        destruct Hi as [Hi | [<- | []]]; [now apply Hq |].
        apply HP; [now left | exact El].
      * exact Hs.
      * split; [exact H1 |]. rewrite length_app in H2. cbn in *. lia.
    + destruct (IH (fun r' H' => HP r' (or_intror H')) q q' Hq Hs)
        as [H1 H2].
      split; [exact H1 | cbn; lia].
Qed.

(** a scan that returns a side read it on a rope whose other end is a
    fixed pulley *)
Lemma sideScan_returns (c : string) (ropes : list Rope.RopeSegment) :
  forall q side,
    sideScan state c ropes q = inl side ->
    exists r, In r ropes
              /\ includes (fixedIds state) (otherEnd c r) = true
              /\ side = sideAt r (otherEnd c r).
Proof.
  induction ropes as [| r ropes IH]; intros q side Hs; [discriminate Hs |].
  cbn [sideScan] in Hs. fold (otherEnd c r) in Hs.
  destruct (includes (fixedIds state) (otherEnd c r)) eqn:Ef.
  - exists r. split; [now left |]. split; [exact Ef |].
    unfold sideAt.
    destruct (if String.eqb (Rope.toId r) (otherEnd c r)
              then Rope.toSide r else Rope.fromSide r);
      now injection Hs as <-.
  - destruct (existsb _ (loads state));
      destruct (IH _ _ Hs) as (r' & Hin & Hf & Hside);
      exists r'; (split; [now right | split; assumption]).
Qed.

Variable start : string.

Lemma isLoadId_candidate (i : string) :
  isLoadId state i = true -> i ∈ candidates state start.
Proof.
  unfold isLoadId, candidates. rewrite existsb_exists.
  intros (l & Hl & E). apply String.eqb_eq in E. subst i.
  apply elem_of_union_r, elem_of_list_to_set, list_elem_of_In.
  now apply in_map.
Qed.

(** the walk ends within any budget that covers the measure *)
Lemma sideLoop_ends (fuel : nat) :
  forall visited q,
    (forall i, In i q -> i ∈ candidates state start) ->
    (sideMeasure state start visited q <= fuel)%nat ->
    exists side, sideLoop state fuel visited q = Some side.
Proof.
  induction fuel as [| fuel IH]; intros visited q Hq Hm.
  - destruct q as [| c rest]; [now exists 0 |].
    unfold sideMeasure in Hm. cbn in Hm. lia.
  - destruct q as [| c rest]; [now exists 0 |].
    cbn [sideLoop].
    assert (Hrest : forall i, In i rest -> i ∈ candidates state start)
      by (intros i Hi; apply Hq; now right).
    destruct (decide (c ∈ visited)) as [Hv | Hv].
    + apply IH; [exact Hrest |].
      unfold sideMeasure in *. cbn [length] in Hm. lia.
    + destruct (sideScan state c (ropesAt state c) rest) as [side | q']
        eqn:Es; [now exists side |].
      destruct (sideScan_queue (fun i => i ∈ candidates state start) c
                               (ropesAt state c)
                               (fun r _ H => isLoadId_candidate _ H)
                               rest q' Hrest Es) as [Hq' Hlen].
      apply IH; [exact Hq' |].
      pose proof (ropesAt_length c) as HR.
      pose proof (size_unvisited (candidates state start) visited c
                                 (Hq c (or_introl eq_refl)) Hv) as Hsz.
      unfold sideMeasure in *. cbn [length] in Hm.
      rewrite <- Hsz in Hm. nia.
Qed.

(** a larger budget does not change the outcome of the walk *)
Lemma sideLoop_more (fuel : nat) :
  forall visited q side,
    sideLoop state fuel visited q = Some side ->
    forall fuel', (fuel <= fuel')%nat ->
                  sideLoop state fuel' visited q = Some side.
Proof.
  induction fuel as [| fuel IH]; intros visited q side H fuel' Hle.
  - destruct q; [| discriminate H]. destruct fuel'; exact H.
  - destruct q as [| c rest]; [destruct fuel'; exact H |].
    destruct fuel' as [| fuel']; [lia |].
    cbn [sideLoop] in *.
    destruct (decide (c ∈ visited)).
    + apply (IH _ _ _ H). lia.
    + destruct (sideScan state c (ropesAt state c) rest);
        [exact H | apply (IH _ _ _ H); lia].
Qed.

(** the side returned by the walk is [0], or was read on a rope that
    joins an id linked to the start with a fixed pulley *)
Lemma sideLoop_sound (fuel : nat) :
  forall visited q side,
    (forall i, In i q -> linked state start i) ->
    sideLoop state fuel visited q = Some side ->
    side = 0
    \/ exists c r,
        linked state start c /\ In r (ropeSegments state)
        /\ joins r c (otherEnd c r)
        /\ includes (fixedIds state) (otherEnd c r) = true
        /\ side = sideAt r (otherEnd c r).
Proof.
  induction fuel as [| fuel IH]; intros visited q side Hq H.
  - destruct q; [| discriminate H]. injection H as <-. now left.
  - destruct q as [| c rest]; [injection H as <-; now left |].
    cbn [sideLoop] in H.
    assert (Hc : linked state start c) by (apply Hq; now left).
    assert (Hrest : forall i, In i rest -> linked state start i)
      by (intros i Hi; apply Hq; now right).
    destruct (decide (c ∈ visited)); [apply (IH _ _ _ Hrest H) |].
    destruct (sideScan state c (ropesAt state c) rest) as [sd | q']
      eqn:Es.
    + injection H as <-.
      destruct (sideScan_returns _ _ _ _ Es) as (r & Hin & Hf & Hsd).
      destruct (ropesAt_joins c r Hin) as [Hr Hj].
      right. exists c, r. tauto.
    + refine (IH _ _ _ _ H).
      apply (sideScan_queue (linked state start) c (ropesAt state c))
        with (q := rest); [| exact Hrest | exact Es].
      intros r Hin _. destruct (ropesAt_joins c r Hin) as [Hr Hj].
      apply (linked_next state start c _ r Hc Hr Hj).
Qed.

Lemma sideFuel_covers :
  (sideMeasure state start ∅ [start] <= sideFuel state)%nat.
Proof.
  unfold sideMeasure, sideFuel. cbn [length].
  assert (H : (size (candidates state start ∖ ∅)
               <= 1 + length (loads state))%nat).
  { assert (H1 : candidates state start ∖ ∅ ⊆ candidates state start)
      by set_solver.
    apply subseteq_size in H1. unfold candidates in H1 at 2.
    rewrite (size_union_alt (C:=gset string) {[start]}),
      size_singleton in H1.
    assert (H2 : (list_to_set (map Load.id (loads state)) : gset string)
                   ∖ {[start]}
                 ⊆ list_to_set (map Load.id (loads state)))
      by set_solver.
    apply subseteq_size in H2.
    pose proof (size_list_to_set_le (map Load.id (loads state))) as H3.
    rewrite length_map in H3. lia. }
  nia.
Qed.

Lemma getSide_total :
  exists side,
    getSide state start = side
    /\ forall fuel, (sideFuel state <= fuel)%nat ->
                    sideLoop state fuel ∅ [start] = Some side.
Proof.
  destruct (sideLoop_ends (sideFuel state) ∅ [start]) as [side Hs].
  - intros i [<- | []]. unfold candidates. set_solver.
  - apply sideFuel_covers.
  - exists side. split.
    + unfold getSide. now rewrite Hs.
    + intros fuel Hle. apply (sideLoop_more _ _ _ _ Hs _ Hle).
Qed.

Lemma getSide_sound :
  getSide state start = 0
  \/ exists c r,
      linked state start c /\ In r (ropeSegments state)
      /\ joins r c (otherEnd c r)
      /\ includes (fixedIds state) (otherEnd c r) = true
      /\ getSide state start = sideAt r (otherEnd c r).
Proof.
  destruct getSide_total as (side & Hg & Hl). rewrite Hg.
  apply (sideLoop_sound (sideFuel state) ∅ [start] side).
  - intros i [<- | []]. constructor.
  - apply Hl. lia.
Qed.

(** when no fixed pulley is linked to the start, the walk returns 0 *)
Lemma getSide_unanchored :
  (forall t, linked state start t -> includes (fixedIds state) t = false) ->
  getSide state start = 0.
Proof.
  intros Hno. destruct getSide_sound as [H | (c & r & Hc & Hr & Hj & Hf & _)];
    [exact H |].
  rewrite (Hno _ (linked_next state start c _ r Hc Hr Hj)) in Hf.
  discriminate Hf.
Qed.

End Side.

End Traversal.

(** ** The walk of [getSide] is breadth-first *)

Module Nearest.

Import Sandbox Graph Traversal.

Section Nearest.

Variable state : SandboxState.

(** what a scan of the ropes at [c] does: it returns on the first rope
    to a fixed pulley, and otherwise pushes the loads at the other ends *)
Lemma sideScan_spec (c : string) (ropes : list Rope.RopeSegment) :
  forall q,
    sideScan state c ropes q
    = match find (fun r => includes (fixedIds state) (otherEnd c r)) ropes
      with
      | Some r => inl (sideAt r (otherEnd c r))
      | None => inr (q ++ loadNeighbours state c ropes)
      end.
Proof.
  induction ropes as [| r ropes IH]; intros q.
  - cbn. now rewrite app_nil_r.
  - cbn [sideScan find]. fold (otherEnd c r).
    destruct (includes (fixedIds state) (otherEnd c r)) eqn:Ef.
    + unfold sideAt.
      now destruct (if String.eqb (Rope.toId r) (otherEnd c r)
                    then Rope.toSide r else Rope.fromSide r).
    + fold (isLoadId state (otherEnd c r)).
      unfold loadNeighbours. cbn [List.filter].
      destruct (isLoadId state (otherEnd c r)); rewrite IH;
        destruct (find _ ropes); try reflexivity.
      cbn [map]. unfold loadNeighbours. now rewrite <- app_assoc.
Qed.

Lemma loadNeighbours_In (c i : string) (ropes : list Rope.RopeSegment) :
  In i (loadNeighbours state c ropes)
  <-> exists r, In r ropes /\ isLoadId state (otherEnd c r) = true
                /\ i = otherEnd c r.
Proof.
  unfold loadNeighbours. rewrite in_map_iff. split.
  - intros (r & <- & Hr). apply filter_In in Hr. exists r. tauto.
  - intros (r & Hr & Hl & ->). exists r. split; [reflexivity |].
    apply filter_In. tauto.
Qed.

Variable start : string.

Lemma within_more (n : nat) (c : string) :
  within state start n c -> within state start (S n) c.
Proof.
  induction 1 as [n | n b r _ IH Hr Hl]; [constructor |].
  now apply within_hop.
Qed.

Lemma within_le (n m : nat) (c : string) :
  (n <= m)%nat -> within state start n c -> within state start m c.
Proof.
  induction 1 as [| m _ IH]; [trivial |]. intros H. apply within_more, IH, H.
Qed.

Lemma within_zero (c : string) : within state start 0 c -> c = start.
Proof. inversion 1. reflexivity. Qed.

Lemma walk_start : walkInvariant state start 0 ∅ [start] [].
Proof.
  split.
  - intros v Hv. set_solver.
  - intros i [<- | []]. constructor.
  - intros i [].
  - intros c Hc. right. left. symmetry. now apply within_zero.
  - intros v r Hv. set_solver.
  - intros m c Hm. lia.
Qed.

(** when the ids at most [k] hops away are used up, the queue holds ids
    at most [k + 1] hops away *)
Lemma walk_level (k : nat) (visited : gset string) (qb : list string) :
  walkInvariant state start k visited [] qb ->
  walkInvariant state start (S k) visited qb [].
Proof.
  intros [Hv Hn Hx Hl Hc Hb].
  assert (Hall : forall c, within state start k c -> c ∈ visited).
  { intros c H. destruct (Hl c H) as [H' | []]. exact H'. }
  split.
  - intros v H. destruct (Hv v H) as [H1 H2].
    split; [now apply within_more | exact H2].
  - exact Hx.
  - intros i [].
  - intros c H. inversion H as [n | n b r Hb' Hr Hload]; subst.
    + left. apply Hall. constructor.
    + destruct (Hc b r (Hall b Hb') Hr Hload) as [H' | H'];
        [now left | now right].
  - intros v r H Hr Hload. rewrite app_nil_r.
    destruct (Hc v r H Hr Hload) as [H' | H']; [now left | now right].
  - intros m c Hm H. apply Hall. apply (within_le m k); [lia | exact H].
Qed.

(** an id that was expanded before is dropped from the queue *)
Lemma walk_skip (k : nat) (visited : gset string) (c : string)
      (qa qb : list string) :
  walkInvariant state start k visited (c :: qa) qb ->
  c ∈ visited ->
  walkInvariant state start k visited qa qb.
Proof.
  intros [Hv Hn Hx Hl Hc Hb] Hin. split.
  - exact Hv.
  - intros i Hi. apply Hn. now right.
  - exact Hx.
  - intros x H. destruct (Hl x H) as [H' | [<- | H']];
      [now left | now left | now right].
  - intros v r H Hr Hload.
    destruct (Hc v r H Hr Hload) as [H' | [E | H']];
      [now left | left; now rewrite <- E | now right].
  - exact Hb.
Qed.

(** an id without a rope to a fixed pulley is expanded: the loads at
    the other ends of its ropes join the queue *)
Lemma walk_expand (k : nat) (visited : gset string) (c : string)
      (qa qb : list string) :
  walkInvariant state start k visited (c :: qa) qb ->
  fixedRope state c = None ->
  walkInvariant state start k ({[c]} ∪ visited) qa
                (qb ++ loadNeighbours state c (ropesAt state c)).
Proof.
  intros [Hv Hn Hx Hl Hc Hb] Hnone.
  assert (Hk : within state start k c) by (apply Hn; now left).
  split.
  - intros v H. apply elem_of_union in H. destruct H as [H | H].
    + apply elem_of_singleton in H. subst v. now split.
    + now apply Hv.
  - intros i Hi. apply Hn. now right.
  - intros i Hi. apply in_app_or in Hi. destruct Hi as [Hi | Hi].
    + now apply Hx.
    + apply loadNeighbours_In in Hi. destruct Hi as (r & Hr & Hload & ->).
      now apply within_hop.
  - intros x H. destruct (Hl x H) as [H' | [<- | H']].
    + left. set_solver.
    + left. set_solver.
    + now right.
  - intros v r H Hr Hload. apply elem_of_union in H.
    destruct H as [H | H].
    + apply elem_of_singleton in H. subst v. right.
      apply in_or_app. right. apply in_or_app. right.
      apply loadNeighbours_In. exists r. tauto.
    + destruct (Hc v r H Hr Hload) as [H' | [E | H']].
      * left. set_solver.
      * left. rewrite <- E. set_solver.
      * right. apply in_app_or in H'. apply in_or_app.
        destruct H' as [H' | H']; [now left | right].
        apply in_or_app. now left.
  - intros m x Hm H. apply elem_of_union_r. now apply (Hb m).
Qed.

(** when the queue is empty every id that can be reached through loads
    was expanded *)
Lemma walk_done (k : nat) (visited : gset string) :
  walkInvariant state start k visited [] [] ->
  forall n c, within state start n c -> fixedRope state c = None.
Proof.
  intros [Hv Hn Hx Hl Hc Hb] n c H.
  assert (Hin : c ∈ visited).
  { induction H as [n | n b r _ IH Hr Hload].
    - destruct (Hl start (within_start state start k)) as [H' | []].
      exact H'.
    - destruct (Hc b r IH Hr Hload) as [H' | []]. exact H'. }
  apply (Hv c Hin).
Qed.

(** the walk returns the side read on the first rope to a fixed pulley
    at an id that is nearest to the start among the ids with such a rope,
    or it returns 0 when there is none *)
Lemma sideLoop_nearest (fuel : nat) :
  forall k visited qa qb side,
    walkInvariant state start k visited qa qb ->
    sideLoop state fuel visited (qa ++ qb) = Some side ->
    (exists n c r,
        within state start n c /\ fixedRope state c = Some r
        /\ (forall m c', (m < n)%nat -> within state start m c' ->
                         fixedRope state c' = None)
        /\ side = sideAt r (otherEnd c r))
    \/ ((forall n c, within state start n c -> fixedRope state c = None)
        /\ side = 0).
Proof.
  induction fuel as [| fuel IH]; intros k visited qa qb side Hinv Hs.
  - destruct qa as [| c qa]; [destruct qb as [| c qb] |];
      try discriminate Hs.
    injection Hs as <-. right. split; [| reflexivity].
    apply (walk_done k visited Hinv).
  - assert (Hshape :
              (qa = [] /\ qb = [])
              \/ exists k' c qa' qb',
                  qa ++ qb = c :: qa' ++ qb'
                  /\ walkInvariant state start k' visited (c :: qa') qb').
    { destruct qa as [| c qa].
      - destruct qb as [| c qb]; [now left |]. right.
        exists (S k), c, qb, []. split; [now rewrite app_nil_r |].
        now apply walk_level.
      - right. exists k, c, qa, qb. split; [reflexivity | exact Hinv]. }
    destruct Hshape as [[-> ->] | (k' & c & qa' & qb' & E & Hinv')].
    + injection Hs as <-. right. split; [| reflexivity].
      apply (walk_done k visited Hinv).
    + rewrite E in Hs. cbn [sideLoop] in Hs.
      destruct (decide (c ∈ visited)) as [Hin | Hout].
      * apply (IH k' visited qa' qb' side); [| exact Hs].
        now apply (walk_skip k' visited c).
      * rewrite sideScan_spec in Hs. fold (fixedRope state c) in Hs.
        destruct (fixedRope state c) as [r |] eqn:Ef.
        -- injection Hs as <-. left. exists k', c, r.
           split; [apply (wi_now _ _ _ _ _ _ Hinv'); now left |].
           split; [exact Ef |]. split; [| reflexivity].
           intros m c' Hm Hc'.
           apply (wi_visited _ _ _ _ _ _ Hinv').
           apply (wi_below _ _ _ _ _ _ Hinv' m c' Hm Hc').
        -- rewrite <- app_assoc in Hs.
           apply (IH k' ({[c]} ∪ visited) qa'
                     (qb' ++ loadNeighbours state c (ropesAt state c))
                     side); [| exact Hs].
           now apply walk_expand.
Qed.

Lemma getSide_nearest :
  (exists n c r,
      within state start n c /\ fixedRope state c = Some r
      /\ (forall m c', (m < n)%nat -> within state start m c' ->
                       fixedRope state c' = None)
      /\ getSide state start = sideAt r (otherEnd c r))
  \/ ((forall n c, within state start n c -> fixedRope state c = None)
      /\ getSide state start = 0).
Proof.
  destruct (getSide_total state start) as (side & Hg & Hl). rewrite Hg.
  apply (sideLoop_nearest (sideFuel state) 0 ∅ [start] [] side).
  - apply walk_start.
  - cbn [app]. apply Hl. lia.
Qed.

(** a rope from the start itself to a fixed pulley decides the side *)
Lemma getSide_direct (r : Rope.RopeSegment) :
  fixedRope state start = Some r ->
  getSide state start = sideAt r (otherEnd start r).
Proof.
  intros Hr.
  destruct getSide_nearest as [(n & c & r' & Hc & Hf & Hmin & Hs) | [Hno _]].
  - destruct n as [| n].
    + apply within_zero in Hc. subst c. rewrite Hr in Hf.
      injection Hf as <-. exact Hs.
    + rewrite (Hmin 0%nat start) in Hr; [discriminate Hr | lia |].
      constructor.
  - rewrite (Hno 0%nat start) in Hr; [discriminate Hr | constructor].
Qed.

End Nearest.

End Nearest.

(** ** The outcomes of the steps *)

Module Totality.

Import Sandbox Graph Traversal.

Section Outcomes.

Variable argLimit : nat.
Variable fuel : nat.
Variable s : SandboxState.

Hypothesis enough : (Run.stepFuel s <= fuel)%nat.

Lemma run_findConnectedLoads_movable :
  Run.findConnectedLoads fuel s (isFixedOrAnchor s) (movableIds s)
  = Some (findConnectedLoads s (isFixedOrAnchor s) (movableIds s)).
Proof.
  destruct (findConnectedLoads_total s (isFixedOrAnchor s) (movableIds s))
    as (out & <- & Hout).
  apply Hout. unfold Run.stepFuel in enough. lia.
Qed.

Lemma run_findConnectedLoads_fixed :
  Run.findConnectedLoads fuel s (isMovable s) (fixedIds s ++ anchorIds s)
  = Some (findConnectedLoads s (isMovable s) (fixedIds s ++ anchorIds s)).
Proof.
  destruct (findConnectedLoads_total s (isMovable s)
                                     (fixedIds s ++ anchorIds s))
    as (out & <- & Hout).
  apply Hout. unfold Run.stepFuel in enough. lia.
Qed.

Lemma run_getSide (start : string) :
  Run.getSide fuel s start = Some (getSide s start).
Proof.
  destruct (getSide_total s start) as (side & <- & Hside).
  apply Hside. unfold Run.stepFuel in enough. lia.
Qed.

(** the pushes of the [forEach] build the two filtered lists *)
Lemma place_fold (ls : list Load.LoadObject) :
  forall A B,
    fold_left (Run.place fuel s) ls (Some (A, B))
    = Some (A ++ List.filter
                   (fun l => let side := getSide s (Load.id l) in
                             Num.eqb side (-1) || Num.eqb side 0) ls,
            B ++ List.filter
                   (fun l => let side := getSide s (Load.id l) in
                             negb (Num.eqb side (-1) || Num.eqb side 0)
                             && Num.eqb side 1) ls).
Proof.
  induction ls as [| l ls IH]; intros A B.
  - cbn. now rewrite !app_nil_r.
  - cbn [fold_left Run.place List.filter]. rewrite run_getSide. cbv zeta.
    destruct (Num.eqb (getSide s (Load.id l)) (-1)
              || Num.eqb (getSide s (Load.id l)) 0); cbn [negb andb].
    + rewrite IH. now rewrite <- app_assoc.
    + destruct (Num.eqb (getSide s (Load.id l)) 1); rewrite IH;
        [now rewrite <- app_assoc | reflexivity].
Qed.

Lemma run_groups : Run.groups fuel s = Some (loadGroupA s, loadGroupB s).
Proof.
  unfold Run.groups, loadGroupA, loadGroupB.
  destruct (Nat.ltb 0 (length (movableIds s))) eqn:E.
  - rewrite run_findConnectedLoads_movable, run_findConnectedLoads_fixed.
    unfold loadGroupA. rewrite E. reflexivity.
  - now rewrite place_fold.
Qed.

Lemma run_ceilingY :
  Run.ceilingY argLimit s
  = if Nat.ltb 0 (length (fixedPulleys s))
       && Nat.ltb argLimit (length (fixedPulleys s))
    then Run.RangeError
    else Run.Returned (ceilingY s).
Proof.
  unfold Run.ceilingY, Run.spreadMax, ceilingY. rewrite length_map.
  destruct (Nat.ltb 0 (length (fixedPulleys s))); [| reflexivity].
  now destruct (Nat.ltb argLimit (length (fixedPulleys s))).
Qed.

End Outcomes.

(** C8, as amended.  Totality: [updateAtwoodPhysics] always returns.  In
    [updateSandboxPhysics] the two traversals end: with a budget of
    iterations computed from the sizes of the state no loop runs out, the
    breadth-first search of [findConnectedLoads] and the walk of
    [getSide] return the values the step uses, and so does the topology
    analysis built from them.  The step then returns a state when the
    user is dragging or when the fixed pulleys are no more than the
    arguments the engine accepts in one call; with more fixed pulleys than
    that, and no dragging, [Math.max(...)] raises a [RangeError]. *)
Theorem steps_are_total_within_limit
        (sqrt : Q -> Q) (argLimit fuel : nat)
        (a : AtwoodState) (s : SandboxState) (dt : Q) (mode : RealityMode) :
  (Run.stepFuel s <= fuel)%nat ->
  Run.updateAtwoodPhysics a dt mode
  = Run.Returned (Atwood.updateAtwoodPhysics a dt mode)
  /\ (forall (boundaryCheck : string -> bool) (startIds : list string),
        (bfsFuel s startIds <= fuel)%nat ->
        Run.findConnectedLoads fuel s boundaryCheck startIds
        = Some (findConnectedLoads s boundaryCheck startIds))
  /\ (forall start : string,
        Run.getSide fuel s start = Some (getSide s start))
  /\ Run.groups fuel s = Some (loadGroupA s, loadGroupB s)
  /\ ((length (fixedPulleys s) <= argLimit)%nat ->
      Run.ceilingY argLimit s = Run.Returned (ceilingY s))
  /\ (isDragging s = true \/ (length (fixedPulleys s) <= argLimit)%nat ->
      Run.updateSandboxPhysics argLimit fuel s sqrt dt mode
      = Run.Returned (updateSandboxPhysics sqrt s dt mode))
  /\ (isDragging s = false ->
      (argLimit < length (fixedPulleys s))%nat ->
      Run.updateSandboxPhysics argLimit fuel s sqrt dt mode
      = Run.RangeError).
Proof.
  intros Hf. split; [reflexivity |].
  split.
  { intros boundaryCheck startIds Hle.
    destruct (findConnectedLoads_total s boundaryCheck startIds)
      as (out & <- & Hout).
    now apply Hout. }
  split; [intros start; now apply run_getSide |].
  pose proof (run_groups fuel s Hf) as Hg.
  split; [exact Hg |].
  split.
  { intros Hle. rewrite run_ceilingY.
    replace (Nat.ltb argLimit (length (fixedPulleys s))) with false
      by (symmetry; apply Nat.ltb_ge; exact Hle).
    now rewrite andb_false_r. }
  unfold Run.updateSandboxPhysics. rewrite Hg, run_ceilingY. split.
  - intros [Hd | Hle].
    + rewrite Hd. unfold updateSandboxPhysics. now rewrite Hd.
    + destruct (isDragging s) eqn:Hd.
      * unfold updateSandboxPhysics. now rewrite Hd.
      * replace (Nat.ltb argLimit (length (fixedPulleys s))) with false.
        -- now rewrite andb_false_r.
        -- symmetry. apply Nat.ltb_ge. exact Hle.
  - intros Hd Hlt. rewrite Hd.
    replace (Nat.ltb argLimit (length (fixedPulleys s))) with true
      by (symmetry; apply Nat.ltb_lt; exact Hlt).
    replace (Nat.ltb 0 (length (fixedPulleys s))) with true
      by (symmetry; apply Nat.ltb_lt; lia).
    reflexivity.
Qed.

Lemma crowded_raises (sqrt : Q -> Q) (argLimit fuel : nat) (dt : Q)
      (mode : RealityMode) :
  Run.updateSandboxPhysics argLimit fuel (Cases.crowded argLimit) sqrt dt
                           mode
  = Run.RangeError.
Proof.
  unfold Run.updateSandboxPhysics, Run.groups, Run.ceilingY, Run.spreadMax.
  cbn [isDragging Cases.crowded Examples.rig movableIds movablePulleys map
       length Nat.ltb Nat.leb connectedLoads loads List.filter fold_left
       fixedPulleys].
  rewrite length_map. cbn [length]. rewrite repeat_length.
  rewrite Nat.leb_refl. reflexivity.
Qed.

End Totality.

(** ** The sandbox integrator *)

Module SandboxProps.

Import Sandbox Graph Traversal.

(** C9. While the user drags, a tick returns the state it was given:
    no field changes. *)
Theorem dragging_is_identity (sqrt : Q -> Q) (s : SandboxState) (dt : Q)
        (mode : RealityMode) :
  isDragging s = true -> updateSandboxPhysics sqrt s dt mode = s.
Proof. intros H. unfold updateSandboxPhysics. now rewrite H. Qed.

Lemma isBroken'_of_broken (s : SandboxState) (mode : RealityMode) (dt : Q) :
  isBroken s = true -> isBroken' s mode dt = true.
Proof.
  intros H. unfold isBroken'. rewrite H. cbn [negb]. now rewrite andb_false_r.
Qed.

Lemma sandbox_stays_broken (sqrt : Q -> Q) (s : SandboxState) (dt : Q)
      (mode : RealityMode) :
  isBroken s = true -> isBroken (updateSandboxPhysics sqrt s dt mode) = true.
Proof.
  intros H. unfold updateSandboxPhysics.
  destruct (isDragging s); [exact H |].
  cbn [isBroken]. now apply isBroken'_of_broken.
Qed.

Lemma runSandbox_stays_broken (sqrt : Q -> Q)
      (ticks : list (Q * RealityMode)) :
  forall s, isBroken s = true -> isBroken (runSandbox sqrt s ticks) = true.
Proof.
  induction ticks as [| [dt mode] ticks IH]; intros s H; [exact H |].
  apply IH, sandbox_stays_broken, H.
Qed.

(** *** The partition without movable pulleys *)

Lemma roped_connected (s : SandboxState) (l : Load.LoadObject) :
  In l (connectedLoads s) <-> In l (loads s) /\ roped s (Load.id l).
Proof.
  unfold connectedLoads, roped. rewrite filter_In, existsb_exists.
  split; intros [Hl (r & Hr & H)]; (split; [exact Hl |]); exists r;
    (split; [exact Hr |]).
  - apply orb_true_iff in H. now rewrite !String.eqb_eq in H.
  - apply orb_true_iff. now rewrite !String.eqb_eq.
Qed.

Lemma groupA_without_movable (s : SandboxState) (l : Load.LoadObject) :
  movablePulleys s = [] ->
  In l (loadGroupA s)
  <-> In l (loads s) /\ roped s (Load.id l)
      /\ (getSide s (Load.id l) == -1 \/ getSide s (Load.id l) == 0).
Proof.
  intros Hm. unfold loadGroupA, movableIds. rewrite Hm. cbn [map length Nat.ltb Nat.leb].
  rewrite filter_In, roped_connected, orb_true_iff.
  rewrite !NumFacts.eqb_true. tauto.
Qed.

Lemma groupB_without_movable (s : SandboxState) (l : Load.LoadObject) :
  movablePulleys s = [] ->
  In l (loadGroupB s)
  <-> In l (loads s) /\ roped s (Load.id l) /\ getSide s (Load.id l) == 1.
Proof.
  intros Hm. unfold loadGroupB, movableIds. rewrite Hm. cbn [map length Nat.ltb Nat.leb].
  rewrite filter_In, roped_connected, andb_true_iff, negb_true_iff,
    orb_false_iff.
  rewrite !NumFacts.eqb_true, !NumFacts.eqb_false.
  split; [tauto |]. intros (Hl & Hr & H1). repeat split; try assumption;
    rewrite H1; intros H; vm_compute in H; discriminate H.
Qed.

Lemma roped_dec (s : SandboxState) (i : string) :
  roped s i \/ ~ roped s i.
Proof.
  destruct (existsb (fun r => String.eqb (Rope.fromId r) i
                              || String.eqb (Rope.toId r) i)
                    (ropeSegments s)) eqn:E.
  - left. apply existsb_exists in E. destruct E as (r & Hr & H).
    exists r. split; [exact Hr |].
    apply orb_true_iff in H. now rewrite !String.eqb_eq in H.
  - right. intros (r & Hr & H).
    assert (E' : existsb (fun r => String.eqb (Rope.fromId r) i
                                   || String.eqb (Rope.toId r) i)
                         (ropeSegments s) = true).
    { apply existsb_exists. exists r. split; [exact Hr |].
      apply orb_true_iff. now rewrite !String.eqb_eq. }
    rewrite E' in E. discriminate E.
Qed.

(** C7, as amended.  Without movable pulleys the side of a load is found
    by a breadth-first walk from the load along rope segments, through
    loads only.  The walk returns the tangent side recorded (-1 when none
    is recorded) at the fixed pulley on the first rope, in rope order,
    that joins a fixed pulley to an id [c] at most [n] hops from the load,
    no id fewer than [n] hops away having a rope to a fixed pulley; it
    returns 0 when no id that can be reached has such a rope.  In
    particular a rope from the load itself to a fixed pulley decides.  A
    load is placed in GroupA exactly when a rope touches it and its side
    is -1 or 0, and in GroupB exactly when a rope touches it and its side
    is 1; it belongs to neither group exactly when no rope touches it or
    its side is none of -1, 0 and 1. *)
Theorem partition_without_movable (s : SandboxState)
        (l : Load.LoadObject) :
  movablePulleys s = [] -> In l (loads s) ->
  let start := Load.id l in
  let side := getSide s start in
  ((exists n c r,
       within s start n c /\ fixedRope s c = Some r
       /\ (forall m c', (m < n)%nat -> within s start m c' ->
                        fixedRope s c' = None)
       /\ side = sideAt r (otherEnd c r))
   \/ ((forall n c, within s start n c -> fixedRope s c = None)
       /\ side = 0))
  /\ (forall r, fixedRope s start = Some r ->
                side = sideAt r (otherEnd start r))
  /\ (In l (loadGroupA s)
      <-> roped s start /\ (side == -1 \/ side == 0))
  /\ (In l (loadGroupB s) <-> roped s start /\ side == 1)
  /\ (~ In l (loadGroupA s) /\ ~ In l (loadGroupB s)
      <-> ~ roped s start
          \/ (~ side == -1 /\ ~ side == 0 /\ ~ side == 1)).
Proof.
  intros Hm Hl start side.
  pose proof (groupA_without_movable s l Hm) as HA.
  pose proof (groupB_without_movable s l Hm) as HB.
  fold start in HA, HB. fold side in HA, HB.
  split; [apply Nearest.getSide_nearest |].
  split; [apply Nearest.getSide_direct |].
  split; [tauto |]. split; [tauto |].
  destruct (roped_dec s start) as [Hr | Hr]; [| tauto].
  destruct (Qeq_dec side (-1)) as [H1 | H1]; [tauto |].
  destruct (Qeq_dec side 0) as [H0 | H0]; [tauto |].
  destruct (Qeq_dec side 1) as [H2 | H2]; tauto.
Qed.

End SandboxProps.

(** ** Breakage, for both integrators *)

Module Breakage.

(** C3. Breakage monotonicity: a tick of either integrator on a broken
    state, with any time slice and in any mode, returns a broken state,
    and so does any sequence of ticks: nothing in the integrators leads
    back from broken to intact. *)
Theorem breakage_is_terminal (sqrt : Q -> Q) (a : AtwoodState)
        (s : Sandbox.SandboxState) (dt : Q) (mode : RealityMode)
        (ticks : list (Q * RealityMode)) :
  (isBroken a = true ->
   isBroken (Atwood.updateAtwoodPhysics a dt mode) = true
   /\ isBroken (runAtwood a ticks) = true)
  /\ (Sandbox.isBroken s = true ->
      Sandbox.isBroken (Sandbox.updateSandboxPhysics sqrt s dt mode) = true
      /\ Sandbox.isBroken (runSandbox sqrt s ticks) = true).
Proof.
  split; intros H; split.
  - now apply AtwoodProps.atwood_stays_broken.
  - now apply AtwoodProps.runAtwood_stays_broken.
  - now apply SandboxProps.sandbox_stays_broken.
  - now apply SandboxProps.runSandbox_stays_broken.
Qed.

End Breakage.

(** ** The force model of the sandbox *)

Module SandboxForces.

Import Sandbox.

Lemma abs_zero_small (v b : Q) : v == 0 -> 0 < b ->
  Num.gtb (Num.abs v) b = false.
Proof.
  intros Hv Hb. apply NumFacts.gtb_false.
  destruct (NumFacts.abs_spec v) as [[? ?] | [? ?]]; lra.
Qed.

Lemma sandbox_frictionless (s : SandboxState) (mode : RealityMode) :
  friction s == 0 -> frictionForce s mode = 0.
Proof.
  intros H. unfold frictionForce. num_case; [lra | reflexivity].
Qed.

(** with no friction and the system at rest, in IDEAL mode, the net
    force is the centred static drive *)
Lemma NetForce_ideal_at_rest (s : SandboxState) :
  friction s == 0 -> loadVelocity s == 0 ->
  NetForce s IDEAL == NetForceCentered s IDEAL.
Proof.
  intros Hf Hv. unfold NetForce, NetForceFriction. cbn [is_real andb].
  rewrite (sandbox_frictionless s IDEAL Hf).
  rewrite (abs_zero_small (loadVelocity s) (1 # 100) Hv) by reflexivity.
  num_case; [| lra].
  destruct (NumFacts.abs_spec (NetForceCentered s IDEAL))
    as [[? ?] | [? ?]]; lra.
Qed.

(** C2. Scenario B: an intact sandbox with one movable and one fixed
    pulley, an empty GroupB, an effort of 50, one load of mass 10 in
    GroupA, no friction and no velocity, in IDEAL mode, has mechanical
    advantage 2, effective mass 0 + 10/4 + 1 = 3.5, net force
    50 - (10 * 9.81)/2 = 0.95 and acceleration 0.95/3.5, which is 0.271
    to three decimals. *)
Theorem scenario_B (s : SandboxState) (l : Load.LoadObject) :
  isBroken s = false ->
  length (movablePulleys s) = 1%nat ->
  length (fixedPulleys s) = 1%nat ->
  loadGroupA s = [l] -> Load.mass l == 10 ->
  loadGroupB s = [] ->
  effortForce s == 50 -> friction s == 0 -> loadVelocity s == 0 ->
  estimatedMA s == 2
  /\ MassPullInertia s = 0
  /\ EffectiveMass s IDEAL == 35 # 10
  /\ staticDriveForce s IDEAL == 95 # 100
  /\ NetForce s IDEAL == 95 # 100
  /\ acceleration0 s IDEAL == (95 # 100) / (35 # 10)
  /\ 271 # 1000 <= acceleration0 s IDEAL < 272 # 1000.
Proof.
  intros Hb Hm Hfx HA Hmass HB He Hf Hv.
  assert (HMA : estimatedMA s == 2).
  { unfold estimatedMA, len. rewrite Hm. reflexivity. }
  assert (HML : MassLoad s IDEAL == 10).
  { unfold MassLoad, sumOf, len. rewrite HA, Hm. cbn. rewrite Hmass.
    reflexivity. }
  assert (HMC : MassCounter s = 0).
  { unfold MassCounter. now rewrite HB. }
  assert (HPI : MassPullInertia s = 0).
  { unfold MassPullInertia. now rewrite HMC. }
  assert (HFP : ForcePull s == 50).
  { unfold ForcePull. rewrite HMC, HB. exact He. }
  assert (HSD : staticDriveForce s IDEAL == 95 # 100).
  { unfold staticDriveForce, ForceLoad. rewrite HFP, HML, HMA.
    reflexivity. }
  assert (HEM : EffectiveMass s IDEAL == 35 # 10).
  { unfold EffectiveMass. rewrite HPI, HML, HMA. reflexivity. }
  assert (Hbal : isBalanced s IDEAL = false).
  { unfold isBalanced. now rewrite HMC. }
  assert (HNF : NetForce s IDEAL == 95 # 100).
  { rewrite (NetForce_ideal_at_rest s Hf Hv).
    unfold NetForceCentered. rewrite Hbal. exact HSD. }
  assert (Hacc : acceleration0 s IDEAL == (95 # 100) / (35 # 10)).
  { unfold acceleration0. rewrite Hb, HNF, HEM. reflexivity. }
  repeat split; try assumption; rewrite Hacc.
  - vm_compute. discriminate.
  - reflexivity.
Qed.

End SandboxForces.

(** ** The sandbox integrator on concrete rigs *)

Module SandboxExamples.

Import Sandbox Graph Examples.

Lemma scenario_B_witness :
  acceleration0 handPulled IDEAL == (95 # 100) / (35 # 10).
Proof.
  refine (proj1 (proj2 (proj2 (proj2 (proj2 (proj2
    (SandboxForces.scenario_B handPulled loadLift _ _ _ _ _ _ _ _ _))))))).
  all: reflexivity.
Defined.

Lemma dragging_is_identity_witness :
  updateSandboxPhysics (fun x => x) (grabbed presetMovable)
                       (16 # 1000) REAL
  = grabbed presetMovable.
Proof.
  apply SandboxProps.dragging_is_identity. reflexivity.
Defined.

Lemma breakage_is_terminal_witness :
  atwoodBroken (runAtwood snapped someTicks) = true
  /\ isBroken (runSandbox (fun x => x) (torn presetMovable) someTicks)
     = true.
Proof.
  destruct (Breakage.breakage_is_terminal
              (fun x => x) snapped (torn presetMovable) (16 # 1000) REAL
              someTicks) as [HA HS].
  split; [apply HA | apply HS]; reflexivity.
Defined.

Lemma steps_are_total_within_limit_witness :
  Run.updateSandboxPhysics 1000 50 presetMovable (fun x => x)
                           (16 # 1000) REAL
  = Run.Returned (updateSandboxPhysics (fun x => x) presetMovable
                                       (16 # 1000) REAL).
Proof.
  refine (proj1 (proj2 (proj2 (proj2 (proj2 (proj2
    (Totality.steps_are_total_within_limit
       (fun x => x) 1000 50 INITIAL_ATWOOD presetMovable
       (16 # 1000) REAL _)))))) _).
  - vm_compute. lia.
  - right. cbn. lia.
Defined.

(** C8 fails whatever the number of arguments the engine accepts in one
    call: a sandbox with one fixed pulley more than that, which is not
    being dragged, makes the step raise a [RangeError]. *)
Lemma some_state_raises :
  ~ exists argLimit : nat,
      forall (sqrt : Q -> Q) (fuel : nat) (s : SandboxState) (dt : Q)
             (mode : RealityMode),
        (Run.stepFuel s <= fuel)%nat ->
        exists s',
          Run.updateSandboxPhysics argLimit fuel s sqrt dt mode
          = Run.Returned s'.
Proof.
  intros [argLimit H].
  destruct (H (fun x => x) (Run.stepFuel (Cases.crowded argLimit))
              (Cases.crowded argLimit) (16 # 1000) IDEAL (le_n _))
    as [s' Hs'].
  rewrite Totality.crowded_raises in Hs'. discriminate Hs'.
Qed.


(** the walk on the rig [overPulley]: the load on the left of the pulley
    reads -1, the one on the right reads 1 *)
Example overPulley_sides :
  getSide overPulley "load-1" == -1 /\ getSide overPulley "load-2" == 1.
Proof. split; vm_compute; reflexivity. Qed.

Lemma partition_without_movable_witness :
  getSide overPulley "load-2" = 1 /\ In crate2 (loadGroupB overPulley).
Proof.
  destruct (SandboxProps.partition_without_movable
              overPulley crate2 eq_refl
              (or_intror (or_introl eq_refl)))
    as (_ & Hd & _ & HB & _).
  split.
  - apply (Hd (Rope.mk "r2" "fixed-1" "load-2" Rope.pulley
                       (Some 1) (Some 0))).
    reflexivity.
  - apply HB. split.
    + exists (Rope.mk "r2" "fixed-1" "load-2" Rope.pulley
                      (Some 1) (Some 0)).
      split; [right; left; reflexivity | right; reflexivity].
    + vm_compute. reflexivity.
Defined.

(** a side other than -1, 0 and 1 leaves a roped load out of both
    groups, and a load that reaches a fixed pulley through an anchor only
    reads 0 and is placed in GroupA *)
Example odd_sides :
  getSide Cases.oddSides "load-1" == 2
  /\ ~ In crate1 (loadGroupA Cases.oddSides)
  /\ ~ In crate1 (loadGroupB Cases.oddSides)
  /\ getSide Cases.oddSides "load-2" == 0
  /\ In crate2 (loadGroupA Cases.oddSides).
Proof.
  split; [vm_compute; reflexivity |].
  split; [intros H; vm_compute in H; destruct H as [H | []];
          discriminate H |].
  split; [intros H; vm_compute in H; exact H |].
  split; [vm_compute; reflexivity |].
  vm_compute. left. reflexivity.
Qed.

(** in the rig [chain] the load in the middle is one hop away from two
    loads that each have a rope to a fixed pulley; the one enqueued first
    decides *)
Example chain_sides :
  getSide Cases.chain "load-3" == 1
  /\ getSide Cases.chain "load-2" == -1
  /\ getSide Cases.chain "load-1" == -1.
Proof. repeat split; vm_compute; reflexivity. Qed.

(** C7 fails for loads that are tied to each other only: in the rig
    [tiedPair] there is no pulley and no anchor at all, so no load has a
    path to one, and yet the walk returns 0 and the loads are placed in
    GroupA. *)
Lemma tied_loads_are_grouped :
  movablePulleys tiedPair = []
  /\ ~ (forall l,
          In l (loads tiedPair) ->
          (forall t, linked tiedPair (Load.id l) t ->
                     isFixedOrAnchor tiedPair t = false
                     /\ isMovable tiedPair t = false) ->
          ~ In l (loadGroupA tiedPair) /\ ~ In l (loadGroupB tiedPair)).
Proof.
  split; [reflexivity |]. intros H.
  destruct (H crate1) as [HA _].
  - left. reflexivity.
  - intros t _. split; reflexivity.
  - apply HA. vm_compute. left. reflexivity.
Qed.

End SandboxExamples.

(** * Further properties of the Atwood integrator *)

Module AtwoodMore.

Import Atwood AtwoodFacts AtwoodProps.

Lemma ropeLen_step (s : AtwoodState) (dt : Q) (mode : RealityMode) :
  ropeLen (updateAtwoodPhysics s dt mode) = ropeLen s.
Proof. unfold ropeLen. now rewrite step_keeps_rope. Qed.

(** X1. Rope conservation: whatever the time slice and the mode, a tick
    on an intact machine of finite numbers whose total inertial mass is
    not zero returns positions whose sum is the rope length in use, also
    on the ticks that stop at a position limit. *)
Theorem rope_is_conserved (s : AtwoodState) (dt : Q) (mode : RealityMode) :
  isBroken s = false -> ~ totalInertialMass s == 0 ->
  let o := updateAtwoodPhysics s dt mode in
  y1 o + y2 o == ropeLen o.
Proof.
  intros Hb _ o. subst o. rewrite ropeLen_step.
  unfold updateAtwoodPhysics, stepIntact. rewrite Hb.
  destruct (hitsTop s dt mode); [cbn; ring |].
  destruct (hitsBottom s dt mode); cbn; ring.
Qed.

(** X2. Breakage: a tick on an intact machine returns a broken one
    exactly when the mode is REAL, no position limit is reached, and one of
    the two tensions it returns exceeds [ropeMaxTension]; in IDEAL mode the
    rope never breaks. *)
Theorem atwood_breaks_iff (s : AtwoodState) (dt : Q) (mode : RealityMode) :
  isBroken s = false ->
  let o := updateAtwoodPhysics s dt mode in
  isBroken o = true
  <-> mode = REAL /\ clamped s dt mode = false
      /\ (ropeMaxTension s < tension1 o \/ ropeMaxTension s < tension2 o).
Proof.
  intros Hb o. subst o.
  destruct (clamped s dt mode) eqn:Hc.
  - assert (Hi : isBroken (updateAtwoodPhysics s dt mode) = false).
    { unfold updateAtwoodPhysics, stepIntact. rewrite Hb.
      unfold clamped in Hc.
      destruct (hitsTop s dt mode); [exact Hb |].
      cbn [orb] in Hc. rewrite Hc. exact Hb. }
    rewrite Hi. split; [discriminate | intros (_ & H & _); discriminate H].
  - rewrite (intact_unclamped s dt mode Hb Hc). cbn.
    destruct mode; cbn [is_real andb].
    + split; [discriminate | intros (H & _); discriminate H].
    + rewrite orb_true_iff, !NumFacts.gtb_true. tauto.
Qed.

(** the net force on a machine at rest whose drive is within the friction
    bound is zero, in both modes *)
Lemma netForce_at_rest (s : AtwoodState) (mode : RealityMode) :
  velocity s == 0 ->
  Num.abs (drivingForce s + centeringForce s) <= frictionForce s ->
  netForce s mode = 0.
Proof.
  intros Hv Hf.
  assert (Hslow : Num.gtb (Num.abs (velocity s)) (1 # 1000) = false).
  { apply NumFacts.gtb_false.
    destruct (NumFacts.abs_spec (velocity s)) as [[? ?] | [? ?]]; lra. }
  unfold netForce, netForceFriction. rewrite Hslow, andb_false_r.
  apply NumFacts.leb_true in Hf. now rewrite Hf.
Qed.

Lemma stiction_slow (s : AtwoodState) (dt : Q) (mode : RealityMode) :
  velocity s == 0 -> stiction s dt mode = false.
Proof.
  intros Hv. unfold stiction. cbn zeta.
  replace (Num.gtb (Num.abs (velocity s)) (1 # 1000)) with false;
    [reflexivity |].
  symmetry. apply NumFacts.gtb_false.
  destruct (NumFacts.abs_spec (velocity s)) as [[? ?] | [? ?]]; lra.
Qed.

(** X3. Static friction: an intact machine of finite numbers whose
    total inertial mass is not zero, at rest, within the position limits,
    whose drive (weight difference plus centering force) does not exceed
    the friction force stays where it is: the tick returns zero
    acceleration, zero velocity and the same [y1], for every time slice and
    in both modes. *)
Theorem static_friction_holds (s : AtwoodState) (dt : Q)
        (mode : RealityMode) :
  isBroken s = false -> ~ totalInertialMass s == 0 ->
  velocity s == 0 ->
  Num.abs (drivingForce s + centeringForce s) <= frictionForce s ->
  2 # 10 <= y1 s <= ropeLen s - (2 # 10) ->
  let o := updateAtwoodPhysics s dt mode in
  acceleration o == 0 /\ velocity o == 0 /\ y1 o == y1 s
  /\ isBroken o
     = (is_real mode
        && (Num.gtb (mass1 s * GRAVITY) (ropeMaxTension s)
            || Num.gtb (mass2 s * GRAVITY) (ropeMaxTension s))).
Proof.
  intros Hb _ Hv Hf Hy o.
  pose proof (netForce_at_rest s mode Hv Hf) as Hn.
  pose proof (stiction_slow s dt mode Hv) as Hs.
  assert (Ha : accel s dt mode == 0).
  { unfold accel. rewrite Hs, Hn. reflexivity. }
  assert (Hnv : newVelocity s dt mode == 0).
  { unfold newVelocity. cbn zeta. rewrite Hs, Hn.
    destruct (isBalanced s); rewrite Hv; unfold Qdiv; ring. }
  assert (Hny : newY1 s dt mode == y1 s).
  { unfold newY1. rewrite Hnv. ring. }
  assert (Hc : clamped s dt mode = false).
  { unfold clamped, hitsTop, hitsBottom. apply orb_false_iff. split.
    - apply NumFacts.ltb_false. lra.
    - apply NumFacts.gtb_false. lra. }
  subst o. rewrite (intact_unclamped s dt mode Hb Hc). cbn.
  repeat split; try assumption.
  assert (H1 : Num.gtb (mass1 s * (GRAVITY + accel s dt mode))
                       (ropeMaxTension s)
               = Num.gtb (mass1 s * GRAVITY) (ropeMaxTension s)).
  { unfold Num.gtb. f_equal. apply eq_true_iff_eq.
    rewrite !Qle_bool_iff, Ha. now rewrite Qplus_0_r. }
  assert (H2 : Num.gtb (mass2 s * (GRAVITY - accel s dt mode))
                       (ropeMaxTension s)
               = Num.gtb (mass2 s * GRAVITY) (ropeMaxTension s)).
  { unfold Num.gtb. f_equal. apply eq_true_iff_eq.
    rewrite !Qle_bool_iff, Ha. unfold Qminus.
    now rewrite Qplus_0_r. }
  now rewrite H1, H2.
Qed.

(** X4. Balanced equilibrium: an intact machine of finite numbers with
    equal masses and a total inertial mass that is not zero, at rest at
    the middle of its rope, is a fixed point of the tick in IDEAL
    mode, with or without friction: acceleration and velocity are returned
    as zero and [y1], [y2] as the middle of the rope. *)
Theorem balanced_middle_is_fixed (s : AtwoodState) (dt : Q) :
  isBroken s = false -> ~ totalInertialMass s == 0 ->
  mass1 s == mass2 s -> velocity s == 0 ->
  y1 s == ropeLen s / 2 -> 4 # 10 <= ropeLen s ->
  let o := updateAtwoodPhysics s dt IDEAL in
  acceleration o == 0 /\ velocity o == 0
  /\ y1 o == ropeLen s / 2 /\ y2 o == ropeLen s / 2
  /\ isBroken o = false.
Proof.
  intros Hb _ Hm Hv Hy HL o.
  assert (Hbal : isBalanced s = true).
  { unfold isBalanced. apply NumFacts.ltb_true.
    destruct (NumFacts.abs_spec (mass2 s - mass1 s)) as [[? ?] | [? ?]];
      lra. }
  assert (Hd : drivingForce s + centeringForce s == 0).
  { unfold drivingForce, centeringForce. rewrite Hbal. cbn zeta.
    rewrite Hy, Hm. ring. }
  assert (Hslow : Num.gtb (Num.abs (velocity s)) (1 # 1000) = false).
  { apply NumFacts.gtb_false.
    destruct (NumFacts.abs_spec (velocity s)) as [[? ?] | [? ?]]; lra. }
  assert (Hn : netForce s IDEAL == 0).
  { unfold netForce, netForceFriction. cbn [is_real andb]. rewrite Hslow.
    num_case; [reflexivity |].
    destruct (NumFacts.sign_spec (drivingForce s + centeringForce s))
      as [[? ->] | [[? ->] | [? ->]]]; lra. }
  pose proof (stiction_slow s dt IDEAL Hv) as Hs.
  assert (Ha : accel s dt IDEAL == 0).
  { unfold accel. rewrite Hs, Hn. reflexivity. }
  assert (Hnv : newVelocity s dt IDEAL == 0).
  { unfold newVelocity. cbn zeta. rewrite Hs, Hbal, Hn, Hv.
    unfold Qdiv. ring. }
  assert (Hny : newY1 s dt IDEAL == y1 s).
  { unfold newY1. rewrite Hnv. ring. }
  assert (Hc : clamped s dt IDEAL = false).
  { unfold clamped, hitsTop, hitsBottom. apply orb_false_iff. split.
    - apply NumFacts.ltb_false. rewrite Hny, Hy.
      apply Qle_shift_div_l; lra.
    - apply NumFacts.gtb_false. rewrite Hny, Hy.
      apply Qle_shift_div_r; lra. }
  subst o. rewrite (intact_unclamped s dt IDEAL Hb Hc). cbn.
  repeat split; try assumption.
  - now rewrite Hny.
  - rewrite Hny, Hy. field.
Qed.

Lemma runAtwood_snoc (s : AtwoodState) (ticks : list (Q * RealityMode))
      (dt : Q) (mode : RealityMode) :
  runAtwood s (ticks ++ [(dt, mode)])
  = updateAtwoodPhysics (runAtwood s ticks) dt mode.
Proof. unfold runAtwood. now rewrite fold_left_app. Qed.

Lemma capFloor_le (y : Q) : capFloor y <= 45 # 10.
Proof. unfold capFloor. num_case; lra. Qed.

(** X5. After the rope has snapped the clock stands still: along any
    sequence of ticks from a broken machine of finite numbers whose two
    masses are not zero (the drag of REAL mode is divided by each),
    [time] and [angularVelocity] keep their values, and after at least one
    tick the velocity is zero and neither position exceeds 4.5. *)
Theorem broken_run_is_frozen (ticks : list (Q * RealityMode)) :
  forall s : AtwoodState,
    isBroken s = true -> ~ mass1 s == 0 -> ~ mass2 s == 0 ->
    let o := runAtwood s ticks in
    time o = time s /\ angularVelocity o = angularVelocity s
    /\ (ticks <> [] ->
        velocity o = 0 /\ y1 o <= 45 # 10 /\ y2 o <= 45 # 10).
Proof.
  induction ticks as [| [dt mode] ticks IH] using rev_ind;
    intros s Hb Hm1 Hm2.
  - cbn. split; [reflexivity |]. split; [reflexivity |].
    intros Hne. now elim Hne.
  - destruct (IH s Hb Hm1 Hm2) as (Ht & Hw & _).
    pose proof (runAtwood_stays_broken ticks s Hb) as Hb'.
    cbv zeta. rewrite runAtwood_snoc.
    rewrite (broken_step _ dt mode Hb'). cbn.
    split; [exact Ht |]. split; [exact Hw |].
    intros _. repeat split; try reflexivity; apply capFloor_le.
Qed.

End AtwoodMore.

(** * The breadth-first search of [findConnectedLoads] *)

Module Search.

Import Sandbox Graph Routes.

Section Search.

Variable state : SandboxState.
Variable boundaryCheck : string -> bool.

Lemma findLoad_some (i : string) (l : Load.LoadObject) :
  findLoad state i = Some l -> In l (loads state) /\ Load.id l = i.
Proof.
  unfold findLoad. intros H. apply find_some in H.
  now rewrite String.eqb_eq in H.
Qed.

(** what one [reach] does to the visited set and the queue *)
Lemma reach_spec (n : string) (st : gset string * list string) :
  (reach boundaryCheck n st = st /\ (n ∈ st.1 \/ boundaryCheck n = true))
  \/ (n ∉ st.1 /\ boundaryCheck n = false
      /\ reach boundaryCheck n st = ({[n]} ∪ st.1, st.2 ++ [n])).
Proof.
  unfold reach. destruct (decide (n ∈ st.1)); [left; tauto |].
  destruct (boundaryCheck n) eqn:E; [left; tauto | right; tauto].
Qed.

(** the ids that a scan of [ropes] at [c] appends to the queue are new,
    off the boundary, and neighbours of [c]; they are exactly what the
    visited set gains *)
Lemma scan_grows (c : string) (ropes : list Rope.RopeSegment) :
  forall st,
    exists added,
      (fold_left (scanRope boundaryCheck c) ropes st).1
      = st.1 ∪ list_to_set added
      /\ (fold_left (scanRope boundaryCheck c) ropes st).2 = st.2 ++ added
      /\ forall x, In x added ->
                   x ∉ st.1 /\ boundaryCheck x = false
                   /\ exists r, In r ropes /\ joins r c x.
Proof.
  induction ropes as [| r ropes IH]; intros st.
  - exists []. cbn. split; [set_solver |]. split; [now rewrite app_nil_r |].
    intros x [].
  - cbn [fold_left].
    assert (Hstep : exists add1,
               (scanRope boundaryCheck c st r).1 = st.1 ∪ list_to_set add1
               /\ (scanRope boundaryCheck c st r).2 = st.2 ++ add1
               /\ forall x, In x add1 ->
                            x ∉ st.1 /\ boundaryCheck x = false
                            /\ joins r c x).
    { unfold scanRope.
      destruct (String.eqb (Rope.fromId r) c) eqn:Ef;
        destruct (String.eqb (Rope.toId r) c) eqn:Et;
        rewrite ?String.eqb_eq in *.
      - destruct (reach_spec (Rope.toId r) st) as [[E1 _] | (N1 & B1 & E1)];
          rewrite E1;
          [ destruct (reach_spec (Rope.fromId r) st)
              as [[E2 _] | (N2 & B2 & E2)]
          | destruct (reach_spec (Rope.fromId r)
                                 ({[Rope.toId r]} ∪ st.1,
                                  st.2 ++ [Rope.toId r]))
              as [[E2 _] | (N2 & B2 & E2)] ];
          rewrite E2; cbn [fst snd] in *.
        + exists []. cbn. rewrite app_nil_r. split; [set_solver |].
          split; [reflexivity | intros x []].
        + exists [Rope.fromId r]. cbn. split; [set_solver |].
          split; [reflexivity |]. intros x [<- | []].
          repeat split; try assumption. unfold joins. tauto.
        + exists [Rope.toId r]. cbn. split; [set_solver |].
          split; [reflexivity |]. intros x [<- | []].
          repeat split; try assumption. unfold joins. tauto.
        + exists [Rope.toId r; Rope.fromId r]. cbn.
          split; [set_solver |]. split; [now rewrite <- app_assoc |].
          intros x [<- | [<- | []]]; repeat split; try assumption;
            try (unfold joins; tauto). set_solver.
      - destruct (reach_spec (Rope.toId r) st) as [[E1 _] | (N1 & B1 & E1)];
          rewrite E1; cbn [fst snd].
        + exists []. cbn. rewrite app_nil_r. split; [set_solver |].
          split; [reflexivity | intros x []].
        + exists [Rope.toId r]. cbn. split; [set_solver |].
          split; [reflexivity |]. intros x [<- | []].
          repeat split; try assumption. unfold joins. tauto.
      - destruct (reach_spec (Rope.fromId r) st)
          as [[E1 _] | (N1 & B1 & E1)]; rewrite E1; cbn [fst snd].
        + exists []. cbn. rewrite app_nil_r. split; [set_solver |].
          split; [reflexivity | intros x []].
        + exists [Rope.fromId r]. cbn. split; [set_solver |].
          split; [reflexivity |]. intros x [<- | []].
          repeat split; try assumption. unfold joins. tauto.
      - exists []. cbn. rewrite app_nil_r. split; [set_solver |].
        split; [reflexivity | intros x []]. }
    destruct Hstep as (add1 & HV1 & HQ1 & HA1).
    destruct (IH (scanRope boundaryCheck c st r)) as (add2 & HV2 & HQ2 & HA2).
    exists (add1 ++ add2). rewrite HV2, HQ2, HV1, HQ1.
    split; [rewrite list_to_set_app_L; set_solver |].
    split; [now rewrite app_assoc |].
    intros x Hx. apply in_app_or in Hx. destruct Hx as [Hx | Hx].
    + destruct (HA1 x Hx) as (Hn & Hb & Hj). repeat split; try assumption.
      exists r. split; [now left | exact Hj].
    + destruct (HA2 x Hx) as (Hn & Hb & r' & Hr' & Hj).
      repeat split; try assumption.
      * rewrite HV1 in Hn. set_solver.
      * exists r'. split; [now right | exact Hj].
Qed.

(** after a scan of [ropes] at [c], every neighbour of [c] along one of
    them that is off the boundary is visited *)
Lemma scan_covers (c : string) (ropes : list Rope.RopeSegment) :
  forall st r b,
    In r ropes -> joins r c b -> boundaryCheck b = false ->
    b ∈ (fold_left (scanRope boundaryCheck c) ropes st).1.
Proof.
  induction ropes as [| r0 ropes IH]; intros st r b Hin Hj Hb;
    [destruct Hin |].
  cbn [fold_left]. destruct Hin as [-> | Hin]; [| now apply (IH _ r)].
  destruct (scan_grows c ropes (scanRope boundaryCheck c st r))
    as (added & HV & _). rewrite HV. apply elem_of_union_l.
  unfold scanRope, joins in *.
  destruct Hj as [[Hf Ht] | [Ht Hf]]; subst.
  - rewrite String.eqb_refl.
    assert (H1 : Rope.toId r ∈ (reach boundaryCheck (Rope.toId r) st).1).
    { destruct (reach_spec (Rope.toId r) st)
        as [[E1 [H | H]] | (N1 & B1 & E1)]; rewrite E1;
        [exact H | congruence | cbn; set_solver]. }
    destruct (String.eqb (Rope.toId r) (Rope.fromId r)); [| exact H1].
    destruct (reach_spec (Rope.fromId r)
                         (reach boundaryCheck (Rope.toId r) st))
      as [[E2 _] | (N2 & B2 & E2)]; rewrite E2;
      [exact H1 | cbn; set_solver].
  - rewrite String.eqb_refl.
    set (st1 := if String.eqb (Rope.fromId r) (Rope.toId r)
                then reach boundaryCheck (Rope.toId r) st else st).
    destruct (reach_spec (Rope.fromId r) st1)
      as [[E1 [H | H]] | (N1 & B1 & E1)]; rewrite E1;
      [exact H | congruence | cbn; set_solver].
Qed.

Variable startIds : list string.

Lemma collect_spec (result : list Load.LoadObject) (c : string) :
  (forall l, In l result ->
             exists v, findLoad state v = Some l) ->
  NoDup (map Load.id result) ->
  let result' := collect state result c in
  NoDup (map Load.id result')
  /\ (forall l, In l result -> In l result')
  /\ (forall l, findLoad state c = Some l -> In l result')
  /\ (forall l, In l result' ->
                 In l result \/ findLoad state c = Some l).
Proof.
  intros Hfound Hnd. unfold collect.
  destruct (findLoad state c) as [load |] eqn:Ef.
  - destruct (findLoad_some c load Ef) as [_ Hid].
    destruct (holds result load) eqn:Eh.
    + split; [exact Hnd |]. split; [tauto |]. split; [| tauto].
      intros l [= <-]. unfold holds in Eh. apply existsb_exists in Eh.
      destruct Eh as (r & Hr & E). apply String.eqb_eq in E.
      destruct (Hfound r Hr) as (v & Hv).
      destruct (findLoad_some v r Hv) as [_ Hidr].
      assert (v = c) by congruence. subst v.
      assert (r = load) by congruence. now subst r.
    + split; [| split; [| split]].
      * rewrite map_app. cbn. apply NoDup_app. split; [exact Hnd |].
        split; [| apply NoDup_singleton].
        intros i Hi Hi'. apply list_elem_of_In in Hi.
        apply list_elem_of_In in Hi'. destruct Hi' as [<- | []].
        apply in_map_iff in Hi. destruct Hi as (r & Hidr & Hr).
        assert (Ht : holds result load = true).
        { unfold holds. apply existsb_exists. exists r.
          split; [exact Hr | now apply String.eqb_eq]. }
        congruence.
      * intros l Hl. apply in_or_app. now left.
      * intros l [= <-]. apply in_or_app. right. now left.
      * intros l Hl. apply in_app_or in Hl.
        destruct Hl as [Hl | [<- | []]]; tauto.
  - split; [exact Hnd |]. split; [tauto |]. split; [discriminate | tauto].
Qed.

(** the invariant holds at the start of the loop *)
Lemma bfs_invariant_start :
  bfsInvariant state boundaryCheck startIds []
               (list_to_set startIds) startIds.
Proof.
  split.
  - intros i Hi. apply elem_of_list_to_set, list_elem_of_In, Hi.
  - intros v Hv. apply elem_of_list_to_set, list_elem_of_In in Hv.
    now constructor.
  - intros i Hi. apply elem_of_list_to_set, list_elem_of_In, Hi.
  - intros v Hv Hn. apply elem_of_list_to_set, list_elem_of_In in Hv.
    contradiction.
  - intros v Hv Hn. apply elem_of_list_to_set, list_elem_of_In in Hv.
    contradiction.
  - intros l [].
  - constructor.
Qed.

(** one iteration of the loop keeps the invariant *)
Lemma bfs_invariant_step (result : list Load.LoadObject)
      (visited : gset string) (c : string) (rest : list string) :
  bfsInvariant state boundaryCheck startIds result visited (c :: rest) ->
  let st := fold_left (scanRope boundaryCheck c) (ropeSegments state)
                      (visited, rest) in
  bfsInvariant state boundaryCheck startIds (collect state result c)
               st.1 st.2.
Proof.
  intros [I0 I1 I2 I3 I4 I5 I6] st.
  destruct (scan_grows c (ropeSegments state) (visited, rest))
    as (added & HV & HQ & HA).
  fold st in HV, HQ. cbn [fst snd] in HV, HQ, HA.
  assert (Hc : c ∈ visited) by (apply I2; now left).
  destruct (collect_spec result c) as (C1 & C2 & C3 & C4);
    [intros l Hl; destruct (I5 l Hl) as (v & _ & Hv); now exists v
    | exact I6 |].
  split.
  - intros i Hi. rewrite HV. apply elem_of_union_l, I0, Hi.
  - intros v Hv. rewrite HV in Hv. apply elem_of_union in Hv.
    destruct Hv as [Hv | Hv]; [now apply I1 |].
    apply elem_of_list_to_set, list_elem_of_In in Hv.
    destruct (HA v Hv) as (_ & Hb & r & Hr & Hj).
    apply (reachable_next state boundaryCheck startIds c v r);
      auto.
  - intros i Hi. rewrite HQ in Hi. rewrite HV.
    apply in_app_or in Hi. destruct Hi as [Hi | Hi].
    + apply elem_of_union_l, I2. now right.
    + apply elem_of_union_r, elem_of_list_to_set, list_elem_of_In, Hi.
  - intros v Hv Hn r b Hr Hj Hb. rewrite HQ in Hn. rewrite HV in Hv.
    apply elem_of_union in Hv. destruct Hv as [Hv | Hv].
    + destruct (decide (v = c)) as [-> | Hne].
      * apply (scan_covers c (ropeSegments state) (visited, rest) r b);
          assumption.
      * rewrite HV. apply elem_of_union_l.
        apply (I3 v Hv) with (r := r); try assumption.
        intros [E | Hin]; [congruence |].
        apply Hn, in_or_app. now left.
    + apply elem_of_list_to_set, list_elem_of_In in Hv.
      elim Hn. apply in_or_app. now right.
  - intros v Hv Hn l Hl. rewrite HQ in Hn. rewrite HV in Hv.
    apply elem_of_union in Hv. destruct Hv as [Hv | Hv].
    + destruct (decide (v = c)) as [-> | Hne]; [now apply C3 |].
      apply C2, (I4 v Hv); [| exact Hl].
      intros [E | Hin]; [congruence |].
      apply Hn, in_or_app. now left.
    + apply elem_of_list_to_set, list_elem_of_In in Hv.
      elim Hn. apply in_or_app. now right.
  - intros l Hl. destruct (C4 l Hl) as [Hr | Hf].
    + destruct (I5 l Hr) as (v & Hv & Hfv). exists v.
      split; [rewrite HV; now apply elem_of_union_l | exact Hfv].
    + exists c. split; [rewrite HV; now apply elem_of_union_l | exact Hf].
  - exact C1.
Qed.

(** when the loop returns, the invariant holds with an empty queue *)
Lemma bfsLoop_invariant (fuel : nat) :
  forall result visited queue out,
    bfsInvariant state boundaryCheck startIds result visited queue ->
    bfsLoop state boundaryCheck fuel result visited queue = Some out ->
    exists visited',
      bfsInvariant state boundaryCheck startIds out visited' [].
Proof.
  induction fuel as [| fuel IH]; intros result visited queue out Hinv H.
  - destruct queue; [| discriminate H]. injection H as <-. now exists visited.
  - destruct queue as [| c rest]; [injection H as <-; now exists visited |].
    cbn [bfsLoop] in H.
    apply (IH _ _ _ _ (bfs_invariant_step result visited c rest Hinv) H).
Qed.

(** a visited set that holds the start ids and is closed under rope
    neighbours off the boundary holds every reachable id *)
Lemma closed_has_reachable (out : list Load.LoadObject)
      (visited : gset string) :
  bfsInvariant state boundaryCheck startIds out visited [] ->
  forall i, reachable state boundaryCheck startIds i -> i ∈ visited.
Proof.
  intros [I0 _ _ I3 _ _ _] i Hi. induction Hi as [i Hi | a b r Ha IH Hr Hj Hb].
  - now apply I0.
  - apply (I3 a IH (fun H => H) r b Hr Hj Hb).
Qed.

(** X6. [findConnectedLoads] returns, each once, exactly the loads that
    [state.loads.find] gives for the ids that are a start id or can be
    reached from a start id along rope segments without entering an id for
    which the boundary check holds. *)
Theorem findConnectedLoads_reachable :
  NoDup (map Load.id (findConnectedLoads state boundaryCheck startIds))
  /\ forall l,
      In l (findConnectedLoads state boundaryCheck startIds)
      <-> exists i, reachable state boundaryCheck startIds i
                    /\ findLoad state i = Some l.
Proof.
  destruct (Traversal.findConnectedLoads_total state boundaryCheck startIds)
    as (out & Hout & Hloop).
  rewrite Hout.
  destruct (bfsLoop_invariant _ _ _ _ _ bfs_invariant_start
                              (Hloop _ (Nat.le_refl _)))
    as (visited & Hinv).
  split; [apply (inv_nodup _ _ _ _ _ _ Hinv) |].
  intros l. split.
  - intros Hl. destruct (inv_found _ _ _ _ _ _ Hinv l Hl) as (v & Hv & Hf).
    exists v. split; [apply (inv_reach _ _ _ _ _ _ Hinv v Hv) | exact Hf].
  - intros (i & Hi & Hf).
    apply (inv_collected _ _ _ _ _ _ Hinv i); [| tauto | exact Hf].
    apply (closed_has_reachable out visited Hinv i Hi).
Qed.

End Search.

End Search.

(** * The partition of the loads *)

Module Partition.

Import Sandbox Graph Routes.

Lemma includes_In (ids : list string) (i : string) :
  includes ids i = true <-> In i ids.
Proof.
  unfold includes. rewrite existsb_exists. split.
  - intros (j & Hj & E). apply String.eqb_eq in E. now subst j.
  - intros H. exists i. split; [exact H | apply String.eqb_refl].
Qed.

Lemma movable_present (s : SandboxState) :
  movablePulleys s <> [] -> Nat.ltb 0 (length (movableIds s)) = true.
Proof.
  intros H. unfold movableIds. rewrite length_map.
  destruct (movablePulleys s); [now elim H | reflexivity].
Qed.

(** X7. With at least one movable pulley, GroupA holds exactly the loads
    reached from the movable pulleys along ropes without entering a fixed
    pulley or an anchor, and GroupB exactly the loads reached from the
    fixed pulleys and anchors along ropes without entering a movable
    pulley, less those whose id is the id of a load of GroupA. *)
Theorem partition_with_movable (s : SandboxState) (l : Load.LoadObject) :
  movablePulleys s <> [] ->
  (In l (loadGroupA s)
   <-> exists i, reachable s (isFixedOrAnchor s) (movableIds s) i
                 /\ findLoad s i = Some l)
  /\ (In l (loadGroupB s)
      <-> (exists i, reachable s (isMovable s)
                               (fixedIds s ++ anchorIds s) i
                     /\ findLoad s i = Some l)
          /\ ~ In (Load.id l) (map Load.id (loadGroupA s))).
Proof.
  intros Hm. pose proof (movable_present s Hm) as Hlt.
  split.
  - unfold loadGroupA. rewrite Hlt.
    apply (Search.findConnectedLoads_reachable s).
  - unfold loadGroupB. rewrite Hlt. cbn zeta.
    rewrite filter_In, negb_true_iff, <- not_true_iff_false, includes_In.
    now rewrite (proj2 (Search.findConnectedLoads_reachable
                          s (isMovable s) (fixedIds s ++ anchorIds s)) l).
Qed.

Lemma groupA_loads (s : SandboxState) (l : Load.LoadObject) :
  In l (loadGroupA s) -> In l (loads s).
Proof.
  unfold loadGroupA. destruct (Nat.ltb 0 (length (movableIds s))).
  - intros H.
    apply (proj2 (Search.findConnectedLoads_reachable s _ _)) in H.
    destruct H as (i & _ & Hf). now apply (Search.findLoad_some s i l).
  - rewrite filter_In. unfold connectedLoads. rewrite filter_In. tauto.
Qed.

Lemma groupB_loads (s : SandboxState) (l : Load.LoadObject) :
  In l (loadGroupB s) -> In l (loads s).
Proof.
  unfold loadGroupB. destruct (Nat.ltb 0 (length (movableIds s))).
  - cbn zeta. rewrite filter_In. intros [H _].
    apply (proj2 (Search.findConnectedLoads_reachable s _ _)) in H.
    destruct H as (i & _ & Hf). now apply (Search.findLoad_some s i l).
  - rewrite filter_In. unfold connectedLoads. rewrite filter_In. tauto.
Qed.

(** X8. In every sandbox the two groups are made of loads of the state
    and share no id: a load is never on both sides of the reduced
    model. *)
Theorem groups_are_disjoint (s : SandboxState) :
  (forall l, In l (loadGroupA s) -> In l (loads s))
  /\ (forall l, In l (loadGroupB s) -> In l (loads s))
  /\ forall la lb, In la (loadGroupA s) -> In lb (loadGroupB s) ->
                   Load.id la <> Load.id lb.
Proof.
  split; [apply groupA_loads |]. split; [apply groupB_loads |].
  intros la lb Ha Hb E.
  unfold loadGroupB in Hb. unfold loadGroupA in Ha.
  destruct (Nat.ltb 0 (length (movableIds s))) eqn:Hlt.
  - cbn zeta in Hb. rewrite filter_In, negb_true_iff in Hb.
    destruct Hb as [_ Hb]. apply not_true_iff_false in Hb. apply Hb.
    apply includes_In. rewrite <- E. apply in_map.
    unfold loadGroupA. now rewrite Hlt.
  - rewrite filter_In in Ha, Hb. destruct Ha as [_ Ha]. destruct Hb as [_ Hb].
    cbn zeta in Ha, Hb. rewrite E in Ha. rewrite Ha in Hb. discriminate Hb.
Qed.

End Partition.

(** * The reduced model under changes that keep the ids *)

Module Stable.

Import Sandbox.

Section Stable.

Variables s s' : SandboxState.
Variable f : Load.LoadObject -> Load.LoadObject.

Hypothesis same_ropes : ropeSegments s' = ropeSegments s.
Hypothesis same_loads : loads s' = map f (loads s).
Hypothesis same_id : forall l, Load.id (f l) = Load.id l.
Hypothesis same_fixed : fixedIds s' = fixedIds s.
Hypothesis same_movable : movableIds s' = movableIds s.
Hypothesis same_anchors : anchorIds s' = anchorIds s.

Lemma findLoad_map (i : string) :
  findLoad s' i = option_map f (findLoad s i).
Proof.
  unfold findLoad. rewrite same_loads.
  generalize (loads s). intros ls0.
  induction ls0 as [| l ls IH]; [reflexivity |].
  cbn [map find]. rewrite same_id.
  destruct (String.eqb (Load.id l) i); [reflexivity | exact IH].
Qed.

Lemma holds_map (result : list Load.LoadObject) (l : Load.LoadObject) :
  holds (map f result) (f l) = holds result l.
Proof.
  unfold holds. induction result as [| r rs IH]; [reflexivity |].
  cbn [map existsb]. now rewrite IH, !same_id.
Qed.

Lemma collect_map (result : list Load.LoadObject) (c : string) :
  collect s' (map f result) c = map f (collect s result c).
Proof.
  unfold collect. rewrite findLoad_map.
  destruct (findLoad s c) as [l |]; [| reflexivity].
  cbn [option_map]. rewrite holds_map.
  destruct (holds result l); [reflexivity |]. now rewrite map_app.
Qed.

Section Bfs.

Variables bc bc' : string -> bool.
Hypothesis same_bc : forall i, bc' i = bc i.

Lemma scan_same (c : string) (ropes : list Rope.RopeSegment) :
  forall st,
    fold_left (scanRope bc' c) ropes st = fold_left (scanRope bc c) ropes st.
Proof.
  induction ropes as [| r ropes IH]; intros st; [reflexivity |].
  cbn [fold_left]. rewrite IH. f_equal.
  unfold scanRope, reach. now rewrite !same_bc.
Qed.

Lemma bfsLoop_map (fuel : nat) :
  forall result visited queue,
    bfsLoop s' bc' fuel (map f result) visited queue
    = option_map (map f) (bfsLoop s bc fuel result visited queue).
Proof.
  induction fuel as [| fuel IH]; intros result visited queue;
    destruct queue as [| c rest]; try reflexivity.
  cbn [bfsLoop]. rewrite same_ropes, scan_same, collect_map. apply IH.
Qed.

Lemma findConnectedLoads_map (startIds : list string) :
  findConnectedLoads s' bc' startIds
  = map f (findConnectedLoads s bc startIds).
Proof.
  unfold findConnectedLoads, bfsFuel. rewrite same_ropes.
  change (@nil Load.LoadObject) with (map f []) at 1.
  rewrite bfsLoop_map.
  now destruct (bfsLoop s bc _ [] (list_to_set startIds) startIds).
Qed.

End Bfs.

Lemma isLoad_map (i : string) :
  existsb (fun l => String.eqb (Load.id l) i) (loads s')
  = existsb (fun l => String.eqb (Load.id l) i) (loads s).
Proof.
  rewrite same_loads. generalize (loads s). intros ls0.
  induction ls0 as [| l ls IH]; [reflexivity |].
  cbn [map existsb]. now rewrite IH, same_id.
Qed.

Lemma sideScan_same (c : string) (ropes : list Rope.RopeSegment) :
  forall q, sideScan s' c ropes q = sideScan s c ropes q.
Proof.
  induction ropes as [| r ropes IH]; intros q; [reflexivity |].
  cbn [sideScan]. rewrite same_fixed, isLoad_map, !IH. reflexivity.
Qed.

Lemma sideLoop_same (fuel : nat) :
  forall visited q, sideLoop s' fuel visited q = sideLoop s fuel visited q.
Proof.
  induction fuel as [| fuel IH]; intros visited q; [reflexivity |].
  destruct q as [| c rest]; [reflexivity |].
  cbn [sideLoop]. unfold ropesAt. rewrite same_ropes, sideScan_same.
  destruct (decide (c ∈ visited)); [apply IH |].
  destruct (sideScan s c _ rest); [reflexivity | apply IH].
Qed.

Lemma getSide_same (i : string) : getSide s' i = getSide s i.
Proof.
  unfold getSide, sideFuel.
  now rewrite same_ropes, same_loads, length_map, sideLoop_same.
Qed.

Lemma filter_map_id (p : string -> bool) (ls : list Load.LoadObject) :
  List.filter (fun l => p (Load.id l)) (map f ls)
  = map f (List.filter (fun l => p (Load.id l)) ls).
Proof.
  induction ls as [| l ls IH]; [reflexivity |].
  cbn [map List.filter]. rewrite same_id, IH.
  now destruct (p (Load.id l)).
Qed.

Lemma connectedLoads_map : connectedLoads s' = map f (connectedLoads s).
Proof.
  unfold connectedLoads. rewrite same_ropes, same_loads.
  apply (filter_map_id
           (fun i => existsb (fun r => String.eqb (Rope.fromId r) i
                                       || String.eqb (Rope.toId r) i)
                             (ropeSegments s))).
Qed.

Lemma fixedOrAnchor_same (i : string) :
  isFixedOrAnchor s' i = isFixedOrAnchor s i.
Proof. unfold isFixedOrAnchor. now rewrite same_fixed, same_anchors. Qed.

Lemma isMovable_same (i : string) : isMovable s' i = isMovable s i.
Proof. unfold isMovable. now rewrite same_movable. Qed.

Lemma map_id_map (ls : list Load.LoadObject) :
  map Load.id (map f ls) = map Load.id ls.
Proof.
  rewrite map_map. apply map_ext. exact same_id.
Qed.

Lemma loadGroupA_map : loadGroupA s' = map f (loadGroupA s).
Proof.
  unfold loadGroupA. rewrite same_movable.
  destruct (Nat.ltb 0 (length (movableIds s))).
  - apply findConnectedLoads_map, fixedOrAnchor_same.
  - rewrite connectedLoads_map.
    rewrite <- (filter_map_id
                  (fun i => Num.eqb (getSide s i) (-1)
                            || Num.eqb (getSide s i) 0)).
    apply filter_ext. intros l. cbn zeta. now rewrite getSide_same.
Qed.

Lemma loadGroupB_map : loadGroupB s' = map f (loadGroupB s).
Proof.
  unfold loadGroupB. rewrite same_movable.
  destruct (Nat.ltb 0 (length (movableIds s))).
  - cbn zeta. rewrite loadGroupA_map, map_id_map.
    rewrite same_fixed, same_anchors.
    rewrite (findConnectedLoads_map (isMovable s) (isMovable s')
                                    isMovable_same).
    apply (filter_map_id
             (fun i => negb (includes (map Load.id (loadGroupA s)) i))).
  - rewrite connectedLoads_map.
    rewrite <- (filter_map_id
                  (fun i => negb (Num.eqb (getSide s i) (-1)
                                  || Num.eqb (getSide s i) 0)
                            && Num.eqb (getSide s i) 1)).
    apply filter_ext. intros l. cbn zeta. now rewrite getSide_same.
Qed.

(** the groups of [s'] have the ids of the groups of [s], in the same
    order *)
Lemma group_ids_same :
  map Load.id (loadGroupA s') = map Load.id (loadGroupA s)
  /\ map Load.id (loadGroupB s') = map Load.id (loadGroupB s).
Proof.
  rewrite loadGroupA_map, loadGroupB_map, !map_id_map. tauto.
Qed.

Hypothesis same_mass : forall l, Load.mass (f l) = Load.mass l.

Lemma sumOf_mass_map (ls : list Load.LoadObject) :
  sumOf Load.mass (map f ls) = sumOf Load.mass ls.
Proof.
  unfold sumOf. generalize 0. induction ls as [| l ls IH]; intros acc;
    [reflexivity |].
  cbn [map fold_left]. now rewrite same_mass, IH.
Qed.

Hypothesis same_count :
  length (movablePulleys s') = length (movablePulleys s).

(** the masses and the mechanical advantage of the reduced model are
    those of [s] *)
Lemma reduced_model_same (mode : RealityMode) :
  MassLoad s' mode = MassLoad s mode
  /\ MassCounter s' = MassCounter s
  /\ estimatedMA s' = estimatedMA s.
Proof.
  unfold MassLoad, MassCounter, estimatedMA, len.
  now rewrite loadGroupA_map, loadGroupB_map, !sumOf_mass_map, same_count.
Qed.

End Stable.

End Stable.

(** * Further properties of the sandbox integrator *)

Module SandboxMore.

Import Sandbox.

Lemma updateLoad_id (sqrt : Q -> Q) (s : SandboxState) (dt : Q)
      (mode : RealityMode) (l : Load.LoadObject) :
  Load.id (updateLoad sqrt s dt mode l) = Load.id l
  /\ Load.mass (updateLoad sqrt s dt mode l) = Load.mass l.
Proof.
  unfold updateLoad, swing, freeFall.
  destruct (connectedRope s l); [destruct (negb (isBroken' s mode dt)) |];
    cbn zeta; try (split; reflexivity);
    destruct (Num.geb _ floorY); split; reflexivity.
Qed.

Lemma updatePulley_id (s : SandboxState) (dt : Q) (mode : RealityMode)
      (p : Pul.Pulley) :
  Pul.id (updatePulley s dt mode p) = Pul.id p
  /\ Pul.radius (updatePulley s dt mode p) = Pul.radius p.
Proof.
  unfold updatePulley. cbn zeta.
  destruct (fold_left (support s p) (ropeSegments s) (0, 0%nat)) as [sm n].
  destruct (Nat.ltb 0 n && negb (isBroken' s mode dt)); split; reflexivity.
Qed.

(** X9. A tick does not change the reduced model: the state it returns
    has the same GroupA and GroupB (the same load ids in the same order),
    the same load and counterweight masses and the same mechanical
    advantage as the state it was given. *)
Theorem tick_keeps_reduced_model (sqrt : Q -> Q) (s : SandboxState) (dt : Q)
        (mode mode' : RealityMode) :
  let o := updateSandboxPhysics sqrt s dt mode in
  map Load.id (loadGroupA o) = map Load.id (loadGroupA s)
  /\ map Load.id (loadGroupB o) = map Load.id (loadGroupB s)
  /\ MassLoad o mode' = MassLoad s mode'
  /\ MassCounter o = MassCounter s
  /\ estimatedMA o = estimatedMA s.
Proof.
  intros o. subst o. unfold updateSandboxPhysics.
  destruct (isDragging s); [repeat split |].
  set (o := {| fixedPulleys := fixedPulleys s |}).
  assert (Hids : movableIds o = movableIds s).
  { unfold movableIds, o, updatedMovablePulleys. cbn. rewrite map_map.
    apply map_ext. intros p. apply updatePulley_id. }
  destruct (Stable.group_ids_same s o (updateLoad sqrt s dt mode))
    as [HA HB]; try reflexivity; try exact Hids;
    try (intros l; apply updateLoad_id).
  destruct (Stable.reduced_model_same s o (updateLoad sqrt s dt mode))
    with (mode := mode') as (H1 & H2 & H3);
    try reflexivity; try exact Hids;
    try (intros l; apply updateLoad_id).
  { unfold o, updatedMovablePulleys. cbn. apply length_map. }
  tauto.
Qed.

Lemma velocityCapped_bounds (s : SandboxState) (mode : RealityMode)
      (dt : Q) :
  -50 <= velocityCapped s mode dt <= 50.
Proof.
  unfold velocityCapped. cbn zeta.
  destruct (stiction s mode dt); repeat num_case; lra.
Qed.

(** X10. Velocity cap: whatever the forces, the time slice and the mode,
    a tick of a sandbox that is not being dragged stores a rope velocity
    between -50 and 50. *)
Theorem rope_velocity_is_capped (sqrt : Q -> Q) (s : SandboxState) (dt : Q)
        (mode : RealityMode) :
  isDragging s = false ->
  -50 <= loadVelocity (updateSandboxPhysics sqrt s dt mode) <= 50.
Proof.
  intros Hd. unfold updateSandboxPhysics. rewrite Hd. cbn [loadVelocity].
  destruct (isBroken' s mode dt); [lra |].
  unfold newRopeVelocity. destruct (boundaryHit s mode dt); [lra |].
  apply velocityCapped_bounds.
Qed.

Lemma ideal_tick_keeps_flag (sqrt : Q -> Q) (s : SandboxState) (dt : Q) :
  isBroken (updateSandboxPhysics sqrt s dt IDEAL) = isBroken s.
Proof.
  unfold updateSandboxPhysics. destruct (isDragging s); reflexivity.
Qed.

(** X11. In IDEAL mode the rope of a sandbox never snaps: along any
    sequence of IDEAL ticks [isBroken] keeps the value it had. *)
Theorem ideal_sandbox_never_breaks (sqrt : Q -> Q) (dts : list Q) :
  forall s : SandboxState,
    isBroken (runSandbox sqrt s (map (fun dt => (dt, IDEAL)) dts))
    = isBroken s.
Proof.
  induction dts as [| dt dts IH]; intros s; [reflexivity |].
  cbn [map runSandbox fold_left fst snd].
  unfold runSandbox in IH. rewrite IH. apply ideal_tick_keeps_flag.
Qed.

Lemma len_nonneg {A} (l : list A) : 0 <= len l.
Proof.
  unfold len. change 0 with (inject_Z 0). rewrite <- Zle_Qle. lia.
Qed.

Lemma len_pos {A} (l : list A) : Nat.ltb 0 (length l) = true -> 1 <= len l.
Proof.
  intros H. apply Nat.ltb_lt in H.
  unfold len. change 1 with (inject_Z 1). rewrite <- Zle_Qle. lia.
Qed.

Lemma sumOf_nonneg {A} (g : A -> Q) (l : list A) :
  (forall a, In a l -> 0 <= g a) -> 0 <= sumOf g l.
Proof.
  intros Hg. unfold sumOf.
  assert (H : forall acc, 0 <= acc ->
                          0 <= fold_left (fun sum e => sum + g e) l acc).
  { induction l as [| a l IH]; intros acc Hacc; [exact Hacc |].
    cbn [fold_left]. apply IH.
    - intros b Hb. apply Hg. now right.
    - pose proof (Hg a (or_introl eq_refl)). lra. }
  apply H. lra.
Qed.

Lemma estimatedMA_ge_1 (s : SandboxState) : 1 <= estimatedMA s.
Proof.
  unfold estimatedMA.
  destruct (Nat.ltb 0 (length (movablePulleys s))) eqn:E; [| lra].
  pose proof (len_pos _ E). lra.
Qed.

(** X12. No division blow-up: when no load has a negative mass, the
    effective mass of the reduced model is at least 1 and the mechanical
    advantage at least 1, in both modes, so the acceleration of an intact
    sandbox times the effective mass is the net force. *)
Theorem effective_mass_floor (s : SandboxState) (mode : RealityMode) :
  (forall l, In l (loads s) -> 0 <= Load.mass l) ->
  1 <= estimatedMA s
  /\ 1 <= EffectiveMass s mode
  /\ (isBroken s = false ->
      acceleration0 s mode * EffectiveMass s mode == NetForce s mode).
Proof.
  intros Hm.
  pose proof (estimatedMA_ge_1 s) as HMA.
  assert (HA : 0 <= sumOf Load.mass (loadGroupA s)).
  { apply sumOf_nonneg. intros l Hl. apply Hm, Partition.groupA_loads, Hl. }
  assert (HML : 0 <= MassLoad s mode).
  { unfold MassLoad. pose proof (len_nonneg (movablePulleys s)) as Hn.
    assert (0 <= pulleyWeight mode) by (destruct mode; cbn; lra).
    assert (0 <= len (movablePulleys s) * pulleyWeight mode)
      by (apply Qmult_le_0_compat; assumption).
    lra. }
  assert (HPI : 0 <= MassPullInertia s).
  { unfold MassPullInertia. num_case; lra. }
  assert (Hsq : 0 < estimatedMA s * estimatedMA s).
  { apply Qmult_lt_0_compat; lra. }
  assert (Hq : 0 <= MassLoad s mode / (estimatedMA s * estimatedMA s)).
  { apply Qle_shift_div_l; [exact Hsq | lra]. }
  assert (HE : 1 <= EffectiveMass s mode).
  { unfold EffectiveMass. lra. }
  split; [exact HMA |]. split; [exact HE |].
  intros Hb. unfold acceleration0. rewrite Hb. field. lra.
Qed.

Lemma clamp_bounds (s : SandboxState) (v : Q) :
  ceilingY s <= floorY ->
  ceilingY s <= clamp s v <= floorY.
Proof.
  intros H. unfold clamp, Num.max, Num.min. repeat num_case; lra.
Qed.

Lemma updateLoad_above_floor (sqrt : Q -> Q) (s : SandboxState) (dt : Q)
      (mode : RealityMode) (l : Load.LoadObject) :
  ceilingY s <= floorY ->
  Load.y (updateLoad sqrt s dt mode l) <= floorY.
Proof.
  intros H. unfold updateLoad.
  assert (Hfree : Load.y (freeFall dt mode l) <= floorY).
  { unfold freeFall. cbn zeta.
    destruct (Num.geb _ floorY) eqn:E; cbn [Load.y]; [lra |].
    apply NumFacts.geb_false in E. lra. }
  destruct (connectedRope s l); [| exact Hfree].
  destruct (negb (isBroken' s mode dt)); [| exact Hfree].
  unfold swing. cbn. apply clamp_bounds, H.
Qed.

Lemma updatePulley_above_floor (s : SandboxState) (dt : Q)
      (mode : RealityMode) (p : Pul.Pulley) :
  ceilingY s <= floorY ->
  Pul.y (updatePulley s dt mode p) <= floorY.
Proof.
  intros H. unfold updatePulley. cbn zeta.
  destruct (fold_left (support s p) (ropeSegments s) (0, 0%nat)) as [sm n].
  assert (Hy : (if isBroken' s mode dt
                then Num.min floorY (Pul.y p + 100 * dt)
                else clamp s (Pul.y p + finalDispA s mode dt)) <= floorY).
  { destruct (isBroken' s mode dt).
    - unfold Num.min. num_case; lra.
    - apply clamp_bounds, H. }
  destruct (Nat.ltb 0 n && negb (isBroken' s mode dt)); exact Hy.
Qed.

(** X13. Nothing sinks through the floor: when the ceiling computed from
    the fixed pulleys is not below the floor, every load and every movable
    pulley returned by a tick of a sandbox that is not being dragged has
    its [y] at most [floorY] (550), whether it hangs on a rope, falls
    freely or the rope has snapped. *)
Theorem nothing_below_floor (sqrt : Q -> Q) (s : SandboxState) (dt : Q)
        (mode : RealityMode) :
  isDragging s = false -> ceilingY s <= floorY ->
  let o := updateSandboxPhysics sqrt s dt mode in
  (forall l, In l (loads o) -> Load.y l <= floorY)
  /\ (forall p, In p (movablePulleys o) -> Pul.y p <= floorY).
Proof.
  intros Hd Hc o. subst o. unfold updateSandboxPhysics. rewrite Hd.
  cbn [loads movablePulleys]. unfold updatedLoads, updatedMovablePulleys.
  split.
  - intros l Hl. apply in_map_iff in Hl. destruct Hl as (l0 & <- & _).
    now apply updateLoad_above_floor.
  - intros p Hp. apply in_map_iff in Hp. destruct Hp as (p0 & <- & _).
    now apply updatePulley_above_floor.
Qed.

End SandboxMore.

(** * Reset, rope geometry and the panels of the Atwood machine *)

Module AtwoodApp.

Import Atwood AtwoodFacts AtwoodProps.

(** no tick changes a configuration field *)
Lemma tick_keeps_configuration (s : AtwoodState) (dt : Q)
      (mode : RealityMode) :
  let o := updateAtwoodPhysics s dt mode in
  mass1 o = mass1 s /\ mass2 o = mass2 s /\ pulleyMass o = pulleyMass s
  /\ pulleyRadius o = pulleyRadius s /\ frictionCoeff o = frictionCoeff s
  /\ totalRopeLength o = totalRopeLength s
  /\ initialY1 o = initialY1 s /\ initialY2 o = initialY2 s
  /\ ropeMaxTension o = ropeMaxTension s
  /\ airResistance o = airResistance s.
Proof.
  unfold updateAtwoodPhysics, stepIntact, stepBroken, stopAt. cbn zeta.
  destruct (isBroken s); [cbn; tauto |].
  destruct (hitsTop s dt mode); [cbn; tauto |].
  destruct (hitsBottom s dt mode); cbn; tauto.
Qed.

Lemma reset_after_tick (s : AtwoodState) (dt : Q) (mode : RealityMode) :
  App.handleReset (updateAtwoodPhysics s dt mode) = App.handleReset s.
Proof.
  destruct (tick_keeps_configuration s dt mode)
    as (H1 & H2 & H3 & H4 & H5 & H6 & H7 & H8 & H9 & H10).
  unfold App.handleReset.
  now rewrite H1, H2, H3, H4, H5, H6, H7, H8, H9, H10.
Qed.

(** X14. Reset undoes any run: resetting the machine after any sequence
    of ticks, whatever happened in them (clamping, breakage included),
    gives exactly the state that resetting it before the run gives. *)
Theorem reset_undoes_run (ticks : list (Q * RealityMode)) :
  forall s : AtwoodState,
    App.handleReset (runAtwood s ticks) = App.handleReset s.
Proof.
  induction ticks as [| [dt mode] ticks IH]; intros s; [reflexivity |].
  cbn [runAtwood fold_left fst snd]. unfold runAtwood in IH.
  rewrite IH. apply reset_after_tick.
Qed.

Import Geometry.

Lemma act_keeps_consistent (s : AtwoodState) (a : Action) :
  consistent s -> consistent (act s a).
Proof.
  unfold consistent. intros H. destruct a as [dt mode | v | v |]; cbn [act].
  - destruct (tick_keeps_configuration s dt mode)
      as (_ & _ & _ & _ & _ & H6 & H7 & H8 & _).
    now rewrite H6, H7, H8.
  - cbn. reflexivity.
  - cbn. reflexivity.
  - exact H.
Qed.

(** X15. Rope geometry: if the rope is as long as the two initial heights
    together, it stays so under every sequence of ticks, height sliders
    and resets, and a reset then yields positions that add up to the rope
    length. *)
Theorem geometry_stays_consistent (actions : list Action) :
  forall s : AtwoodState,
    consistent s ->
    let o := fold_left act actions s in
    consistent o
    /\ y1 (App.handleReset o) + y2 (App.handleReset o)
       == totalRopeLength (App.handleReset o).
Proof.
  induction actions as [| a actions IH]; intros s H.
  - cbn. split; [exact H |]. unfold consistent in H. now rewrite H.
  - cbn [fold_left]. apply IH, act_keeps_consistent, H.
Qed.

Lemma leb_wd (a b c d : Q) : a == c -> b == d -> Num.leb a b = Num.leb c d.
Proof.
  intros H1 H2. unfold Num.leb. apply eq_true_iff_eq.
  now rewrite !Qle_bool_iff, H1, H2.
Qed.

Lemma gtb_wd (a b c d : Q) : a == c -> b == d -> Num.gtb a b = Num.gtb c d.
Proof.
  intros H1 H2. unfold Num.gtb. f_equal. now apply leb_wd.
Qed.

Lemma abs_wd (a b : Q) : a == b -> Num.abs a == Num.abs b.
Proof. intros H. unfold Num.abs. now rewrite H. Qed.

(** X16. The force summary agrees with the integrator: for masses that
    differ by at least 0.001 the friction force, the net force, the total
    inertia and the acceleration shown by [NewtonsAnalysis] are those that
    [updateAtwoodPhysics] computes in IDEAL mode before its zero-crossing
    check. *)
Theorem analysis_agrees_with_engine (s : AtwoodState) :
  isBalanced s = false ->
  NewtonsAnalysis.drivingForce s == drivingForce s
  /\ NewtonsAnalysis.frictionForce s == frictionForce s
  /\ NewtonsAnalysis.netForce s == netForce s IDEAL
  /\ NewtonsAnalysis.totalInertia s == totalInertialMass s
  /\ NewtonsAnalysis.acceleration s
     == netForce s IDEAL / totalInertialMass s.
Proof.
  intros Hbal.
  assert (Hd : NewtonsAnalysis.drivingForce s == drivingForce s).
  { unfold NewtonsAnalysis.drivingForce, NewtonsAnalysis.f1,
      NewtonsAnalysis.f2, drivingForce. ring. }
  assert (Hf : NewtonsAnalysis.frictionForce s == frictionForce s).
  { unfold NewtonsAnalysis.frictionForce, NewtonsAnalysis.totalWeight,
      NewtonsAnalysis.f1, NewtonsAnalysis.f2, frictionForce.
    destruct (Num.gtb (frictionCoeff s) 0); [ring | reflexivity]. }
  assert (Hi : NewtonsAnalysis.totalInertia s == totalInertialMass s).
  { reflexivity. }
  assert (Hn : NewtonsAnalysis.netForce s == netForce s IDEAL).
  { unfold NewtonsAnalysis.netForce, NewtonsAnalysis.direction, netForce,
      netForceFriction. cbn [is_real andb].
    rewrite (unbalanced_centering s Hbal).
    destruct (Num.gtb (Num.abs (velocity s)) (1 # 1000)).
    - rewrite Hd, Hf. ring.
    - rewrite (leb_wd (Num.abs (NewtonsAnalysis.drivingForce s))
                      (NewtonsAnalysis.frictionForce s)
                      (Num.abs (drivingForce s + 0)) (frictionForce s)).
      + destruct (Num.leb (Num.abs (drivingForce s + 0)) (frictionForce s));
          [reflexivity |].
        rewrite (sign_wd (NewtonsAnalysis.drivingForce s)
                         (drivingForce s + 0)) by (rewrite Hd; ring).
        rewrite Hd, Hf. ring.
      + apply abs_wd. rewrite Hd. ring.
      + exact Hf. }
  repeat split; try assumption.
  unfold NewtonsAnalysis.acceleration. now rewrite Hn, Hi.
Qed.

Import DataPanel.

(** X17. The energy bars: the kinetic energy shown for the Atwood machine
    is half the total inertial mass of the integrator times the squared
    velocity; when no mass is negative, both energies are non-negative and
    the two bars need no clipping: each width lies between 0 and 100 and
    together they do not exceed 100. *)
Theorem energy_bars_fit (s : AtwoodState) :
  0 <= mass1 s -> 0 <= mass2 s -> 0 <= pulleyMass s ->
  let e := atwoodEnergy s in
  ke e == (5 # 10) * totalInertialMass s * (velocity s * velocity s)
  /\ 0 <= pe e /\ 0 <= ke e /\ total e == pe e + ke e
  /\ 0 <= barWidth e (pe e) /\ 0 <= barWidth e (ke e)
  /\ barWidth e (pe e) + barWidth e (ke e) <= 100
  /\ barWidth e (pe e) == pe e / maxEnergyBar e * 100
  /\ barWidth e (ke e) == ke e / maxEnergyBar e * 100.
Proof.
  intros H1 H2 H3 e.
  assert (Hke : ke e == (5 # 10) * totalInertialMass s
                        * (velocity s * velocity s)).
  { subst e. unfold atwoodEnergy, totalInertialMass,
      effectivePulleyInertiaMass. cbn. ring. }
  assert (Hv : 0 <= velocity s * velocity s).
  { destruct (Qlt_le_dec (velocity s) 0).
    - assert (E : velocity s * velocity s
                  == (- velocity s) * (- velocity s)) by ring.
      rewrite E. apply Qmult_le_0_compat; lra.
    - apply Qmult_le_0_compat; lra. }
  assert (Hkn : 0 <= ke e).
  { rewrite Hke. apply Qmult_le_0_compat; [| exact Hv].
    unfold totalInertialMass, effectivePulleyInertiaMass. lra. }
  assert (Hh : forall y, 0 <= Num.max 0 (5 - y)).
  { intros y. unfold Num.max. num_case; lra. }
  assert (Hpn : 0 <= pe e).
  { subst e. unfold atwoodEnergy. cbn.
    pose proof (Hh (y1 s)). pose proof (Hh (y2 s)).
    assert (0 <= mass1 s * GRAVITY * Num.max 0 (5 - y1 s)).
    { apply Qmult_le_0_compat; [| assumption].
      apply Qmult_le_0_compat; [assumption | unfold GRAVITY; lra]. }
    assert (0 <= mass2 s * GRAVITY * Num.max 0 (5 - y2 s)).
    { apply Qmult_le_0_compat; [| assumption].
      apply Qmult_le_0_compat; [assumption | unfold GRAVITY; lra]. }
    lra. }
  assert (Ht : total e == pe e + ke e) by (subst e; reflexivity).
  assert (Hmax : 1 <= maxEnergyBar e /\ total e <= maxEnergyBar e).
  { unfold maxEnergyBar, Num.max. num_case; lra. }
  destruct Hmax as [Hm1 Hm2].
  assert (Hfrac : forall part, 0 <= part -> part <= total e ->
            0 <= part / maxEnergyBar e * 100
            /\ part / maxEnergyBar e * 100 <= 100
            /\ barWidth e part == part / maxEnergyBar e * 100).
  { intros part Hp0 Hp1.
    assert (Hq0 : 0 <= part / maxEnergyBar e)
      by (apply Qle_shift_div_l; lra).
    assert (Hq1 : part / maxEnergyBar e <= 1)
      by (apply Qle_shift_div_r; lra).
    split; [lra |]. split; [lra |].
    unfold barWidth, Num.min. num_case; lra. }
  destruct (Hfrac (pe e) Hpn ltac:(lra)) as (Pa & Pb & Pc).
  destruct (Hfrac (ke e) Hkn ltac:(lra)) as (Ka & Kb & Kc).
  split; [exact Hke |]. split; [exact Hpn |]. split; [exact Hkn |].
  split; [exact Ht |]. rewrite Pc, Kc.
  split; [exact Pa |]. split; [exact Ka |].
  split; [| split; reflexivity].
  assert (E : pe e / maxEnergyBar e * 100 + ke e / maxEnergyBar e * 100
              == total e / maxEnergyBar e * 100)
    by (rewrite Ht; field; lra).
  rewrite E.
  assert (total e / maxEnergyBar e <= 1)
    by (apply Qle_shift_div_r; lra).
  lra.
Qed.

End AtwoodApp.

(** * Authoring the sandbox *)

Module Authoring.

Import Sandbox Graph App Controls.

Lemma simpleRopes_snoc (ropes : list Rope.RopeSegment)
      (r : Rope.RopeSegment) :
  simpleRopes ropes -> Rope.fromId r <> Rope.toId r ->
  (forall r', In r' ropes -> ~ samePair r' r) ->
  simpleRopes (ropes ++ [r]).
Proof.
  induction ropes as [| r0 ropes IH]; intros Hs Hr Hn.
  - cbn. repeat split; [exact Hr | intros r' []].
  - cbn [app simpleRopes] in *. destruct Hs as (H0 & H1 & H2).
    split; [exact H0 |]. split.
    + intros r' Hr'. apply in_app_or in Hr'.
      destruct Hr' as [Hr' | [<- | []]]; [now apply H1 |].
      apply Hn. now left.
    + apply IH; [exact H2 | exact Hr |].
      intros r' Hr'. apply Hn. now right.
Qed.

Lemma not_connected (prev : SandboxState) (a b : string) :
  connected prev a b = false ->
  forall r, In r (ropeSegments prev) ->
            ~ ((Rope.fromId r = a /\ Rope.toId r = b)
               \/ (Rope.fromId r = b /\ Rope.toId r = a)).
Proof.
  unfold connected. intros H r Hr Hj.
  apply not_true_iff_false in H. apply H, existsb_exists.
  exists r. split; [exact Hr |].
  rewrite orb_true_iff, !andb_true_iff, !String.eqb_eq. exact Hj.
Qed.

(** X18. The direct-rope tool keeps the rope graph simple: a click never
    adds a segment from an id to itself nor a second segment between two
    ids that a segment joins already, in either direction; it adds at most
    one segment, from the stored start id to the clicked id, and then
    forgets the start id. *)
Theorem direct_tool_keeps_simple (now : string) (prev : SandboxState)
        (i : string) :
  simpleRopes (ropeSegments prev) ->
  let o := clickDirectTool now prev i in
  simpleRopes (ropeSegments o)
  /\ (ropeSegments o = ropeSegments prev
      \/ exists start,
          truthy (ropeConnectionStartId prev) = Some start
          /\ start <> i
          /\ ropeSegments o
             = ropeSegments prev
               ++ [Rope.mk ("rope-" ++ now) start i Rope.direct
                           (Some 0) (Some 0)]
          /\ ropeConnectionStartId o = None).
Proof.
  intros Hs o. subst o. unfold clickDirectTool.
  destruct (truthy (ropeConnectionStartId prev)) as [start |];
    [| cbn; tauto].
  destruct (String.eqb start i) eqn:E; [cbn; tauto |].
  apply String.eqb_neq in E.
  destruct (connected prev start i) eqn:Ec; [cbn; tauto |].
  cbn [ropeSegments authoring ropeConnectionStartId]. split.
  - apply simpleRopes_snoc; [exact Hs | exact E |].
    intros r' Hr' Hp. apply (not_connected prev start i Ec r' Hr').
    unfold samePair in Hp. cbn in Hp. tauto.
  - right. exists start. tauto.
Qed.

Lemma click_keeps_ready (now1 now2 : string) (s : SandboxState)
      (i : string) :
  builderReady (ropeBuilderState s) ->
  exists o, handleSandboxObjectClick now1 now2 s i = Some o
            /\ builderReady (ropeBuilderState o).
Proof.
  intros H. unfold handleSandboxObjectClick.
  destruct (interactionMode s).
  - now exists s.
  - eexists. split; [reflexivity |].
    unfold clickDirectTool.
    destruct (truthy (ropeConnectionStartId s)) as [start |];
      [| exact H].
    destruct (String.eqb start i); [exact H |].
    destruct (connected s start i); exact H.
  - unfold clickPulleyTool, builderReady in *. cbn zeta.
    destruct (step (ropeBuilderState s)) eqn:Es.
    + now exists s; rewrite Es.
    + eexists. split; [reflexivity |]. cbn. discriminate.
    + destruct (isId (firstId (ropeBuilderState s)) i).
      * exists s. now rewrite Es.
      * eexists. split; [reflexivity |]. cbn. split; [exact H | discriminate].
    + destruct (negb (startsWith i "fixed") && negb (startsWith i "movable")).
      * exists s. now rewrite Es.
      * destruct H as [Hf Hsd].
        destruct (firstId (ropeBuilderState s)); [| now elim Hf].
        destruct (secondId (ropeBuilderState s)); [| now elim Hsd].
        eexists. split; [reflexivity |]. exact I.
Qed.

(** X19. The pulley tool never dereferences a missing id: from a state
    whose rope builder has the ids that its step requires (as after
    [setRopeMode], or in the initial sandbox), every sequence of clicks and
    rope-mode switches goes through, and leaves the builder in such a
    state. *)
Theorem edits_never_fail (es : list Edit) :
  forall s : SandboxState,
    builderReady (ropeBuilderState s) ->
    exists o, edits s es = Some o /\ builderReady (ropeBuilderState o).
Proof.
  induction es as [| e es IH]; intros s H; [now exists s |].
  cbn [edits]. destruct e as [now1 now2 i | mode]; cbn [edit].
  - destruct (click_keeps_ready now1 now2 s i H) as (o & -> & Ho).
    apply IH, Ho.
  - apply IH. unfold setRopeMode, builderReady. cbn.
    destruct mode; exact I.
Qed.

Lemma filter_keeps_id {A} (g : A -> string) (sel i : string) (l : list A) :
  In i (map g l) -> i <> sel ->
  In i (map g (List.filter (fun a => negb (String.eqb (g a) sel)) l)).
Proof.
  intros Hi Hne. apply in_map_iff in Hi. destruct Hi as (a & <- & Ha).
  apply in_map, filter_In. split; [exact Ha |].
  apply negb_true_iff, String.eqb_neq, Hne.
Qed.

Lemma filter_drops_id {A} (g : A -> string) (sel : string) (l : list A) :
  ~ In sel (map g (List.filter (fun a => negb (String.eqb (g a) sel)) l)).
Proof.
  intros H. apply in_map_iff in H. destruct H as (a & Ha & Hin).
  apply filter_In in Hin. destruct Hin as [_ Hn].
  apply negb_true_iff, String.eqb_neq in Hn. contradiction.
Qed.

(** X20. Deleting the selected object leaves no dangling rope: the
    object is no longer a node, no remaining segment has it as an end, and
    if both ends of every segment were nodes before, they still are. *)
Theorem delete_keeps_references (s : SandboxState) (sel : string) :
  truthy (selectedId s) = Some sel ->
  let o := deleteSelected s in
  ~ isNode o sel
  /\ (forall r, In r (ropeSegments o) ->
                In r (ropeSegments s)
                /\ Rope.fromId r <> sel /\ Rope.toId r <> sel)
  /\ (wellReferenced s -> wellReferenced o).
Proof.
  intros Hsel o. subst o. unfold deleteSelected. rewrite Hsel.
  assert (Hropes : forall r,
             In r (List.filter
                     (fun seg => negb (String.eqb (Rope.fromId seg) sel)
                                 && negb (String.eqb (Rope.toId seg) sel))
                     (ropeSegments s)) ->
             In r (ropeSegments s)
             /\ Rope.fromId r <> sel /\ Rope.toId r <> sel).
  { intros r Hr. apply filter_In in Hr. destruct Hr as [Hin Hb].
    apply andb_true_iff in Hb.
    rewrite !negb_true_iff, !String.eqb_neq in Hb. tauto. }
  split; [| split].
  - unfold isNode, fixedIds, movableIds, anchorIds. cbn.
    intros [H | [H | [H | H]]]; revert H; apply filter_drops_id.
  - cbn [ropeSegments]. exact Hropes.
  - intros Hw r Hr. cbn [ropeSegments] in Hr.
    destruct (Hropes r Hr) as (Hin & Hf & Ht).
    destruct (Hw r Hin) as [Nf Nt].
    assert (Hkeep : forall i, isNode s i -> i <> sel ->
              isNode
                {| fixedPulleys :=
                     List.filter (fun p => negb (String.eqb (Pul.id p) sel))
                                 (fixedPulleys s);
                   movablePulleys :=
                     List.filter (fun p => negb (String.eqb (Pul.id p) sel))
                                 (movablePulleys s);
                   loads :=
                     List.filter (fun l => negb (String.eqb (Load.id l) sel))
                                 (loads s);
                   anchors :=
                     List.filter (fun a => negb (String.eqb (Anc.id a) sel))
                                 (anchors s);
                   effortForce := effortForce s;
                   friction := friction s;
                   ropeMaxTension := ropeMaxTension s;
                   airResistance := airResistance s;
                   isBroken := isBroken s;
                   interactionMode := interactionMode s;
                   ropeSegments :=
                     List.filter
                       (fun seg => negb (String.eqb (Rope.fromId seg) sel)
                                   && negb (String.eqb (Rope.toId seg) sel))
                       (ropeSegments s);
                   ropeBuilderState := ropeBuilderState s;
                   ropeConnectionStartId := ropeConnectionStartId s;
                   loadPosition := loadPosition s;
                   loadVelocity := loadVelocity s;
                   isDragging := isDragging s;
                   selectedId := None |} i).
    { unfold isNode, fixedIds, movableIds, anchorIds. cbn.
      intros i [H | [H | [H | H]]] Hne;
        [left | right; left | right; right; left | right; right; right];
        now apply filter_keeps_id. }
    split; apply Hkeep; assumption.
Qed.

Lemma map_same_id {A} (g : A -> string) (h : A -> A) (l : list A) :
  (forall a, g (h a) = g a) -> map g (map h l) = map g l.
Proof. intros H. rewrite map_map. now apply map_ext. Qed.

(** X21. Dragging an object does not change the reduced model: after
    [handleSandboxMove], whatever the id and the coordinates, GroupA and
    GroupB hold the same load ids in the same order, and the load mass, the
    counterweight mass and the mechanical advantage are unchanged. *)
Theorem move_keeps_reduced_model (prev : SandboxState) (i : string)
        (x y : Q) (mode : RealityMode) :
  let o := handleSandboxMove prev i x y in
  map Load.id (loadGroupA o) = map Load.id (loadGroupA prev)
  /\ map Load.id (loadGroupB o) = map Load.id (loadGroupB prev)
  /\ MassLoad o mode = MassLoad prev mode
  /\ MassCounter o = MassCounter prev
  /\ estimatedMA o = estimatedMA prev.
Proof.
  intros o. subst o. unfold handleSandboxMove.
  set (mvF := fun p : Pul.Pulley =>
                if String.eqb (Pul.id p) i
                then Pul.mk (Pul.id p) x y (Pul.radius p) (Pul.vx p) else p).
  set (mvM := fun p : Pul.Pulley =>
                if String.eqb (Pul.id p) i
                then Pul.mk (Pul.id p) x (Pul.y p) (Pul.radius p) (Pul.vx p)
                else p).
  set (mvL := fun l : Load.LoadObject =>
                if String.eqb (Load.id l) i
                then Load.mk (Load.id l) (Load.mass l) (Load.color l) x y
                             (Load.vx l) (Load.vy l)
                else l).
  set (mvA := fun a : Anc.Anchor =>
                if String.eqb (Anc.id a) i then Anc.mk (Anc.id a) x y else a).
  assert (HF : forall p, Pul.id (mvF p) = Pul.id p)
    by (intros p; unfold mvF; now destruct (String.eqb (Pul.id p) i)).
  assert (HM : forall p, Pul.id (mvM p) = Pul.id p)
    by (intros p; unfold mvM; now destruct (String.eqb (Pul.id p) i)).
  assert (HL : forall l, Load.id (mvL l) = Load.id l
                         /\ Load.mass (mvL l) = Load.mass l)
    by (intros l; unfold mvL; now destruct (String.eqb (Load.id l) i)).
  assert (HA : forall a, Anc.id (mvA a) = Anc.id a)
    by (intros a; unfold mvA; now destruct (String.eqb (Anc.id a) i)).
  assert (Hgen : forall o f,
             ropeSegments o = ropeSegments prev ->
             loads o = map f (loads prev) ->
             (forall l, Load.id (f l) = Load.id l
                        /\ Load.mass (f l) = Load.mass l) ->
             fixedIds o = fixedIds prev ->
             movableIds o = movableIds prev ->
             anchorIds o = anchorIds prev ->
             length (movablePulleys o) = length (movablePulleys prev) ->
             map Load.id (loadGroupA o) = map Load.id (loadGroupA prev)
             /\ map Load.id (loadGroupB o) = map Load.id (loadGroupB prev)
             /\ MassLoad o mode = MassLoad prev mode
             /\ MassCounter o = MassCounter prev
             /\ estimatedMA o = estimatedMA prev).
  { intros o f H1 H2 H3 H4 H5 H6 H7.
    destruct (Stable.group_ids_same prev o f H1 H2 (fun l => proj1 (H3 l))
                                    H4 H5 H6) as [GA GB].
    destruct (Stable.reduced_model_same
                prev o f H1 H2 (fun l => proj1 (H3 l)) H4 H5 H6
                (fun l => proj2 (H3 l)) H7 mode) as (R1 & R2 & R3).
    tauto. }
  assert (Hid : forall ls : list Load.LoadObject, ls = map (fun l => l) ls)
    by (intros ls; now rewrite map_id).
  destruct (startsWith i "fixed");
    [| destruct (startsWith i "movable");
       [| destruct (startsWith i "load");
          [| destruct (startsWith i "anchor")]]].
  - apply (Hgen _ (fun l => l)); try reflexivity; try apply Hid;
      try (intros; split; reflexivity).
    unfold fixedIds. cbn. now apply map_same_id.
  - apply (Hgen _ (fun l => l)); try reflexivity; try apply Hid;
      try (intros; split; reflexivity).
    + unfold movableIds. cbn. now apply map_same_id.
    + cbn. apply length_map.
  - apply (Hgen _ mvL); try reflexivity. exact HL.
  - apply (Hgen _ (fun l => l)); try reflexivity; try apply Hid;
      try (intros; split; reflexivity).
    unfold anchorIds. cbn. now apply map_same_id.
  - repeat split.
Qed.

End Authoring.

(** * From the pulley tool to the partition *)

Module Routing.

Import Sandbox Graph App.

Lemma ropesAt_unroped (s : SandboxState) (i : string)
      (extra : list Rope.RopeSegment) :
  ~ roped s i ->
  List.filter (fun r => String.eqb (Rope.fromId r) i
                        || String.eqb (Rope.toId r) i)
              (ropeSegments s ++ extra)
  = List.filter (fun r => String.eqb (Rope.fromId r) i
                          || String.eqb (Rope.toId r) i) extra.
Proof.
  intros Hn. rewrite List.filter_app.
  replace (List.filter _ (ropeSegments s)) with (@nil Rope.RopeSegment);
    [reflexivity |].
  symmetry. unfold roped in Hn.
  induction (ropeSegments s) as [| r rs IH]; [reflexivity |].
  cbn [List.filter].
  destruct (String.eqb (Rope.fromId r) i || String.eqb (Rope.toId r) i)
    eqn:E.
  - elim Hn. exists r. split; [now left |].
    apply orb_true_iff in E. now rewrite !String.eqb_eq in E.
  - apply IH. intros (r' & Hr' & H). apply Hn. exists r'.
    split; [now right | exact H].
Qed.

Lemma sideOf_left (a b : Q * Q) :
  (sideOf a b == -1 \/ sideOf a b == 0) <-> a.1 < b.1.
Proof.
  unfold sideOf. num_case.
  - split; [intros _; assumption | now left].
  - split; [| lra]. intros [H | H]; vm_compute in H; discriminate H.
Qed.

Lemma sideOf_right (a b : Q * Q) : sideOf a b == 1 <-> b.1 <= a.1.
Proof.
  unfold sideOf. num_case.
  - split; [| lra]. intros H. vm_compute in H. discriminate H.
  - split; [intros _; assumption | reflexivity].
Qed.

Section Route.

Variables now1 now2 : string.
Variable prev : SandboxState.
Variables a b p : string.

Hypothesis tool : interactionMode prev = rope_pulley.
Hypothesis builder :
  ropeBuilderState prev = mkBuilder select_pulley (Some a) (Some b).
Hypothesis is_pulley : startsWith p "fixed" = true.
Hypothesis no_movable : movablePulleys prev = [].
Hypothesis fixed_p : In p (fixedIds prev).
Hypothesis distinct : a <> b /\ a <> p /\ b <> p.
Hypothesis free_a : ~ roped prev a.
Hypothesis free_b : ~ roped prev b.

Local Notation routed := (App.routed prev now1 now2 a b p).

Lemma click_routes :
  handleSandboxObjectClick now1 now2 prev p = Some routed.
Proof.
  unfold handleSandboxObjectClick, clickPulleyTool. rewrite tool, builder.
  cbn [step firstId secondId]. now rewrite is_pulley.
Qed.

Lemma sideLoop_first (fuel : nat) (i : string) (side : Q)
      (r : Rope.RopeSegment) (rest : list Rope.RopeSegment) :
  ropesAt routed i = r :: rest ->
  includes (fixedIds routed) (otherEnd i r) = true ->
  sideAt r (otherEnd i r) = side ->
  sideLoop routed (S fuel) ∅ [i] = Some side.
Proof.
  intros Hr Hf Hs. cbn [sideLoop].
  destruct (decide (i ∈ (∅ : gset string))) as [H | _]; [set_solver |].
  rewrite Hr. cbn [sideScan]. fold (otherEnd i r). rewrite Hf.
  unfold sideAt in Hs.
  destruct (if String.eqb (Rope.toId r) (otherEnd i r)
            then Rope.toSide r else Rope.fromSide r); now subst side.
Qed.

Lemma getSide_first :
  getSide routed a = sideOf (getObjCoords prev a) (getObjCoords prev p).
Proof.
  destruct distinct as (Hab & Hap & Hbp).
  unfold getSide, sideFuel.
  erewrite sideLoop_first; [reflexivity | | |].
  - unfold ropesAt, App.routed. cbn [ropeSegments authoring].
    rewrite (ropesAt_unroped prev a _ free_a). unfold routeOver.
    cbn [List.filter Rope.fromId Rope.toId].
    rewrite String.eqb_refl. cbn [orb].
    rewrite (proj2 (String.eqb_neq p a)) by congruence.
    rewrite (proj2 (String.eqb_neq b a)) by congruence.
    reflexivity.
  - unfold otherEnd. cbn [Rope.fromId Rope.toId]. rewrite String.eqb_refl.
    now apply Partition.includes_In.
  - unfold sideAt, otherEnd. cbn [Rope.fromId Rope.toId Rope.toSide].
    now rewrite !String.eqb_refl.
Qed.

Lemma getSide_second :
  getSide routed b = sideOf (getObjCoords prev b) (getObjCoords prev p).
Proof.
  destruct distinct as (Hab & Hap & Hbp).
  unfold getSide, sideFuel.
  erewrite sideLoop_first; [reflexivity | | |].
  - unfold ropesAt, App.routed. cbn [ropeSegments authoring].
    rewrite (ropesAt_unroped prev b _ free_b). unfold routeOver.
    cbn [List.filter Rope.fromId Rope.toId].
    rewrite (proj2 (String.eqb_neq a b)) by congruence.
    rewrite (proj2 (String.eqb_neq p b)) by congruence.
    rewrite String.eqb_refl. cbn [orb]. reflexivity.
  - unfold otherEnd. cbn [Rope.fromId Rope.toId].
    rewrite (proj2 (String.eqb_neq p b)) by congruence.
    now apply Partition.includes_In.
  - unfold sideAt, otherEnd.
    cbn [Rope.fromId Rope.toId Rope.toSide Rope.fromSide].
    rewrite (proj2 (String.eqb_neq p b)) by congruence.
    now rewrite (proj2 (String.eqb_neq b p)) by congruence.
Qed.

Lemma roped_first : roped routed a.
Proof.
  unfold roped, App.routed. cbn [ropeSegments authoring].
  eexists. split; [apply in_or_app; right; left; reflexivity |].
  now left.
Qed.

Lemma roped_second : roped routed b.
Proof.
  unfold roped, App.routed. cbn [ropeSegments authoring].
  eexists. split; [apply in_or_app; right; right; left; reflexivity |].
  now right.
Qed.

(** X22. Routing a rope over a fixed pulley decides the groups: in a
    sandbox without movable pulleys, when the pulley tool routes a rope
    from a load over a fixed pulley to a second load, neither of them roped
    before, the click on the pulley succeeds, and in the state it returns a
    load that lies left of the pulley belongs to GroupA and to GroupA
    only, and a load that does not lie left of it belongs to GroupB and to
    GroupB only. *)
Theorem pulley_tool_decides_groups (la lb : Load.LoadObject) :
  In la (loads prev) -> Load.id la = a ->
  In lb (loads prev) -> Load.id lb = b ->
  handleSandboxObjectClick now1 now2 prev p = Some routed
  /\ (In la (loadGroupA routed)
      <-> (getObjCoords prev a).1 < (getObjCoords prev p).1)
  /\ (In la (loadGroupB routed)
      <-> (getObjCoords prev p).1 <= (getObjCoords prev a).1)
  /\ (In lb (loadGroupA routed)
      <-> (getObjCoords prev b).1 < (getObjCoords prev p).1)
  /\ (In lb (loadGroupB routed)
      <-> (getObjCoords prev p).1 <= (getObjCoords prev b).1).
Proof.
  intros Hla Ha Hlb Hb.
  split; [apply click_routes |].
  assert (Hm : movablePulleys routed = []) by exact no_movable.
  rewrite !(SandboxProps.groupA_without_movable routed _ Hm).
  rewrite !(SandboxProps.groupB_without_movable routed _ Hm).
  rewrite Ha, Hb, getSide_first, getSide_second.
  rewrite !sideOf_left, !sideOf_right.
  pose proof roped_first. pose proof roped_second.
  change (loads routed) with (loads prev).
  tauto.
Qed.

End Route.

End Routing.

(** * The numbers of the engine

    The model on rationals reads a quotient with a zero divisor as zero,
    where the engine has NaN or an infinity.  On finite numbers and
    divisors that are not zero the two agree: every operation of the
    engine returns the finite number that the operation on rationals
    returns, and so does a whole tick. *)

Module JsFacts.

Import Js.

Lemma rep_fin (q : Q) : rep (Fin q) q.
Proof. cbn. reflexivity. Qed.

Lemma rep_eq (x : num) (a b : Q) : rep x a -> a == b -> rep x b.
Proof. destruct x; cbn; intros H E; try exact H; now rewrite <- E. Qed.

Lemma rep_finite (x : num) (a : Q) : rep x a -> isFinite x = true.
Proof. destruct x; cbn; intros H; try reflexivity; contradiction. Qed.

Lemma rep_isZero (x : num) (a : Q) : rep x a -> isZero x = Num.eqb a 0.
Proof.
  destruct x; cbn; intros H; try contradiction.
  - unfold Num.eqb. now rewrite H.
  - symmetry. now apply NumFacts.eqb_true.
Qed.

Lemma rep_qval (x : num) (a : Q) : rep x a -> qval x == a.
Proof.
  destruct x; cbn; intros H; try contradiction; [exact H | now symmetry].
Qed.

Lemma rep_zero (neg : bool) : rep (zero neg) 0.
Proof. destruct neg; cbn; reflexivity. Qed.

Lemma rep_add (x y : num) (a b : Q) :
  rep x a -> rep y b -> rep (add x y) (a + b).
Proof.
  destruct x, y; cbn; intros H1 H2; try contradiction; lra.
Qed.

Lemma rep_opp (x : num) (a : Q) : rep x a -> rep (opp x) (- a).
Proof.
  destruct x; cbn; intros H; try contradiction.
  - destruct (Num.eqb q 0) eqn:E; cbn.
    + apply NumFacts.eqb_true in E. lra.
    + lra.
  - lra.
Qed.

Lemma rep_sub (x y : num) (a b : Q) :
  rep x a -> rep y b -> rep (sub x y) (a - b).
Proof. intros H1 H2. apply rep_add; [exact H1 | now apply rep_opp]. Qed.

Lemma rep_mul (x y : num) (a b : Q) :
  rep x a -> rep y b -> rep (mul x y) (a * b).
Proof.
  intros H1 H2. unfold mul.
  assert (Nx : isNaN x = false) by (destruct x; cbn in *; tauto).
  assert (Ny : isNaN y = false) by (destruct y; cbn in *; tauto).
  rewrite Nx, Ny, (rep_finite x a H1), (rep_finite y b H2),
    (rep_isZero x a H1), (rep_isZero y b H2).
  cbn [orb andb].
  destruct (Num.eqb a 0) eqn:Ea; cbn [orb].
  - apply NumFacts.eqb_true in Ea.
    apply (rep_eq _ 0); [apply rep_zero | rewrite Ea; ring].
  - destruct (Num.eqb b 0) eqn:Eb.
    + apply NumFacts.eqb_true in Eb.
      apply (rep_eq _ 0); [apply rep_zero | rewrite Eb; ring].
    + cbn. now rewrite (rep_qval x a H1), (rep_qval y b H2).
Qed.

Lemma rep_div (x y : num) (a b : Q) :
  rep x a -> rep y b -> ~ b == 0 -> rep (div x y) (a / b).
Proof.
  intros H1 H2 Hb. unfold div.
  assert (Nx : isNaN x = false) by (destruct x; cbn in *; tauto).
  assert (Ny : isNaN y = false) by (destruct y; cbn in *; tauto).
  rewrite Nx, Ny, (rep_finite x a H1), (rep_finite y b H2),
    (rep_isZero x a H1), (rep_isZero y b H2).
  cbn [orb].
  replace (Num.eqb b 0) with false
    by (symmetry; now apply NumFacts.eqb_false).
  destruct (Num.eqb a 0) eqn:Ea.
  - apply NumFacts.eqb_true in Ea.
    apply (rep_eq _ 0); [apply rep_zero |].
    rewrite Ea. unfold Qdiv. ring.
  - cbn. now rewrite (rep_qval x a H1), (rep_qval y b H2).
Qed.

Lemma rep_abs (x : num) (a : Q) : rep x a -> rep (abs x) (Num.abs a).
Proof.
  destruct x; cbn; intros H; try contradiction; unfold Num.abs.
  - now rewrite H.
  - now rewrite H.
Qed.

Lemma rep_sign (x : num) (a : Q) : rep x a -> rep (sign x) (Num.sign a).
Proof.
  destruct x; cbn; intros H; try contradiction.
  - now rewrite (AtwoodProps.sign_wd q a H).
  - now rewrite (AtwoodProps.sign_wd a 0 H).
Qed.

Lemma ltb_wd (a b c d : Q) : a == c -> b == d -> Num.ltb a b = Num.ltb c d.
Proof. intros H1 H2. unfold Num.ltb. now rewrite H1, H2. Qed.

Lemma eqb_wd (a b c d : Q) : a == c -> b == d -> Num.eqb a b = Num.eqb c d.
Proof. intros H1 H2. unfold Num.eqb. now rewrite H1, H2. Qed.

Lemma rep_lt (x y : num) (a b : Q) :
  rep x a -> rep y b -> lt x y = Num.ltb a b.
Proof.
  intros H1 H2.
  rewrite <- (ltb_wd _ _ _ _ (rep_qval x a H1) (rep_qval y b H2)).
  destruct x, y; cbn in H1, H2; try contradiction; reflexivity.
Qed.

Lemma rep_gt (x y : num) (a b : Q) :
  rep x a -> rep y b -> gt x y = Num.gtb a b.
Proof. intros H1 H2. unfold gt. now rewrite (rep_lt y x b a). Qed.

Lemma rep_eqb (x y : num) (a b : Q) :
  rep x a -> rep y b -> eq x y = Num.eqb a b.
Proof.
  intros H1 H2.
  rewrite <- (eqb_wd _ _ _ _ (rep_qval x a H1) (rep_qval y b H2)).
  destruct x, y; cbn in H1, H2; try contradiction; reflexivity.
Qed.

Lemma rep_le (x y : num) (a b : Q) :
  rep x a -> rep y b -> le x y = Num.leb a b.
Proof.
  intros H1 H2. unfold le.
  rewrite (rep_lt x y a b H1 H2), (rep_eqb x y a b H1 H2).
  destruct (Num.leb a b) eqn:E.
  - apply NumFacts.leb_true in E.
    destruct (Num.ltb a b) eqn:E1; [reflexivity |].
    apply NumFacts.ltb_false in E1. cbn. apply NumFacts.eqb_true. lra.
  - apply NumFacts.leb_false in E. apply orb_false_iff. split.
    + apply NumFacts.ltb_false. lra.
    + apply NumFacts.eqb_false. lra.
Qed.

Lemma rep_ne (x y : num) (a b : Q) :
  rep x a -> rep y b -> ne x y = negb (Num.eqb a b).
Proof. intros H1 H2. unfold ne. now rewrite (rep_eqb x y a b). Qed.

Lemma rep_or_default (x d : num) (a b : Q) :
  rep x a -> rep d b -> rep (or_default x d) (Num.or_default a b).
Proof.
  intros H1 H2. unfold or_default, Num.or_default.
  rewrite (rep_isZero x a H1).
  assert (Nx : isNaN x = false) by (destruct x; cbn in *; tauto).
  rewrite Nx, orb_false_r. now destruct (Num.eqb a 0).
Qed.

Lemma rep_if (c : bool) (x y : num) (a b : Q) :
  rep x a -> rep y b -> rep (if c then x else y) (if c then a else b).
Proof. now destruct c. Qed.

End JsFacts.

Module Refinement.

Import Js JsFacts Embed.

Lemma rep_gravity : rep gravity GRAVITY.
Proof. apply rep_fin. Qed.

Lemma rep_frictionScale : rep frictionScale FRICTION_SCALE.
Proof. apply rep_fin. Qed.

Lemma rep_airScale : rep airScale AIR_RESISTANCE_SCALE.
Proof. apply rep_fin. Qed.

Create HintDb rep.

#[local] Hint Resolve rep_fin rep_gravity rep_frictionScale rep_airScale
  rep_add rep_sub rep_mul rep_opp rep_abs rep_sign rep_or_default : rep.

Ltac fields H :=
  destruct H as [? ? ? ? ? ? ? ? ? ? ? ? ? ? ? ? ?].

Ltac reps := auto 30 with rep.

Ltac fieldwise :=
  cbn [AtwoodJs.stopAt AtwoodJs.mass1 AtwoodJs.mass2 AtwoodJs.pulleyMass
       AtwoodJs.pulleyRadius AtwoodJs.frictionCoeff
       AtwoodJs.totalRopeLength AtwoodJs.initialY1 AtwoodJs.initialY2
       AtwoodJs.ropeMaxTension AtwoodJs.airResistance AtwoodJs.isBroken
       AtwoodJs.y1 AtwoodJs.y2 AtwoodJs.velocity AtwoodJs.angularVelocity
       AtwoodJs.acceleration AtwoodJs.tension1 AtwoodJs.tension2
       AtwoodJs.time AtwoodJs.stepBroken
       Atwood.stopAt Atwood.stepBroken mass1 mass2 pulleyMass pulleyRadius
       frictionCoeff totalRopeLength initialY1 initialY2 ropeMaxTension
       airResistance isBroken y1 y2 velocity angularVelocity acceleration
       tension1 tension2 time].

Section Step.

Variables (j : AtwoodJs.State) (s : AtwoodState).
Variables (dj : num) (dt : Q) (mode : RealityMode).

Hypothesis Hag : agrees j s.
Hypothesis Hdt : rep dj dt.

Lemma rep_ropeLen : rep (AtwoodJs.ropeLen j) (Atwood.ropeLen s).
Proof.
  unfold AtwoodJs.ropeLen, Atwood.ropeLen. fields Hag. reps.
Qed.

Lemma rep_drivingForce :
  rep (AtwoodJs.drivingForce j) (Atwood.drivingForce s).
Proof.
  unfold AtwoodJs.drivingForce, Atwood.drivingForce. fields Hag. reps.
Qed.

Lemma eq_isBalanced : AtwoodJs.isBalanced j = Atwood.isBalanced s.
Proof.
  unfold AtwoodJs.isBalanced, Atwood.isBalanced. fields Hag.
  apply rep_lt; reps.
Qed.

Lemma two_ne_0 : ~ 2 == 0.
Proof. intros H. discriminate H. Qed.

Lemma rep_centeringForce :
  rep (AtwoodJs.centeringForce j) (Atwood.centeringForce s).
Proof.
  unfold AtwoodJs.centeringForce, Atwood.centeringForce.
  rewrite eq_isBalanced. pose proof rep_ropeLen as HL.
  pose proof two_ne_0 as H2.
  assert (Hhalf : rep (div (AtwoodJs.ropeLen j) (Fin 2))
                      (Atwood.ropeLen s / 2))
    by (apply rep_div; reps).
  fields Hag. destruct (Atwood.isBalanced s); cbv zeta; reps.
Qed.

Lemma rep_frictionForce :
  rep (AtwoodJs.frictionForce j) (Atwood.frictionForce s).
Proof.
  unfold AtwoodJs.frictionForce, Atwood.frictionForce.
  rewrite (rep_gt (AtwoodJs.frictionCoeff j) (Fin 0) (frictionCoeff s) 0
                  (ag_frictionCoeff _ _ Hag) (rep_fin 0)).
  fields Hag. destruct (Num.gtb (frictionCoeff s) 0); reps.
Qed.

Lemma eq_moving :
  gt (abs (AtwoodJs.velocity j)) (Fin (1 # 1000))
  = Num.gtb (Num.abs (velocity s)) (1 # 1000).
Proof. fields Hag. apply rep_gt; reps. Qed.

Lemma rep_netForceFriction :
  rep (AtwoodJs.netForceFriction j) (Atwood.netForceFriction s).
Proof.
  unfold AtwoodJs.netForceFriction, Atwood.netForceFriction. cbv zeta.
  rewrite eq_moving.
  pose proof rep_drivingForce as Hd. pose proof rep_centeringForce as Hc.
  pose proof rep_frictionForce as Hf.
  rewrite (rep_le _ _ (Num.abs (Atwood.drivingForce s
                                + Atwood.centeringForce s))
                  (Atwood.frictionForce s)) by reps.
  fields Hag.
  destruct (Num.gtb (Num.abs (velocity s)) (1 # 1000)); [reps |].
  destruct (Num.leb _ _); reps.
Qed.

Lemma rep_netForce :
  rep (AtwoodJs.netForce j mode) (Atwood.netForce s mode).
Proof.
  unfold AtwoodJs.netForce, Atwood.netForce. cbv zeta.
  rewrite eq_moving. pose proof rep_netForceFriction as Hn.
  fields Hag.
  destruct (is_real mode && Num.gtb (Num.abs (velocity s)) (1 # 1000));
    reps.
Qed.

Lemma rep_totalInertialMass :
  rep (AtwoodJs.totalInertialMass j) (Atwood.totalInertialMass s).
Proof.
  unfold AtwoodJs.totalInertialMass, Atwood.totalInertialMass,
    AtwoodJs.effectivePulleyInertiaMass, Atwood.effectivePulleyInertiaMass.
  fields Hag. reps.
Qed.

Hypothesis Hm : ~ Atwood.totalInertialMass s == 0.

Lemma rep_quotient :
  rep (div (AtwoodJs.netForce j mode) (AtwoodJs.totalInertialMass j))
      (Atwood.netForce s mode / Atwood.totalInertialMass s).
Proof.
  apply rep_div; [apply rep_netForce | apply rep_totalInertialMass |].
  exact Hm.
Qed.

Lemma eq_stiction :
  AtwoodJs.stiction j dj mode = Atwood.stiction s dt mode.
Proof.
  unfold AtwoodJs.stiction, Atwood.stiction. cbv zeta.
  rewrite eq_moving.
  pose proof rep_quotient as Hq. pose proof rep_netForce as Hn.
  pose proof rep_frictionForce as Hf.
  rewrite (rep_le _ _ (Num.abs (Atwood.netForce s mode))
                  (Atwood.frictionForce s)) by reps.
  fields Hag.
  rewrite (rep_ne _ _
             (Num.sign (velocity s
                        + Atwood.netForce s mode
                          / Atwood.totalInertialMass s * dt))
             (Num.sign (velocity s))) by reps.
  reflexivity.
Qed.

Lemma rep_accel :
  rep (AtwoodJs.accel j dj mode) (Atwood.accel s dt mode).
Proof.
  unfold AtwoodJs.accel, Atwood.accel. rewrite eq_stiction.
  pose proof rep_quotient as Hq.
  destruct (Atwood.stiction s dt mode); reps.
Qed.

Lemma rep_newVelocity :
  rep (AtwoodJs.newVelocity j dj mode) (Atwood.newVelocity s dt mode).
Proof.
  unfold AtwoodJs.newVelocity, Atwood.newVelocity. cbv zeta.
  rewrite eq_stiction, eq_isBalanced.
  pose proof rep_quotient as Hq. fields Hag.
  destruct (Atwood.stiction s dt mode), (Atwood.isBalanced s); reps.
Qed.

Lemma rep_newY1 :
  rep (AtwoodJs.newY1 j dj mode) (Atwood.newY1 s dt mode).
Proof.
  unfold AtwoodJs.newY1, Atwood.newY1.
  pose proof rep_newVelocity as Hv. fields Hag. reps.
Qed.

Lemma eq_hitsTop : AtwoodJs.hitsTop j dj mode = Atwood.hitsTop s dt mode.
Proof.
  unfold AtwoodJs.hitsTop, Atwood.hitsTop.
  apply rep_lt; [apply rep_newY1 | apply rep_fin].
Qed.

Lemma eq_hitsBottom :
  AtwoodJs.hitsBottom j dj mode = Atwood.hitsBottom s dt mode.
Proof.
  unfold AtwoodJs.hitsBottom, Atwood.hitsBottom.
  pose proof rep_ropeLen as HL.
  apply rep_gt; [apply rep_newY1 | reps].
Qed.

(** an intact tick on finite numbers with a divisor that is not zero:
    the engine's numbers are the finite numbers of the rational model *)
Lemma intact_step_agrees :
  isBroken s = false ->
  agrees (AtwoodJs.updateAtwoodPhysics j dj mode)
         (Atwood.updateAtwoodPhysics s dt mode).
Proof.
  intros Hb.
  unfold AtwoodJs.updateAtwoodPhysics, Atwood.updateAtwoodPhysics.
  rewrite (ag_isBroken _ _ Hag), Hb.
  unfold AtwoodJs.stepIntact, Atwood.stepIntact.
  rewrite eq_hitsTop, eq_hitsBottom.
  pose proof rep_ropeLen as HL. pose proof rep_newY1 as Hy.
  pose proof rep_newVelocity as Hv. pose proof rep_accel as Ha.
  pose proof (ag_isBroken _ _ Hag) as Hbr.
  assert (Ht1 : gt (mul (AtwoodJs.mass1 j)
                        (add gravity (AtwoodJs.accel j dj mode)))
                   (AtwoodJs.ropeMaxTension j)
                = Num.gtb (mass1 s * (GRAVITY + Atwood.accel s dt mode))
                          (ropeMaxTension s))
    by (fields Hag; apply rep_gt; reps).
  assert (Ht2 : gt (mul (AtwoodJs.mass2 j)
                        (sub gravity (AtwoodJs.accel j dj mode)))
                   (AtwoodJs.ropeMaxTension j)
                = Num.gtb (mass2 s * (GRAVITY - Atwood.accel s dt mode))
                          (ropeMaxTension s))
    by (fields Hag; apply rep_gt; reps).
  fields Hag.
  destruct (Atwood.hitsTop s dt mode); [split; fieldwise; reps |].
  destruct (Atwood.hitsBottom s dt mode); [split; fieldwise; reps |].
  cbv zeta. rewrite Ht1, Ht2. split; fieldwise; reps.
Qed.

Lemma rep_brokenV0 :
  rep (AtwoodJs.brokenV0 j dj) (Atwood.brokenV0 s dt).
Proof.
  unfold AtwoodJs.brokenV0, Atwood.brokenV0. fields Hag. reps.
Qed.

Lemma rep_brokenDrag :
  rep (AtwoodJs.brokenDrag j dj) (Atwood.brokenDrag s dt).
Proof.
  unfold AtwoodJs.brokenDrag, Atwood.brokenDrag.
  pose proof rep_brokenV0 as Hv. fields Hag. reps.
Qed.

Lemma rep_brokenV (mj : num) (m : Q) :
  rep mj m -> (mode = REAL -> ~ m == 0) ->
  rep (AtwoodJs.brokenV j dj mode mj) (Atwood.brokenV s dt mode m).
Proof.
  intros Hmj Hne. unfold AtwoodJs.brokenV, Atwood.brokenV.
  pose proof rep_brokenV0 as Hv. pose proof rep_brokenDrag as Hd.
  destruct mode; cbn [is_real]; [exact Hv |].
  assert (Hq : rep (div (AtwoodJs.brokenDrag j dj) mj)
                   (Atwood.brokenDrag s dt / m))
    by (apply rep_div; auto).
  reps.
Qed.

Lemma rep_capFloor (x : num) (a : Q) :
  rep x a -> rep (AtwoodJs.capFloor x) (Atwood.capFloor a).
Proof.
  intros H. unfold AtwoodJs.capFloor, Atwood.capFloor.
  rewrite (rep_gt x (Fin (45 # 10)) a (45 # 10) H (rep_fin _)).
  destruct (Num.gtb a (45 # 10)); reps.
Qed.

(** a tick on a broken machine of finite numbers, the masses not being
    zero where the drag of REAL mode is divided by them *)
Lemma broken_step_agrees :
  isBroken s = true ->
  (mode = REAL -> ~ mass1 s == 0 /\ ~ mass2 s == 0) ->
  agrees (AtwoodJs.updateAtwoodPhysics j dj mode)
         (Atwood.updateAtwoodPhysics s dt mode).
Proof.
  intros Hb Hne.
  unfold AtwoodJs.updateAtwoodPhysics, Atwood.updateAtwoodPhysics.
  rewrite (ag_isBroken _ _ Hag), Hb.
  pose proof (rep_brokenV (AtwoodJs.mass1 j) (mass1 s)
                          (ag_mass1 _ _ Hag)
                          (fun E => proj1 (Hne E))) as H1.
  pose proof (rep_brokenV (AtwoodJs.mass2 j) (mass2 s)
                          (ag_mass2 _ _ Hag)
                          (fun E => proj2 (Hne E))) as H2.
  pose proof (ag_isBroken _ _ Hag) as Hbr.
  pose proof rep_capFloor as Hcap.
  fields Hag. split; fieldwise; reps.
Qed.

End Step.

(** X23. Finite in, finite out: on a machine whose fields are finite
    numbers, with a finite time slice, a tick none of whose divisors is
    zero -- the total inertial mass on an intact machine, the two masses
    on a broken machine in REAL mode -- returns finite numbers, neither
    NaN nor an infinity, in every field that a later tick reads, and they
    are the numbers that the model on rationals returns (rounding and
    overflow aside, as in both models). *)
Theorem tick_stays_finite (j : AtwoodJs.State) (s : AtwoodState)
        (dj : num) (dt : Q) (mode : RealityMode) :
  agrees j s -> rep dj dt ->
  (isBroken s = false -> ~ Atwood.totalInertialMass s == 0) ->
  (isBroken s = true -> mode = REAL ->
   ~ mass1 s == 0 /\ ~ mass2 s == 0) ->
  agrees (AtwoodJs.updateAtwoodPhysics j dj mode)
         (Atwood.updateAtwoodPhysics s dt mode).
Proof.
  intros Hag Hdt Hi Hm. destruct (isBroken s) eqn:Hb.
  - apply broken_step_agrees; auto.
  - apply intact_step_agrees; auto.
Qed.

Lemma inject_agrees (s : AtwoodState) : agrees (inject s) s.
Proof. split; cbn; reflexivity. Qed.

Lemma withinLimits_agrees (j : AtwoodJs.State) (s : AtwoodState) :
  agrees j s -> withinLimits s -> AtwoodJs.withinLimits j = true.
Proof.
  intros Hag [H1 H2]. unfold AtwoodJs.withinLimits.
  rewrite (rep_le (Fin (2 # 10)) (AtwoodJs.y1 j) (2 # 10) (y1 s))
    by (fields Hag; reps).
  rewrite (rep_le (AtwoodJs.y1 j)
                  (sub (AtwoodJs.totalRopeLength j) (Fin (2 # 10)))
                  (y1 s) (totalRopeLength s - (2 # 10)))
    by (fields Hag; reps).
  apply andb_true_iff. split; now apply NumFacts.leb_true.
Qed.

(** X24. Boundary clamp on the numbers of the engine: from an intact
    machine of finite numbers with [y1] within the position limits and a
    total inertial mass that is not zero, along any sequence of ticks of
    finite time slices whose states stay intact, both comparisons
    [0.2 <= y1] and [y1 <= totalRopeLength - 0.2] are true of every
    produced state: no NaN, for which they are false, is ever produced. *)
Theorem boundary_clamp_on_numbers (ticks : list (Q * RealityMode)) :
  forall (j : AtwoodJs.State) (s : AtwoodState),
    agrees j s -> isBroken s = false -> withinLimits s ->
    ~ Atwood.totalInertialMass s == 0 ->
    (forall j', In j' (jsStates j ticks) -> AtwoodJs.isBroken j' = false) ->
    forall j', In j' (jsStates j ticks) ->
               AtwoodJs.withinLimits j' = true.
Proof.
  induction ticks as [| [dt mode] ticks IH];
    intros j s Hag Hb Hw Hm Hall j' Hin; [destruct Hin |].
  cbn [jsStates] in Hin, Hall.
  pose proof (intact_step_agrees j s (Fin dt) dt mode Hag (rep_fin dt)
                                 Hm Hb) as Hag1.
  assert (HL : 4 # 10 <= totalRopeLength s)
    by (unfold withinLimits in Hw; lra).
  pose proof (AtwoodProps.intact_tick_within s dt mode Hb HL) as Hw1.
  assert (Hm1 : ~ Atwood.totalInertialMass
                    (Atwood.updateAtwoodPhysics s dt mode) == 0)
    by now rewrite AtwoodProps.step_keeps_inertia.
  assert (Hb1 : isBroken (Atwood.updateAtwoodPhysics s dt mode) = false).
  { rewrite <- (ag_isBroken _ _ Hag1). apply Hall. now left. }
  destruct Hin as [<- | Hin].
  - apply (withinLimits_agrees _ _ Hag1 Hw1).
  - apply (IH _ _ Hag1 Hb1 Hw1 Hm1 (fun t Ht => Hall t (or_intror Ht))
              j' Hin).
Qed.

End Refinement.

(** * The further properties on concrete states *)

Module MoreExamples.

Import Examples Cases.

Lemma rope_is_conserved_witness :
  y1 (Atwood.updateAtwoodPhysics nearTop (16 # 1000) REAL)
  + y2 (Atwood.updateAtwoodPhysics nearTop (16 # 1000) REAL)
  == Atwood.ropeLen (Atwood.updateAtwoodPhysics nearTop (16 # 1000) REAL).
Proof.
  apply (AtwoodMore.rope_is_conserved nearTop (16 # 1000) REAL).
  - reflexivity.
  - intros H. vm_compute in H. discriminate H.
Defined.

Lemma atwood_breaks_iff_witness :
  isBroken (Atwood.updateAtwoodPhysics INITIAL_ATWOOD (16 # 1000) IDEAL)
  = true
  <-> IDEAL = REAL
      /\ Atwood.clamped INITIAL_ATWOOD (16 # 1000) IDEAL = false
      /\ (ropeMaxTension INITIAL_ATWOOD
          < tension1 (Atwood.updateAtwoodPhysics INITIAL_ATWOOD
                                                 (16 # 1000) IDEAL)
          \/ ropeMaxTension INITIAL_ATWOOD
             < tension2 (Atwood.updateAtwoodPhysics INITIAL_ATWOOD
                                                    (16 # 1000) IDEAL)).
Proof.
  apply (AtwoodMore.atwood_breaks_iff INITIAL_ATWOOD (16 # 1000) IDEAL).
  reflexivity.
Defined.

Lemma static_friction_holds_witness :
  acceleration (Atwood.updateAtwoodPhysics restingMachine (16 # 1000) REAL)
  == 0.
Proof.
  refine (proj1 (AtwoodMore.static_friction_holds
                   restingMachine (16 # 1000) REAL _ _ _ _ _)).
  - reflexivity.
  - intros H. vm_compute in H. discriminate H.
  - reflexivity.
  - vm_compute. discriminate.
  - split; vm_compute; discriminate.
Defined.

Lemma balanced_middle_is_fixed_witness :
  acceleration (Atwood.updateAtwoodPhysics balancedMachine (16 # 1000) IDEAL)
  == 0.
Proof.
  refine (proj1 (AtwoodMore.balanced_middle_is_fixed
                   balancedMachine (16 # 1000) _ _ _ _ _ _)).
  - reflexivity.
  - intros H. vm_compute in H. discriminate H.
  - reflexivity.
  - reflexivity.
  - vm_compute. reflexivity.
  - vm_compute. discriminate.
Defined.

Lemma broken_run_is_frozen_witness :
  time (runAtwood snapped someTicks) = time snapped.
Proof.
  refine (proj1 (AtwoodMore.broken_run_is_frozen someTicks snapped _ _ _)).
  - reflexivity.
  - intros H. vm_compute in H. discriminate H.
  - intros H. vm_compute in H. discriminate H.
Defined.

Lemma tick_stays_finite_witness :
  Embed.agrees
    (AtwoodJs.updateAtwoodPhysics (Embed.inject INITIAL_ATWOOD)
                                  (Js.Fin (16 # 1000)) REAL)
    (Atwood.updateAtwoodPhysics INITIAL_ATWOOD (16 # 1000) REAL).
Proof.
  apply (Refinement.tick_stays_finite
           (Embed.inject INITIAL_ATWOOD) INITIAL_ATWOOD
           (Js.Fin (16 # 1000)) (16 # 1000) REAL).
  - split; reflexivity.
  - reflexivity.
  - intros _ H. vm_compute in H. discriminate H.
  - intros H. discriminate H.
Defined.

Lemma boundary_clamp_on_numbers_witness :
  AtwoodJs.withinLimits
    (AtwoodJs.updateAtwoodPhysics
       (AtwoodJs.updateAtwoodPhysics (Embed.inject nearTop)
                                     (Js.Fin (5 # 1000)) IDEAL)
       (Js.Fin (16 # 1000)) IDEAL)
  = true.
Proof.
  refine (Refinement.boundary_clamp_on_numbers
            risingTicks (Embed.inject nearTop) nearTop _ _ _ _ _ _ _).
  - split; reflexivity.
  - reflexivity.
  - unfold withinLimits. cbn. lra.
  - intros H. vm_compute in H. discriminate H.
  - intros j' [<- | [<- | []]]; vm_compute; reflexivity.
  - right. left. reflexivity.
Defined.

Lemma partition_with_movable_witness :
  In loadLift (Sandbox.loadGroupA presetMovable)
  <-> exists i,
      Routes.reachable presetMovable (Sandbox.isFixedOrAnchor presetMovable)
                       (Sandbox.movableIds presetMovable) i
      /\ Sandbox.findLoad presetMovable i = Some loadLift.
Proof.
  refine (proj1 (Partition.partition_with_movable
                   presetMovable loadLift _)).
  discriminate.
Defined.

Lemma rope_velocity_is_capped_witness :
  -50 <= Sandbox.loadVelocity
           (Sandbox.updateSandboxPhysics (fun x => x) presetMovable
                                         (16 # 1000) REAL)
  <= 50.
Proof.
  apply (SandboxMore.rope_velocity_is_capped
           (fun x => x) presetMovable (16 # 1000) REAL).
  reflexivity.
Defined.

Lemma effective_mass_floor_witness :
  1 <= Sandbox.EffectiveMass presetMovable REAL.
Proof.
  refine (proj1 (proj2 (SandboxMore.effective_mass_floor
                          presetMovable REAL _))).
  intros l [<- | [<- | []]]; vm_compute; discriminate.
Defined.

Lemma nothing_below_floor_witness :
  Load.y (Sandbox.updateLoad (fun x => x) presetMovable (16 # 1000) REAL
                             loadLift)
  <= Sandbox.floorY.
Proof.
  refine (proj1 (SandboxMore.nothing_below_floor
                   (fun x => x) presetMovable (16 # 1000) REAL _ _) _ _).
  - reflexivity.
  - vm_compute. discriminate.
  - vm_compute. left. reflexivity.
Defined.

Lemma geometry_stays_consistent_witness :
  Geometry.consistent (fold_left Geometry.act session INITIAL_ATWOOD).
Proof.
  refine (proj1 (AtwoodApp.geometry_stays_consistent
                   session INITIAL_ATWOOD _)).
  vm_compute. reflexivity.
Defined.

Lemma analysis_agrees_with_engine_witness :
  NewtonsAnalysis.netForce restingMachine
  == Atwood.netForce restingMachine IDEAL.
Proof.
  refine (proj1 (proj2 (proj2 (AtwoodApp.analysis_agrees_with_engine
                                 restingMachine _)))).
  reflexivity.
Defined.

Lemma energy_bars_fit_witness :
  DataPanel.barWidth (DataPanel.atwoodEnergy INITIAL_ATWOOD)
                     (DataPanel.pe (DataPanel.atwoodEnergy INITIAL_ATWOOD))
  + DataPanel.barWidth (DataPanel.atwoodEnergy INITIAL_ATWOOD)
                       (DataPanel.ke (DataPanel.atwoodEnergy INITIAL_ATWOOD))
  <= 100.
Proof.
  refine (proj1 (proj2 (proj2 (proj2 (proj2 (proj2 (proj2
            (AtwoodApp.energy_bars_fit INITIAL_ATWOOD _ _ _)))))))).
  all: vm_compute; discriminate.
Defined.

Lemma direct_tool_keeps_simple_witness :
  Controls.simpleRopes
    (Sandbox.ropeSegments (App.clickDirectTool "7" benchDirect "load-2")).
Proof.
  refine (proj1 (Authoring.direct_tool_keeps_simple
                   "7" benchDirect "load-2" _)).
  cbn. repeat split; [discriminate | intros r' []].
Defined.

Lemma edits_never_fail_witness :
  exists o, Controls.edits benchSelected routingEdits = Some o
            /\ Controls.builderReady (Sandbox.ropeBuilderState o).
Proof.
  apply (Authoring.edits_never_fail routingEdits benchSelected).
  exact I.
Defined.

Lemma delete_keeps_references_witness :
  ~ Controls.isNode (Controls.deleteSelected benchSelected) "load-1".
Proof.
  refine (proj1 (Authoring.delete_keeps_references
                   benchSelected "load-1" _)).
  reflexivity.
Defined.

Lemma pulley_tool_decides_groups_witness :
  In crate1 (Sandbox.loadGroupA
               (App.routed benchRouting "6" "7" "load-1" "load-2" "fixed-1"))
  <-> (App.getObjCoords benchRouting "load-1").1
      < (App.getObjCoords benchRouting "fixed-1").1.
Proof.
  refine (proj1 (proj2 (Routing.pulley_tool_decides_groups
                          "6" "7" benchRouting "load-1" "load-2" "fixed-1"
                          _ _ _ _ _ _ _ _ crate1 crate2 _ _ _ _))).
  - reflexivity.
  - reflexivity.
  - reflexivity.
  - reflexivity.
  - left. reflexivity.
  - repeat split; discriminate.
  - intros (r & [] & _).
  - intros (r & [] & _).
  - left. reflexivity.
  - reflexivity.
  - right. left. reflexivity.
  - reflexivity.
Defined.

(** after the route of the witness, the load on the left of the pulley is
    in GroupA and the one on its right in GroupB *)
Example routed_groups :
  map Load.id
      (Sandbox.loadGroupA
         (App.routed benchRouting "6" "7" "load-1" "load-2" "fixed-1"))
  = ["load-1"%string]
  /\ map Load.id
         (Sandbox.loadGroupB
            (App.routed benchRouting "6" "7" "load-1" "load-2" "fixed-1"))
     = ["load-2"%string].
Proof. split; vm_compute; reflexivity. Qed.

End MoreExamples.
